(** * Reminder bot (src/index.ts): the command handlers and the scheduler

    The bot keeps one SQLite table [reminders] and reacts to chat commands;
    a timer scans the table once per minute.  This development embeds the
    handlers of [index.ts] as state-passing programs over the table and the
    list of sent messages, and states the properties of the parser, of the
    store operations and of the scheduler.

    Conventions of the embedding.
    - A JavaScript string is a [string]: the sequence of bytes of its UTF-8
      text.  The string operations below are those of ECMAScript on ASCII
      text (letters A-Z are the upper-case letters, the white space is TAB,
      LF, VT, FF, CR and SPACE); bytes above 127 are carried along unchanged.
      The pattern [.] stops at the four line terminators LF, CR, U+2028
      and U+2029.  [addReminderOn] is the handler of additions over the
      [toLowerCase] and [trim] of the platform, whatever they do outside
      ASCII; [addReminder] is that handler on the ASCII operations.
    - A [Date] is its time value, the milliseconds since the epoch.
    - The natural-language time parser, the time zone of the host and the
      conversion SQLite applies to a TEXT operand compared with the INTEGER
      key are parameters of the development.
    - Statements given to the database do not fail.  The INSERTs of one
      addition are given by separate calls of [db.run], outside of
      [db.serialize], and the database executes them in an order of its
      own: [addReminderOn] takes that order as a parameter, and
      [addReminder] is the run that executes them in the order they are
      issued. *)

From Stdlib Require Import List String Ascii Bool ZArith NArith Lia.
From Stdlib Require Import DecimalString DecimalPos Permutation.
Import ListNotations.

Local Open Scope string_scope.
Local Open Scope Z_scope.

(** ** Characters *)

Definition code (c : ascii) : N := N_of_ascii c.

Definition in_range (lo hi : N) (c : ascii) : bool :=
  (lo <=? code c)%N && (code c <=? hi)%N.

Definition isUpper (c : ascii) : bool := in_range 65 90 c.
Definition isDigit (c : ascii) : bool := in_range 48 57 c.

(** WhiteSpace and LineTerminator of ECMAScript, ASCII part: what [\s]
    matches and what [trim] removes. *)
Definition isWhiteSpace (c : ascii) : bool :=
  in_range 9 13 c || (code c =? 32)%N.

Definition lowerChar (c : ascii) : ascii :=
  if isUpper c then ascii_of_N (code c + 32) else c.

(** ** String.prototype functions used by the handlers *)

Fixpoint toLowerCase (s : string) : string :=
  match s with
  | EmptyString => EmptyString
  | String c s' => String (lowerChar c) (toLowerCase s')
  end.

(** [s.includes(sub)] *)
Fixpoint includes (s sub : string) : bool :=
  prefix sub s ||
  match s with
  | EmptyString => false
  | String _ s' => includes s' sub
  end.

(** [s.indexOf(sub)], [None] for -1 *)
Fixpoint indexOf (s sub : string) : option nat :=
  if prefix sub s then Some O
  else match s with
       | EmptyString => None
       | String _ s' => option_map S (indexOf s' sub)
       end.

Fixpoint str_drop (n : nat) (s : string) : string :=
  match n, s with
  | O, _ => s
  | S _, EmptyString => EmptyString
  | S k, String _ s' => str_drop k s'
  end.

Fixpoint str_take (n : nat) (s : string) : string :=
  match n, s with
  | O, _ => EmptyString
  | S _, EmptyString => EmptyString
  | S k, String c s' => String c (str_take k s')
  end.

(** [s.split(sep)] for a non-empty separator: the text is cut at every
    occurrence of [sep], scanning from the left; [skip] counts the
    characters of a matched separator that are still to be passed over.
    The head of the result is the piece under construction. *)
Fixpoint split_from (sep : string) (skip : nat) (s : string) : list string :=
  match s with
  | EmptyString => [EmptyString]
  | String c s' =>
      match skip with
      | S k => split_from sep k s'
      | O =>
          if prefix sep s
          then EmptyString :: split_from sep (String.length sep - 1) s'
          else match split_from sep O s' with
               | piece :: pieces => String c piece :: pieces
               | [] => [String c EmptyString]
               end
      end
  end.

Definition split (s sep : string) : list string :=
  match sep with
  | EmptyString => map (fun c => String c EmptyString) (list_ascii_of_string s)
  | _ => split_from sep O s
  end.

(** [pieces.join(sep)] *)
Definition join (pieces : list string) (sep : string) : string :=
  String.concat sep pieces.

Fixpoint trimStart (s : string) : string :=
  match s with
  | EmptyString => EmptyString
  | String c s' => if isWhiteSpace c then trimStart s' else s
  end.

Fixpoint trimEnd (s : string) : string :=
  match s with
  | EmptyString => EmptyString
  | String c s' =>
      match trimEnd s' with
      | EmptyString => if isWhiteSpace c then EmptyString else String c EmptyString
      | t => String c t
      end
  end.

Definition trim (s : string) : string := trimEnd (trimStart s).

(** [s.replace(/^remind\s*/, "")]: the pattern is anchored at the start and
    [\s*] is greedy. *)
Definition replace_remind (s : string) : string :=
  if prefix "remind" s then trimStart (str_drop 6 s) else s.

(** Case-insensitive test that [s] starts with the lower-case word [w]. *)
Definition prefix_i (w s : string) : bool :=
  prefix w (toLowerCase (str_take (String.length w) s)).

Definition am_pm (s : string) : bool := prefix_i "am" s || prefix_i "pm" s.

(** [part.match(/\d{1,2}(am|pm)/i)] is truthy: somewhere in [part] one or
    two digits are followed by "am" or "pm". *)
Fixpoint match_time (part : string) : bool :=
  match part with
  | EmptyString => false
  | String c rest =>
      (isDigit c &&
         (am_pm rest ||
          match rest with
          | String c2 rest2 => isDigit c2 && am_pm rest2
          | EmptyString => false
          end))
      || match_time rest
  end.

(** ** Numbers *)

(** [n.toString()] for an integer within the safe range: its decimal
    numeral. *)
Definition toString (n : Z) : string := NilZero.string_of_int (Z.to_int n).

Fixpoint span_digits (s : string) : nat * string :=
  match s with
  | String c s' =>
      if isDigit c then let (n, r) := span_digits s' in (S n, r) else (O, s)
  | EmptyString => (O, s)
  end.

Definition digit_value (c : ascii) : Z := Z.of_N (code c) - 48.

Fixpoint digits_value (acc : Z) (s : string) : Z :=
  match s with
  | String c s' => if isDigit c then digits_value (10 * acc + digit_value c) s' else acc
  | EmptyString => acc
  end.

Definition isHexDigit (c : ascii) : bool :=
  isDigit c || in_range 97 102 (lowerChar c).

Definition hex_digit_value (c : ascii) : Z :=
  if isDigit c then digit_value c else Z.of_N (code (lowerChar c)) - 87.

Fixpoint hex_value (acc : Z) (s : string) : Z :=
  match s with
  | String c s' =>
      if isHexDigit c then hex_value (16 * acc + hex_digit_value c) s' else acc
  | EmptyString => acc
  end.

(** [parseInt(s)] without a radix, [None] for NaN: leading white space
    and an optional sign are skipped; after "0x" the longest prefix of
    hexadecimal digits is read, otherwise the longest prefix of decimal
    digits.  (The handlers apply it to the capture of [(\d+)]; the value
    is exact below 2^53.) *)
Definition parseInt (s : string) : option Z :=
  let t := trimStart s in
  let (neg, u) :=
    match t with
    | String "-" u => (true, u)
    | String "+" u => (false, u)
    | _ => (false, t)
    end in
  let signed (n : Z) := if neg then - n else n in
  let decimal :=
    match fst (span_digits u) with
    | O => None
    | S _ => Some (signed (digits_value 0 u))
    end in
  match u with
  | String "0" (String k r) =>
      if (lowerChar k =? "x")%char then
        match r with
        | String h _ =>
            if isHexDigit h then Some (signed (hex_value 0 r)) else None
        | EmptyString => None
        end
      else decimal
  | _ => decimal
  end.

Definition all_chars (p : ascii -> bool) (s : string) : bool :=
  forallb p (list_ascii_of_string s).

(** ExponentPart (optional), up to the end of the text. *)
Definition exponent_opt (s : string) : bool :=
  match s with
  | EmptyString => true
  | String c r =>
      (lowerChar c =? "e")%char &&
      let r' := match r with
                | String "+" u => u
                | String "-" u => u
                | _ => r
                end in
      let (n, rest) := span_digits r' in
      negb (Nat.eqb n 0) && (rest =? "")%string
  end.

(** StrUnsignedDecimalLiteral *)
Definition unsigned_decimal (s : string) : bool :=
  (s =? "Infinity")%string ||
  let (n1, r1) := span_digits s in
  match r1 with
  | String "." r2 =>
      let (n2, r3) := span_digits r2 in
      negb (Nat.eqb n1 0 && Nat.eqb n2 0) && exponent_opt r3
  | _ => negb (Nat.eqb n1 0) && exponent_opt r1
  end.

(** StrDecimalLiteral *)
Definition signed_decimal (s : string) : bool :=
  match s with
  | String "+" u => unsigned_decimal u
  | String "-" u => unsigned_decimal u
  | _ => unsigned_decimal s
  end.

(** NonDecimalIntegerLiteral: 0x, 0o and 0b numerals. *)
Definition non_decimal (s : string) : bool :=
  match s with
  | String "0" (String k (String d ds)) =>
      let body := String d ds in
      if (lowerChar k =? "x")%char then all_chars isHexDigit body
      else if (lowerChar k =? "o")%char then all_chars (in_range 48 55) body
      else if (lowerChar k =? "b")%char then all_chars (in_range 48 49) body
      else false
  | _ => false
  end.

(** [isNaN(Number(s))]: StringToNumber gives NaN unless the text, without
    the white space around it, is empty (the number 0) or a
    StrNumericLiteral. *)
Definition isNaN_Number (s : string) : bool :=
  let t := trim s in
  negb ((t =? "")%string || signed_decimal t || non_decimal t).

(** ** Dates *)

Definition Date : Type := Z.

Definition pad2 (n : Z) : string :=
  if n <? 10 then "0" ++ toString n else toString n.

(** Offset of Asia/Kolkata from UTC, in minutes. *)
Definition kolkata_offset : Z := 330.

(** ** The table [reminders] *)

Record Row : Type := mkRow {
  id : Z;
  chat_id : string;
  message : string;
  day_of_week : string;
  time : string;
  recurring : string
}.

(** The rows are kept in rowid order; [sqlite_sequence] is the largest key
    the table has handed out (the key is declared AUTOINCREMENT). *)
Record Database : Type := mkDatabase {
  reminders : list Row;
  sqlite_sequence : Z
}.

(** A value bound to a [?] of a statement. *)
Inductive SqlValue : Type :=
| SqlNull
| SqlInteger (n : Z)
| SqlText (s : string).

Fixpoint max_rowid (rows : list Row) : Z :=
  match rows with
  | [] => 0
  | r :: rs => Z.max (id r) (max_rowid rs)
  end.

Definition next_rowid (d : Database) : Z :=
  Z.max (sqlite_sequence d) (max_rowid (reminders d)) + 1.

(** INSERT INTO reminders (chat_id, message, day_of_week, time, recurring)
    VALUES (?, ?, ?, ?, ?) *)
Definition insert_reminder (chat msg day tm rec : string) (d : Database)
  : Database :=
  let k := next_rowid d in
  {| reminders := reminders d ++ [mkRow k chat msg day tm rec];
     sqlite_sequence := k |}.

(** SELECT * FROM reminders WHERE chat_id = ? *)
Definition select_by_chat (chat : string) (d : Database) : list Row :=
  filter (fun r => (chat_id r =? chat)%string) (reminders d).

(** WHERE day_of_week = ? AND time = ? *)
Definition is_due (day tm : string) (r : Row) : bool :=
  (day_of_week r =? day)%string && (time r =? tm)%string.

(** SELECT * FROM reminders WHERE day_of_week = ? AND time = ? *)
Definition select_due (day tm : string) (d : Database) : list Row :=
  filter (is_due day tm) (reminders d).

Definition set_message (msg : string) (r : Row) : Row :=
  mkRow (id r) (chat_id r) msg (day_of_week r) (time r) (recurring r).

(** ** Messages of the bot *)

Definition dquote : string := String "034"%char EmptyString.
Definition newline : string := String "010"%char EmptyString.

Definition msg_use_every : string :=
  "❗ Please use the word " ++ dquote ++ "every" ++ dquote
  ++ " to set recurring reminders.".
Definition msg_no_days : string :=
  "❗ No days found. Mention days like Sunday, Wednesday.".
Definition msg_no_time : string :=
  "❗ No valid time found. Please specify a time like 2pm or 8pm.".
Definition msg_reminder_set (foundDays : list string) (timeStr : string)
  : string :=
  "✅ Reminder set for " ++ join foundDays ", " ++ " at " ++ timeStr ++ " IST".
Definition msg_no_reminders : string := "❗ You have no reminders set.".
Definition msg_not_found (reminderId : string) : string :=
  "❗ No reminder found with ID " ++ reminderId ++ ".".
Definition msg_deleted (reminderId : string) : string :=
  "✅ Reminder with ID " ++ reminderId ++ " deleted.".
Definition msg_updated (reminderId : string) : string :=
  "✅ Reminder with ID " ++ reminderId ++ " updated.".
Definition msg_no_valid_ids : string :=
  "❗ Please provide valid reminder IDs to delete.".
Definition msg_deleted_many (reminderIds : list string) : string :=
  "✅ Successfully deleted reminders with IDs: " ++ join reminderIds ", ".
Definition msg_reminder (text : string) : string := "🔔 Reminder: " ++ text.

(** ** The world of the handlers: the database and the messages sent *)

Record World : Type := mkWorld {
  db : Database;
  outbox : list (string * string)
}.

Definition Eff (A : Type) : Type := World -> A * World.

Definition ret {A} (a : A) : Eff A := fun w => (a, w).

Definition bind {A B} (e : Eff A) (k : A -> Eff B) : Eff B :=
  fun w => let (a, w') := e w in k a w'.

Declare Scope eff_scope.
Delimit Scope eff_scope with eff.
Notation "x <- e ;; k" := (bind e (fun x => k))
  (at level 61, e at next level, right associativity) : eff_scope.
Notation "e ;; k" := (bind e (fun _ => k))
  (at level 61, right associativity) : eff_scope.
Local Open Scope eff_scope.

Definition run {A} (e : Eff A) (w : World) : World := snd (e w).

(** [bot.sendMessage(to, text)] *)
Definition sendMessage (to text : string) : Eff unit :=
  fun w => (tt, {| db := db w; outbox := outbox w ++ [(to, text)] |}).

(** [list.forEach(f)] *)
Fixpoint forEach {A} (l : list A) (f : A -> Eff unit) : Eff unit :=
  match l with
  | [] => ret tt
  | a :: l' => f a ;; forEach l' f
  end.

Definition db_run_insert (chat msg day tm rec : string) : Eff unit :=
  fun w => (tt, {| db := insert_reminder chat msg day tm rec (db w);
                   outbox := outbox w |}).

Definition db_all_by_chat (chat : string) : Eff (list Row) :=
  fun w => (select_by_chat chat (db w), w).

Definition db_all_due (day tm : string) : Eff (list Row) :=
  fun w => (select_due day tm (db w), w).

Definition daysOfWeek : list string :=
  ["sunday"; "monday"; "tuesday"; "wednesday"; "thursday"; "friday";
   "saturday"].

(** [daysOfWeek.filter((day) => dayTimePart.toLowerCase().includes(day))] *)
Definition foundDays_of (dayTimePart : string) : list string :=
  filter (fun day => includes (toLowerCase dayTimePart) day) daysOfWeek.

(** [dayTimePart.split(" ").filter(...).join(" ")] *)
Definition timePart_of (dayTimePart : string) : string :=
  join (filter match_time (split dayTimePart " ")) " ".

(** ** Sample environments, used to run the handlers on concrete inputs *)

(** Hosts whose local time is UTC, and Indian Standard Time. *)
Definition host_utc : Date -> Z := fun _ => 0.
Definition host_ist : Date -> Z := fun _ => -330.

(** 2024-01-03 (a Wednesday) 00:00 UTC. *)
Definition sample_midnight : Date := 1704240000000.

(** A time parser that reads "<h>am" and "<h>pm" as that hour of the sample
    day, in the local time of the host. *)
Definition sample_parseDate (getTimezoneOffset : Date -> Z) (s : string)
  : option Date :=
  let (n, rest) := span_digits s in
  let h := digits_value 0 s in
  if negb (Nat.eqb n 0) && (1 <=? h) && (h <=? 12) then
    let at_hour (k : Z) :=
      Some (sample_midnight + k * 3600000
            + getTimezoneOffset sample_midnight * 60000) in
    if (rest =? "am")%string then at_hour (h mod 12)
    else if (rest =? "pm")%string then at_hour (h mod 12 + 12)
    else None
  else None.

(** A conversion of TEXT to a key that reads decimal numerals only. *)
Definition sample_text_to_rowid (s : string) : option Z :=
  if all_chars isDigit s then parseInt s else None.

(** A table with reminders of two chats, and an empty one. *)
Definition sample_rows : list Row :=
  [mkRow 1 "42" "to take out waste" "wednesday" "20:00" "yes";
   mkRow 2 "7" "call mom" "wednesday" "20:00" "yes";
   mkRow 3 "42" "stretch" "wednesday" "20:01" "yes";
   mkRow 4 "42" "to take out waste" "thursday" "20:00" "yes"].

Definition sample_world : World := mkWorld (mkDatabase sample_rows 4) [].

Definition empty_world : World := mkWorld (mkDatabase [] 0) [].

(** Wednesday 2024-01-03, 20:00 in India (14:30 UTC). *)
Definition sample_now : Date := sample_midnight + 14 * 3600000 + 30 * 60000.

(** ** The handlers *)

Section Bot.

(** [chrono.parseDate], [None] for null. *)
Variable chrono_parseDate : string -> option Date.

(** [Date.prototype.getTimezoneOffset] of the host: the minutes to add to
    local time to reach UTC, at the given instant. *)
Variable getTimezoneOffset : Date -> Z.

(** The key a TEXT operand is equal to when SQLite compares it with the
    INTEGER column [id] (the operand gets NUMERIC affinity), if any. *)
Variable text_to_rowid : string -> option Z.

Definition localTime (d : Date) : Z := d - getTimezoneOffset d * 60000.

(** [d.getDay()]: the epoch fell on a Thursday. *)
Definition getDay (d : Date) : Z := (localTime d / 86400000 + 4) mod 7.

(** The minute of the local day, [60 * d.getHours() + d.getMinutes()]. *)
Definition minutes_of_day (d : Date) : Z := (localTime d / 60000) mod 1440.

(** [d.toTimeString().slice(0, 5)]: the local time as HH:MM. *)
Definition toTimeString_slice5 (d : Date) : string :=
  let m := minutes_of_day d in
  pad2 (m / 60) ++ ":" ++ pad2 (m mod 60).

(** [moment(d).tz("Asia/Kolkata", true).toDate()]: the zone is changed and
    the local time is kept, so the instant moves by the difference between
    the offset of the host and the offset of the zone. *)
Definition moment_tz_keepLocalTime (d : Date) : Date :=
  d + (- getTimezoneOffset d - kolkata_offset) * 60000.

(** [id = ?] *)
Definition id_equals (v : SqlValue) (r : Row) : bool :=
  match v with
  | SqlNull => false
  | SqlInteger n => id r =? n
  | SqlText s =>
      match text_to_rowid s with
      | Some n => id r =? n
      | None => false
      end
  end.

(** [WHERE id = ? AND chat_id = ?] *)
Definition where_id_chat (v : SqlValue) (chat : string) (r : Row) : bool :=
  id_equals v r && (chat_id r =? chat)%string.

(** DELETE FROM reminders WHERE id = ? AND chat_id = ?, with the number of
    rows changed *)
Definition delete_reminder (v : SqlValue) (chat : string) (d : Database)
  : Database * Z :=
  ({| reminders := filter (fun r => negb (where_id_chat v chat r)) (reminders d);
      sqlite_sequence := sqlite_sequence d |},
   Z.of_nat (List.length (filter (where_id_chat v chat) (reminders d)))).

(** UPDATE reminders SET message = ? WHERE id = ? AND chat_id = ?, with the
    number of rows changed *)
Definition update_reminder (msg : string) (v : SqlValue) (chat : string)
  (d : Database) : Database * Z :=
  ({| reminders :=
        map (fun r => if where_id_chat v chat r then set_message msg r else r)
            (reminders d);
      sqlite_sequence := sqlite_sequence d |},
   Z.of_nat (List.length (filter (where_id_chat v chat) (reminders d)))).

Definition db_run_delete (v : SqlValue) (chat : string) : Eff Z :=
  fun w => let (d, changes) := delete_reminder v chat (db w) in
           (changes, {| db := d; outbox := outbox w |}).

Definition db_run_update (msg : string) (v : SqlValue) (chat : string)
  : Eff Z :=
  fun w => let (d, changes) := update_reminder msg v chat (db w) in
           (changes, {| db := d; outbox := outbox w |}).

(** A JavaScript number that is an integer or NaN, as a statement
    parameter and inside a template string. *)
Definition number_param (n : option Z) : SqlValue :=
  match n with Some k => SqlInteger k | None => SqlNull end.

Definition number_text (n : option Z) : string :=
  match n with Some k => toString k | None => "NaN" end.

(** /addReminder (.+) : [m1] is the capture [match[1]]. *)
Definition addReminder (chatId : Z) (m1 : string) : Eff unit :=
  let text := toLowerCase m1 in
  if negb (includes text "every") then
    sendMessage (toString chatId) msg_use_every
  else
    match split text "every" with
    | messagePartRaw :: dayTimePartRaw :: _ =>
        let messagePart := trim (replace_remind messagePartRaw) in
        let dayTimePart := trim dayTimePartRaw in
        let foundDays := foundDays_of dayTimePart in
        if Nat.eqb (List.length foundDays) 0 then
          sendMessage (toString chatId) msg_no_days
        else
          let timePart := timePart_of dayTimePart in
          match chrono_parseDate timePart with
          | None => sendMessage (toString chatId) msg_no_time
          | Some parsedTime =>
              let istTime := moment_tz_keepLocalTime parsedTime in
              let timeStr := toTimeString_slice5 istTime in
              forEach foundDays (fun day =>
                db_run_insert (toString chatId) messagePart day timeStr "yes") ;;
              sendMessage (toString chatId) (msg_reminder_set foundDays timeStr)
          end
    | _ => ret tt
    end.

Definition show_row (row : Row) : string :=
  "ID: " ++ toString (id row) ++ " " ++ newline
  ++ "Message: " ++ message row ++ " " ++ newline
  ++ "Day: " ++ day_of_week row ++ " " ++ newline
  ++ "Time: " ++ time row.

(** /listReminders *)
Definition listReminders (chatId : Z) : Eff unit :=
  rows <- db_all_by_chat (toString chatId) ;;
  if Nat.eqb (List.length rows) 0 then
    sendMessage (toString chatId) msg_no_reminders
  else
    sendMessage (toString chatId)
      ("📋 Your Reminders:" ++ newline ++ newline
       ++ join (map show_row rows) (newline ++ newline)).

(** /deleteReminder (\d+) *)
Definition deleteReminder (chatId : Z) (m1 : string) : Eff unit :=
  let reminderId := parseInt m1 in
  changes <- db_run_delete (number_param reminderId) (toString chatId) ;;
  if changes =? 0 then
    sendMessage (toString chatId) (msg_not_found (number_text reminderId))
  else
    sendMessage (toString chatId) (msg_deleted (number_text reminderId)).

(** [match[1].split(",").map((id) => id.trim())
              .filter((id) => !isNaN(Number(id)))] *)
Definition reminderIds_of (m1 : string) : list string :=
  filter (fun id => negb (isNaN_Number id)) (map trim (split m1 ",")).

(** /deleteReminders (.+) *)
Definition deleteReminders (chatId : Z) (m1 : string) : Eff unit :=
  let reminderIds := reminderIds_of m1 in
  if Nat.eqb (List.length reminderIds) 0 then
    sendMessage (toString chatId) msg_no_valid_ids
  else
    forEach reminderIds (fun id =>
      db_run_delete (SqlText id) (toString chatId) ;; ret tt) ;;
    sendMessage (toString chatId) (msg_deleted_many reminderIds).

(** /updateReminder (\d+) (.+) *)
Definition updateReminder (chatId : Z) (m1 m2 : string) : Eff unit :=
  let reminderId := parseInt m1 in
  let newMessage := m2 in
  changes <- db_run_update newMessage (number_param reminderId)
               (toString chatId) ;;
  if changes =? 0 then
    sendMessage (toString chatId) (msg_not_found (number_text reminderId))
  else
    sendMessage (toString chatId) (msg_updated (number_text reminderId)).

(** The body of the [setInterval] callback, run at the instant [now]. *)
Definition scheduler (now : Date) : Eff unit :=
  let today := nth (Z.to_nat (getDay now)) daysOfWeek "" in
  let currentTime := toTimeString_slice5 now in
  rows <- db_all_due today currentTime ;;
  forEach rows (fun row =>
    sendMessage (chat_id row) (msg_reminder (message row))).

End Bot.

(** ** The commands the bot reacts to *)

Inductive Command : Type :=
| AddReminder (chatId : Z) (m1 : string)
| ListReminders (chatId : Z)
| DeleteReminder (chatId : Z) (m1 : string)
| DeleteReminders (chatId : Z) (m1 : string)
| UpdateReminder (chatId : Z) (m1 m2 : string)
| Tick (now : Date).

Definition handle
  (chrono_parseDate : string -> option Date)
  (getTimezoneOffset : Date -> Z)
  (text_to_rowid : string -> option Z)
  (c : Command) : Eff unit :=
  match c with
  | AddReminder chatId m1 =>
      addReminder chrono_parseDate getTimezoneOffset chatId m1
  | ListReminders chatId => listReminders chatId
  | DeleteReminder chatId m1 => deleteReminder text_to_rowid chatId m1
  | DeleteReminders chatId m1 => deleteReminders text_to_rowid chatId m1
  | UpdateReminder chatId m1 m2 => updateReminder text_to_rowid chatId m1 m2
  | Tick now => scheduler getTimezoneOffset now
  end.

Definition is_update (c : Command) : bool :=
  match c with
  | UpdateReminder _ _ _ => true
  | _ => false
  end.

(** ** The handler of additions over the built-ins of the platform

    [toLowerCase], [trim] and the class [\s] follow the character tables of
    Unicode, and the order in which the database executes the INSERTs of
    one [forEach] is its own.  The handler is written here over these as
    parameters; nothing else differs from [addReminder]. *)

Section Platform.

(** [String.prototype.toLowerCase] *)
Variable js_toLowerCase : string -> string.

(** [String.prototype.trim] *)
Variable js_trim : string -> string.

(** What is left of a text once the white space [\s*] at its start is
    removed. *)
Variable js_trimStart : string -> string.

(** The order in which the database executes the statements issued for the
    given days. *)
Variable executed : list string -> list string.

Variable chrono_parseDate : string -> option Date.
Variable getTimezoneOffset : Date -> Z.

(** [s.replace(/^remind\s*/, "")] *)
Definition replace_remind_on (s : string) : string :=
  if prefix "remind" s then js_trimStart (str_drop 6 s) else s.

(** [daysOfWeek.filter((day) => dayTimePart.toLowerCase().includes(day))] *)
Definition foundDays_on (dayTimePart : string) : list string :=
  filter (fun day => includes (js_toLowerCase dayTimePart) day) daysOfWeek.

(** /addReminder (.+) *)
Definition addReminderOn (chatId : Z) (m1 : string) : Eff unit :=
  let text := js_toLowerCase m1 in
  if negb (includes text "every") then
    sendMessage (toString chatId) msg_use_every
  else
    match split text "every" with
    | messagePartRaw :: dayTimePartRaw :: _ =>
        let messagePart := js_trim (replace_remind_on messagePartRaw) in
        let dayTimePart := js_trim dayTimePartRaw in
        let foundDays := foundDays_on dayTimePart in
        if Nat.eqb (List.length foundDays) 0 then
          sendMessage (toString chatId) msg_no_days
        else
          let timePart := timePart_of dayTimePart in
          match chrono_parseDate timePart with
          | None => sendMessage (toString chatId) msg_no_time
          | Some parsedTime =>
              let istTime :=
                moment_tz_keepLocalTime getTimezoneOffset parsedTime in
              let timeStr := toTimeString_slice5 getTimezoneOffset istTime in
              forEach (executed foundDays) (fun day =>
                db_run_insert (toString chatId) messagePart day timeStr "yes") ;;
              sendMessage (toString chatId) (msg_reminder_set foundDays timeStr)
          end
    | _ => ret tt
    end.

(** The commands, with the additions handled by [addReminderOn]. *)
Definition handleOn (text_to_rowid : string -> option Z) (c : Command)
  : Eff unit :=
  match c with
  | AddReminder chatId m1 => addReminderOn chatId m1
  | _ => handle chrono_parseDate getTimezoneOffset text_to_rowid c
  end.

End Platform.

(** ** Notions used in the statements *)

(** [a] occurs in [b] as a substring. *)
Definition occurs_in (a b : string) : Prop :=
  exists pre post, b = pre ++ a ++ post.

(** The lower-case word [w] occurs in [s] up to the case of letters. *)
Definition occurs_ignoring_case (w s : string) : Prop :=
  exists u, occurs_in u s /\ toLowerCase u = w.

(** No upper-case letter occurs in [s]. *)
Definition isLowerCase (s : string) : bool :=
  all_chars (fun c => negb (isUpper c)) s.

(** [l1] is [l2] with some elements left out, the order kept. *)
Inductive Subseq {A : Type} : list A -> list A -> Prop :=
| Subseq_nil : Subseq [] []
| Subseq_skip (x : A) (l1 l2 : list A) : Subseq l1 l2 -> Subseq l1 (x :: l2)
| Subseq_keep (x : A) (l1 l2 : list A) :
    Subseq l1 l2 -> Subseq (x :: l1) (x :: l2).

(** The rows a sequence of INSERTs adds, one per day, keys counting up
    from [k]. *)
Fixpoint new_rows (k : Z) (chat msg tm rec : string) (days : list string)
  : list Row :=
  match days with
  | [] => []
  | day :: days' =>
      mkRow k chat msg day tm rec :: new_rows (k + 1) chat msg tm rec days'
  end.

(** The table after the INSERTs of [foundDays.forEach]. *)
Definition insert_all (chat msg tm rec : string) (days : list string)
  (d : Database) : Database :=
  fold_left (fun d' day => insert_reminder chat msg day tm rec d') days d.

(** The table after the DELETEs of [reminderIds.forEach]. *)
Definition delete_all (text_to_rowid : string -> option Z) (chat : string)
  (ids : list string) (d : Database) : Database :=
  fold_left (fun d' id => fst (delete_reminder text_to_rowid (SqlText id) chat d'))
    ids d.

(** Two digits; the 24-hour time format HH:MM. *)
Definition two_digits (s : string) : bool :=
  match s with
  | String a (String b EmptyString) => isDigit a && isDigit b
  | _ => false
  end.

Definition is_hh_mm (s : string) : bool :=
  match s with
  | String a (String b (String ":" rest)) =>
      isDigit a && isDigit b && two_digits rest
  | _ => false
  end.

(** ** The /start command and the dispatch of a message *)

Definition msg_welcome : string :=
  join
    ["👋 Welcome to Reminder Bot!";
     "      ";
     "Use the following commands to manage your reminders:";
     "";
     "1. /addReminder - Add a new reminder.";
     "   Example: /addReminder remind to take out waste every Sunday and Wednesday 8pm";
     "";
     "2. /listReminders - List all your active reminders.";
     "";
     "3. /deleteReminder [id] - Delete a specific reminder by its ID.";
     "   Example: /deleteReminder 1";
     "";
     "4. /updateReminder [id] [new_message] - Update a specific reminder's message by its ID.";
     "   Example: /updateReminder 1 Take out trash every Sunday and Wednesday 8pm";
     "";
     "5. /deleteReminders [id1,id2,...] - Delete multiple reminders at once.";
     "   Example: /deleteReminders 1,3,5";
     "";
     "Try any of these commands to manage your reminders!"]
    newline.

(** /start *)
Definition start (chatId : Z) : Eff unit :=
  sendMessage (toString chatId) msg_welcome.

(** LineTerminator of ECMAScript, which [.] does not match: LF, CR, and
    U+2028 and U+2029, the bytes E2 80 A8 and E2 80 A9 of the UTF-8 text.
    [line_terminator_at s] tells whether one starts [s]. *)
Definition line_terminator_at (s : string) : bool :=
  match s with
  | EmptyString => false
  | String c r =>
      (code c =? 10)%N || (code c =? 13)%N ||
      ((code c =? 226)%N &&
       match r with
       | String c2 (String c3 _) =>
           (code c2 =? 128)%N && ((code c3 =? 168)%N || (code c3 =? 169)%N)
       | _ => false
       end)
  end.

(** The text matched by a greedy [.*] at the start of [s]. *)
Fixpoint dot_star (s : string) : string :=
  match s with
  | EmptyString => EmptyString
  | String c s' =>
      if line_terminator_at s then EmptyString else String c (dot_star s')
  end.

(** [regexp.exec(s)] for a pattern made of a literal followed by capture
    groups: the leftmost position where the literal matches (up to the
    case of letters when the flag [i] is set, the literal then being given
    in lower case) and [groups] accepts the rest gives the captures. *)
Fixpoint regexp_exec {A} (lit : string) (i_flag : bool)
  (groups : string -> option A) (s : string) : option A :=
  let here :=
    if (if i_flag then prefix_i lit s else prefix lit s)
    then groups (str_drop (String.length lit) s)
    else None in
  match here with
  | Some captures => Some captures
  | None =>
      match s with
      | EmptyString => None
      | String _ s' => regexp_exec lit i_flag groups s'
      end
  end.

(** The group [(.+)] up to the end of the pattern. *)
Definition group_dot_plus (s : string) : option string :=
  match dot_star s with
  | EmptyString => None
  | m => Some m
  end.

(** The group [(\d+)] up to the end of the pattern. *)
Definition group_digits (s : string) : option string :=
  match fst (span_digits s) with
  | O => None
  | S n => Some (str_take (S n) s)
  end.

(** The groups [(\d+) (.+)]. *)
Definition group_digits_dot_plus (s : string) : option (string * string) :=
  match fst (span_digits s) with
  | O => None
  | S n =>
      match str_drop (S n) s with
      | String " " rest =>
          match group_dot_plus rest with
          | Some m2 => Some (str_take (S n) s, m2)
          | None => None
          end
      | _ => None
      end
  end.

(** A handler of [bot.onText] together with what it is called with. *)
Inductive Call : Type :=
| CallStart (chatId : Z)
| CallCommand (c : Command).

Definition when {A} (o : option A) (f : A -> Call) : list Call :=
  match o with
  | Some a => [f a]
  | None => []
  end.

(** The handlers a text message of the chat [chatId] triggers, in the
    order of their registration: every pattern that matches somewhere in
    the text calls its handler. *)
Definition dispatch (chatId : Z) (text : string) : list Call :=
  ((if includes text "/start" then [CallStart chatId] else [])
   ++ when (regexp_exec "/addreminder " true group_dot_plus text)
        (fun m1 => CallCommand (AddReminder chatId m1))
   ++ (if includes text "/listReminders"
       then [CallCommand (ListReminders chatId)] else [])
   ++ when (regexp_exec "/deleteReminder " false group_digits text)
        (fun m1 => CallCommand (DeleteReminder chatId m1))
   ++ when (regexp_exec "/deletereminders " true group_dot_plus text)
        (fun m1 => CallCommand (DeleteReminders chatId m1))
   ++ when (regexp_exec "/updateReminder " false group_digits_dot_plus text)
        (fun m => CallCommand (UpdateReminder chatId (fst m) (snd m))))%list.

Definition call
  (chrono_parseDate : string -> option Date)
  (getTimezoneOffset : Date -> Z)
  (text_to_rowid : string -> option Z)
  (k : Call) : Eff unit :=
  match k with
  | CallStart chatId => start chatId
  | CallCommand c => handle chrono_parseDate getTimezoneOffset text_to_rowid c
  end.

(** The chat a command comes from; a tick comes from none. *)
Definition sender (c : Command) : option Z :=
  match c with
  | AddReminder chatId _ => Some chatId
  | ListReminders chatId => Some chatId
  | DeleteReminder chatId _ => Some chatId
  | DeleteReminders chatId _ => Some chatId
  | UpdateReminder chatId _ _ => Some chatId
  | Tick _ => None
  end.

(** A sequence of commands, handled one after the other. *)
Fixpoint run_all
  (chrono_parseDate : string -> option Date)
  (getTimezoneOffset : Date -> Z)
  (text_to_rowid : string -> option Z)
  (cs : list Command) (w : World) : World :=
  match cs with
  | [] => w
  | c :: cs' =>
      run_all chrono_parseDate getTimezoneOffset text_to_rowid cs'
        (run (handle chrono_parseDate getTimezoneOffset text_to_rowid c) w)
  end.

(** The ids of the rows increase along the table. *)
Fixpoint ids_increasing (rows : list Row) : Prop :=
  match rows with
  | [] => True
  | r :: rows' => (forall r', In r' rows' -> id r < id r') /\ ids_increasing rows'
  end.

(** What the table looks like when only the bot has written to it. *)
Definition row_ok (d : Database) (r : Row) : Prop :=
  0 < id r <= sqlite_sequence d /\
  In (day_of_week r) daysOfWeek /\
  is_hh_mm (time r) = true /\
  recurring r = "yes".

Definition table_ok (d : Database) : Prop :=
  ids_increasing (reminders d) /\ Forall (row_ok d) (reminders d).

(** The reading of a time HH:MM as the minute of the day. *)
Definition minutes_of_hh_mm (s : string) : Z :=
  60 * digits_value 0 (str_take 2 s) + digits_value 0 (str_drop 3 s).

(** A week, in milliseconds. *)
Definition week_ms : Z := 7 * 86400000.

(** The ways a command changes the database: not at all, by the INSERTs
    of an addition, by a deletion of rows, by a change of messages. *)
Inductive db_step : Database -> Database -> Prop :=
| db_step_same (d : Database) : db_step d d
| db_step_insert (d : Database) (chat msg tm : string) (days : list string) :
    incl days daysOfWeek -> is_hh_mm tm = true ->
    db_step d (insert_all chat msg tm "yes" days d)
| db_step_delete (d : Database) (keep : Row -> bool) :
    db_step d {| reminders := filter keep (reminders d);
                 sqlite_sequence := sqlite_sequence d |}
| db_step_update (d : Database) (msg : string) (hit : Row -> bool) :
    db_step d
      {| reminders :=
           map (fun r => if hit r then set_message msg r else r) (reminders d);
         sqlite_sequence := sqlite_sequence d |}.

(** The text /listReminders answers with, for the rows of the chat. *)
Definition listing (rows : list Row) : string :=
  if Nat.eqb (List.length rows) 0 then msg_no_reminders
  else "📋 Your Reminders:" ++ newline ++ newline
       ++ join (map show_row rows) (newline ++ newline).

(** The letters A-Z and a-z. *)
Definition isLetter (c : ascii) : bool :=
  in_range 65 90 c || in_range 97 122 c.

(** Texts without a slash; texts within one line. *)
Definition no_slash (s : string) : bool :=
  all_chars (fun c => negb (c =? "/")%char) s.

Fixpoint one_line (s : string) : bool :=
  match s with
  | EmptyString => true
  | String _ s' => negb (line_terminator_at s) && one_line s'
  end.

(** U+2028 LINE SEPARATOR, as UTF-8 text. *)
Definition line_separator : string :=
  String (ascii_of_N 226) (String (ascii_of_N 128)
    (String (ascii_of_N 168) EmptyString)).

(** Two characters that are the same up to the case of a letter A-Z:
    they are equal, or both are letters with the same place in the
    alphabet. *)
Definition same_letter (a b : ascii) : bool :=
  (a =? b)%char ||
  (isLetter a && isLetter b && (code a mod 32 =? code b mod 32)%N).

(** Two texts that are the same up to the case of letters. *)
Fixpoint equal_ignoring_case (u w : string) : bool :=
  match u, w with
  | EmptyString, EmptyString => true
  | String a u', String b w' => same_letter a b && equal_ignoring_case u' w'
  | _, _ => false
  end.

(** The word [w] occurs in [s], in whatever case its letters are written
    there. *)
Definition occurs_in_any_case (w s : string) : Prop :=
  exists u, occurs_in u s /\ equal_ignoring_case u w = true.

(** Texts of ASCII characters. *)
Definition is_ascii (s : string) : bool :=
  all_chars (fun c => (code c <? 128)%N) s.

(** The first and the last character of a text. *)
Definition first_char (s : string) : option ascii :=
  match s with
  | EmptyString => None
  | String c _ => Some c
  end.

Fixpoint last_char (s : string) : option ascii :=
  match s with
  | EmptyString => None
  | String c EmptyString => Some c
  | String _ s' => last_char s'
  end.

(** A table whose messages the lower-casing [lower] leaves as they are. *)
Definition all_lower_on (lower : string -> string) (d : Database) : Prop :=
  Forall (fun r => lower (message r) = message r) (reminders d).

(** * Properties *)

(** ** Strings *)

Lemma append_nil_r (s : string) : s ++ "" = s.
Proof. induction s as [|c s IH]; simpl; [reflexivity | now rewrite IH]. Qed.

Lemma append_assoc (a b c : string) : (a ++ b) ++ c = a ++ (b ++ c).
Proof. induction a as [|x a IH]; simpl; [reflexivity | now rewrite IH]. Qed.

Lemma length_append (a b : string) :
  String.length (a ++ b) = (String.length a + String.length b)%nat.
Proof. induction a as [|x a IH]; simpl; [reflexivity | now rewrite IH]. Qed.

Lemma take_drop (n : nat) (s : string) : str_take n s ++ str_drop n s = s.
Proof.
  revert s; induction n as [|n IH]; intros [|c s]; simpl; try reflexivity.
  now rewrite IH.
Qed.

Lemma drop_append (a b : string) : str_drop (String.length a) (a ++ b) = b.
Proof. induction a as [|x a IH]; simpl; [now destruct b | exact IH]. Qed.

Lemma take_append (a b : string) : str_take (String.length a) (a ++ b) = a.
Proof.
  induction a as [|x a IH]; simpl; [now destruct b | now rewrite IH].
Qed.

Lemma drop_drop (n m : nat) (s : string) :
  str_drop n (str_drop m s) = str_drop (m + n) s.
Proof.
  revert s; induction m as [|m IH]; intros s; simpl; [reflexivity|].
  destruct s as [|c s]; [now destruct n | apply IH].
Qed.

Lemma prefix_cons (x y : ascii) (p s : string) :
  prefix (String x p) (String y s) = if ascii_dec x y then prefix p s else false.
Proof. reflexivity. Qed.

Lemma prefix_iff (p s : string) :
  prefix p s = true <-> exists t, s = p ++ t.
Proof.
  revert s; induction p as [|x p IH]; intros s.
  - split; [intros _; now exists s | now destruct s].
  - destruct s as [|y s].
    + split; [discriminate | intros [t Ht]; discriminate].
    + rewrite prefix_cons. destruct (ascii_dec x y) as [E|Hxy].
      * subst y. rewrite IH. split; intros [t Ht]; exists t; simpl in *; congruence.
      * split; [discriminate | intros [t Ht]; simpl in Ht; congruence].
Qed.

Lemma occurs_in_refl (a : string) : occurs_in a a.
Proof. exists "", "". simpl. now rewrite append_nil_r. Qed.

Lemma occurs_in_trans (a b c : string) :
  occurs_in a b -> occurs_in b c -> occurs_in a c.
Proof.
  intros (p1 & q1 & ->) (p2 & q2 & ->).
  exists (p2 ++ p1), (q1 ++ q2). now rewrite !append_assoc.
Qed.

Lemma occurs_in_tail (a : string) (c : ascii) (s : string) :
  occurs_in a s -> occurs_in a (String c s).
Proof. intros (p & q & ->). now exists (String c p), q. Qed.

Lemma includes_nil (sub : string) : includes "" sub = prefix sub "".
Proof. simpl. apply orb_false_r. Qed.

Lemma includes_cons (c : ascii) (s sub : string) :
  includes (String c s) sub = prefix sub (String c s) || includes s sub.
Proof. reflexivity. Qed.

Lemma includes_iff (s sub : string) :
  includes s sub = true <-> occurs_in sub s.
Proof.
  induction s as [|c s IH].
  - rewrite includes_nil, prefix_iff. split.
    + intros [t Ht]. now exists "", t.
    + intros (p & q & H). destruct p; [now exists q | discriminate].
  - rewrite includes_cons, orb_true_iff, prefix_iff, IH. split.
    + intros [[t Ht] | H]; [now exists "", t | now apply occurs_in_tail].
    + intros (p & q & H). destruct p as [|x p]; simpl in H.
      * left. now exists q.
      * right. exists p, q. congruence.
Qed.

Lemma includes_occurs_mono (a b sub : string) :
  occurs_in a b -> includes a sub = true -> includes b sub = true.
Proof.
  rewrite !includes_iff. intros Hab Ha. exact (occurs_in_trans _ _ _ Ha Hab).
Qed.

Lemma occurs_in_take (n : nat) (s : string) : occurs_in (str_take n s) s.
Proof. exists "", (str_drop n s). simpl. now rewrite take_drop. Qed.

Lemma occurs_in_drop (n : nat) (s : string) : occurs_in (str_drop n s) s.
Proof.
  exists (str_take n s), "". now rewrite append_nil_r, take_drop.
Qed.

Lemma occurs_in_trimStart (s : string) : occurs_in (trimStart s) s.
Proof.
  induction s as [|c s IH]; simpl; [apply occurs_in_refl|].
  destruct (isWhiteSpace c); [now apply occurs_in_tail | apply occurs_in_refl].
Qed.

Lemma trimEnd_prefix (s : string) : exists post, s = trimEnd s ++ post.
Proof.
  induction s as [|c s [post IH]]; simpl; [now exists ""|].
  destruct (trimEnd s) as [|x t] eqn:E.
  - destruct (isWhiteSpace c).
    + now exists (String c s).
    + exists post. simpl in IH. simpl. congruence.
  - exists post. simpl. simpl in IH. congruence.
Qed.

Lemma occurs_in_trimEnd (s : string) : occurs_in (trimEnd s) s.
Proof. destruct (trimEnd_prefix s) as [post H]. now exists "", post. Qed.

Lemma occurs_in_trim (s : string) : occurs_in (trim s) s.
Proof.
  unfold trim. eapply occurs_in_trans;
    [apply occurs_in_trimEnd | apply occurs_in_trimStart].
Qed.

Lemma occurs_in_replace_remind (s : string) : occurs_in (replace_remind s) s.
Proof.
  unfold replace_remind. destruct (prefix "remind" s).
  - eapply occurs_in_trans; [apply occurs_in_trimStart | apply occurs_in_drop].
  - apply occurs_in_refl.
Qed.


(** ** [split] and the first occurrence of the separator *)

Lemma split_from_skip (sep : string) (k : nat) (s : string) :
  split_from sep k s = split_from sep O (str_drop k s).
Proof.
  revert s; induction k as [|k IH]; intros s; [reflexivity|].
  destruct s as [|c s]; [reflexivity|]. simpl. apply IH.
Qed.

Lemma split_from_nonempty (sep : string) (k : nat) (s : string) :
  split_from sep k s <> [].
Proof.
  revert k; induction s as [|c s IH]; intros k; cbn [split_from];
    [discriminate|].
  destruct k as [|k]; [|apply IH].
  destruct (prefix sep (String c s)); [discriminate|].
  destruct (split_from sep 0 s); discriminate.
Qed.

(** One step of the scan. *)
Lemma split_cons (a : ascii) (sep' : string) (c : ascii) (s : string) :
  let sep := String a sep' in
  split (String c s) sep =
  if prefix sep (String c s)
  then "" :: split (str_drop (String.length sep) (String c s)) sep
  else match split s sep with
       | piece :: pieces => String c piece :: pieces
       | [] => [String c ""]
       end.
Proof.
  intros sep. unfold split, sep. cbn [split_from].
  destruct (prefix (String a sep') (String c s)); [|reflexivity].
  rewrite split_from_skip. cbn [String.length str_drop Nat.sub].
  now rewrite Nat.sub_0_r.
Qed.

Lemma split_nil (a : ascii) (sep' : string) : split "" (String a sep') = [""].
Proof. reflexivity. Qed.

Lemma indexOf_cons (c : ascii) (s sub : string) :
  indexOf (String c s) sub =
  if prefix sub (String c s) then Some O else option_map S (indexOf s sub).
Proof. reflexivity. Qed.

Lemma split_no_occurrence (s : string) (a : ascii) (sep' : string) :
  indexOf s (String a sep') = None -> split s (String a sep') = [s].
Proof.
  induction s as [|c s IH]; intros H; [reflexivity|].
  rewrite split_cons. rewrite indexOf_cons in H.
  destruct (prefix (String a sep') (String c s)); [discriminate|].
  destruct (indexOf s (String a sep')); [discriminate|].
  now rewrite IH.
Qed.

Lemma split_first_occurrence (s : string) (a : ascii) (sep' : string) (i : nat) :
  indexOf s (String a sep') = Some i ->
  split s (String a sep') =
  str_take i s ::
  split (str_drop (i + String.length (String a sep')) s) (String a sep').
Proof.
  revert i; induction s as [|c s IH]; intros i H; [discriminate|].
  rewrite split_cons. rewrite indexOf_cons in H.
  destruct (prefix (String a sep') (String c s)).
  - injection H as <-. reflexivity.
  - destruct (indexOf s (String a sep')) as [j|]; [|discriminate].
    injection H as <-. now rewrite (IH j eq_refl).
Qed.

Lemma includes_indexOf (s sub : string) :
  includes s sub = true <-> indexOf s sub <> None.
Proof.
  induction s as [|c s IH].
  - rewrite includes_nil. unfold indexOf.
    destruct (prefix sub ""); split; congruence.
  - rewrite includes_cons, indexOf_cons.
    destruct (prefix sub (String c s)); simpl; [split; congruence|].
    rewrite IH. destruct (indexOf s sub); simpl; split; congruence.
Qed.

(** [indexOf] finds an occurrence, and the leftmost one. *)
Lemma indexOf_occurrence (s sub : string) (i : nat) :
  indexOf s sub = Some i ->
  s = str_take i s ++ sub ++ str_drop (i + String.length sub) s.
Proof.
  revert i; induction s as [|c s IH]; intros i H.
  - unfold indexOf in H. destruct (prefix sub "") eqn:P; [|discriminate].
    injection H as <-. apply prefix_iff in P as [t Ht].
    destruct sub; [reflexivity | discriminate].
  - rewrite indexOf_cons in H. destruct (prefix sub (String c s)) eqn:P.
    + injection H as <-. apply prefix_iff in P as [t Ht].
      cbn [str_take Nat.add]. rewrite Ht at 2. rewrite drop_append.
      exact Ht.
    + destruct (indexOf s sub) as [j|]; [|discriminate]. injection H as <-.
      cbn [str_take Nat.add str_drop]. simpl. f_equal. now apply IH.
Qed.

Lemma indexOf_leftmost (s sub : string) (i j : nat) :
  indexOf s sub = Some i -> (j < i)%nat -> prefix sub (str_drop j s) = false.
Proof.
  revert i j; induction s as [|c s IH]; intros i j H Hj.
  - unfold indexOf in H. destruct (prefix sub ""); [|discriminate].
    injection H as <-. lia.
  - rewrite indexOf_cons in H. destruct (prefix sub (String c s)) eqn:P.
    + injection H as <-. lia.
    + destruct (indexOf s sub) as [k|]; [|discriminate]. injection H as <-.
      destruct j as [|j]; [exact P|]. simpl. apply (IH k); [reflexivity | lia].
Qed.

(** When the separator occurs, [split] yields at least two pieces: the
    text before the leftmost occurrence, and the text from there up to
    the next occurrence, or to the end when there is none. *)
Lemma split_two_pieces (s : string) (a : ascii) (sep' : string) :
  let sep := String a sep' in
  includes s sep = true ->
  exists i rest,
    indexOf s sep = Some i /\
    split s sep =
    str_take i s ::
    match indexOf (str_drop (i + String.length sep) s) sep with
    | Some j => str_take j (str_drop (i + String.length sep) s)
    | None => str_drop (i + String.length sep) s
    end :: rest.
Proof.
  intros sep H. apply includes_indexOf in H.
  destruct (indexOf s sep) as [i|] eqn:E; [|congruence].
  unfold sep in *. rewrite (split_first_occurrence _ _ _ _ E).
  destruct (indexOf (str_drop (i + String.length (String a sep')) s)
              (String a sep')) as [j|] eqn:E2.
  - rewrite (split_first_occurrence _ _ _ _ E2).
    exists i. eexists. split; [reflexivity|]. rewrite E2. reflexivity.
  - rewrite (split_no_occurrence _ _ _ E2).
    exists i, []. split; [reflexivity|]. rewrite E2. reflexivity.
Qed.

(** ** Lower case *)

Lemma lowerChar_not_upper (c : ascii) : isUpper (lowerChar c) = false.
Proof. destruct c as [[] [] [] [] [] [] [] []]; reflexivity. Qed.

Lemma lowerChar_fixed (c : ascii) : isUpper c = false -> lowerChar c = c.
Proof. unfold lowerChar. now intros ->. Qed.

Lemma toLowerCase_append (a b : string) :
  toLowerCase (a ++ b) = toLowerCase a ++ toLowerCase b.
Proof. induction a as [|x a IH]; simpl; [reflexivity | now rewrite IH]. Qed.

Lemma toLowerCase_length (s : string) :
  String.length (toLowerCase s) = String.length s.
Proof. induction s as [|c s IH]; simpl; [reflexivity | now rewrite IH]. Qed.

Lemma all_chars_cons (p : ascii -> bool) (c : ascii) (s : string) :
  all_chars p (String c s) = p c && all_chars p s.
Proof. reflexivity. Qed.

Lemma all_chars_append (p : ascii -> bool) (a b : string) :
  all_chars p (a ++ b) = all_chars p a && all_chars p b.
Proof.
  induction a as [|x a IH]; [reflexivity|].
  change (String x a ++ b) with (String x (a ++ b)).
  now rewrite !all_chars_cons, IH, andb_assoc.
Qed.

Lemma all_chars_occurs (p : ascii -> bool) (a b : string) :
  occurs_in a b -> all_chars p b = true -> all_chars p a = true.
Proof.
  intros (pre & post & ->). rewrite !all_chars_append, !andb_true_iff.
  tauto.
Qed.

Lemma isLowerCase_toLowerCase (s : string) : isLowerCase (toLowerCase s) = true.
Proof.
  unfold isLowerCase. induction s as [|c s IH]; [reflexivity|].
  cbn [toLowerCase]. now rewrite all_chars_cons, lowerChar_not_upper, IH.
Qed.

Lemma isLowerCase_fixed (s : string) :
  isLowerCase s = true -> toLowerCase s = s.
Proof.
  unfold isLowerCase. induction s as [|c s IH]; [reflexivity|].
  rewrite all_chars_cons, andb_true_iff, negb_true_iff. intros [Hc Hs].
  cbn [toLowerCase]. now rewrite lowerChar_fixed, IH.
Qed.

Lemma toLowerCase_idempotent (s : string) :
  toLowerCase (toLowerCase s) = toLowerCase s.
Proof. apply isLowerCase_fixed, isLowerCase_toLowerCase. Qed.

Lemma occurs_in_toLowerCase (a b : string) :
  occurs_in a b -> occurs_in (toLowerCase a) (toLowerCase b).
Proof.
  intros (pre & post & ->). exists (toLowerCase pre), (toLowerCase post).
  now rewrite !toLowerCase_append.
Qed.

Lemma toLowerCase_take (n : nat) (s : string) :
  toLowerCase (str_take n s) = str_take n (toLowerCase s).
Proof.
  revert s; induction n as [|n IH]; intros [|c s]; simpl; try reflexivity.
  now rewrite IH.
Qed.

Lemma toLowerCase_drop (n : nat) (s : string) :
  toLowerCase (str_drop n s) = str_drop n (toLowerCase s).
Proof.
  revert s; induction n as [|n IH]; intros [|c s]; simpl; try reflexivity.
  apply IH.
Qed.

(** [includes] on the lower-cased text is the search ignoring case. *)
Lemma includes_ignoring_case (s w : string) :
  includes (toLowerCase s) w = true <-> occurs_ignoring_case w s.
Proof.
  rewrite includes_iff. split.
  - intros (pre & post & H).
    exists (str_take (String.length w) (str_drop (String.length pre) s)).
    split.
    + eapply occurs_in_trans; [apply occurs_in_take | apply occurs_in_drop].
    + now rewrite toLowerCase_take, toLowerCase_drop, H, drop_append,
        take_append.
  - intros (u & Hu & <-). now apply occurs_in_toLowerCase.
Qed.

(** ** Lists *)

Lemma filter_none {A} (p : A -> bool) (l : list A) :
  (forall x, In x l -> p x = false) -> filter p l = [].
Proof.
  induction l as [|a l IH]; intros H; [reflexivity|]. simpl.
  rewrite (H a (or_introl eq_refl)). apply IH. intros x Hx. apply H. now right.
Qed.

Lemma filter_all {A} (p : A -> bool) (l : list A) :
  (forall x, In x l -> p x = true) -> filter p l = l.
Proof.
  induction l as [|a l IH]; intros H; [reflexivity|]. simpl.
  rewrite (H a (or_introl eq_refl)). f_equal. apply IH. intros x Hx.
  apply H. now right.
Qed.

Lemma map_unchanged {A} (f : A -> A) (l : list A) :
  (forall x, In x l -> f x = x) -> map f l = l.
Proof.
  induction l as [|a l IH]; intros H; [reflexivity|]. simpl.
  rewrite (H a (or_introl eq_refl)). f_equal. apply IH. intros x Hx.
  apply H. now right.
Qed.

Lemma Subseq_filter {A} (p : A -> bool) (l : list A) : Subseq (filter p l) l.
Proof.
  induction l as [|a l IH]; simpl; [constructor|].
  destruct (p a); now constructor.
Qed.

Lemma Subseq_In {A} (l1 l2 : list A) (x : A) :
  Subseq l1 l2 -> In x l1 -> In x l2.
Proof.
  induction 1 as [|y l1 l2 _ IH|y l1 l2 _ IH]; simpl; [tauto | tauto |].
  intros [->|H]; [now left | right; now apply IH].
Qed.

Lemma Subseq_NoDup {A} (l1 l2 : list A) :
  Subseq l1 l2 -> NoDup l2 -> NoDup l1.
Proof.
  induction 1 as [|y l1 l2 Hs IH|y l1 l2 Hs IH]; intros Hn.
  - constructor.
  - inversion Hn; subst. now apply IH.
  - inversion Hn; subst. constructor; [|now apply IH].
    intros Hy. eauto using Subseq_In.
Qed.

Lemma NoDup_daysOfWeek : NoDup daysOfWeek.
Proof.
  unfold daysOfWeek.
  repeat (constructor; [simpl; intuition discriminate|]). constructor.
Qed.

(** ** The table *)

Lemma max_rowid_nonneg (rows : list Row) : 0 <= max_rowid rows.
Proof. induction rows as [|r rows IH]; simpl; lia. Qed.

Lemma max_rowid_bound (rows : list Row) (r : Row) :
  In r rows -> id r <= max_rowid rows.
Proof.
  induction rows as [|x rows IH]; simpl; [tauto|].
  intros [->|H]; [lia | specialize (IH H); lia].
Qed.

Lemma max_rowid_snoc (rows : list Row) (r : Row) :
  max_rowid (rows ++ [r]) = Z.max (max_rowid rows) (Z.max (id r) 0).
Proof. induction rows as [|x rows IH]; simpl; [lia | rewrite IH; lia]. Qed.

Lemma next_rowid_above (d : Database) (r : Row) :
  In r (reminders d) -> id r < next_rowid d.
Proof. intros H. apply max_rowid_bound in H. unfold next_rowid. lia. Qed.

Lemma next_rowid_insert (chat msg day tm rec : string) (d : Database) :
  next_rowid (insert_reminder chat msg day tm rec d) = next_rowid d + 1.
Proof.
  unfold insert_reminder, next_rowid. cbn [reminders sqlite_sequence].
  rewrite max_rowid_snoc. cbn [id].
  pose proof (max_rowid_nonneg (reminders d)). lia.
Qed.

Lemma insert_all_rows (chat msg tm rec : string) (days : list string)
  (d : Database) :
  reminders (insert_all chat msg tm rec days d) =
  (reminders d ++ new_rows (next_rowid d) chat msg tm rec days)%list.
Proof.
  unfold insert_all. revert d; induction days as [|day days IH]; intros d.
  - simpl. now rewrite app_nil_r.
  - cbn [fold_left new_rows]. rewrite IH, next_rowid_insert.
    unfold insert_reminder at 1. cbn [reminders].
    now rewrite <- app_assoc.
Qed.

Lemma new_rows_length (k : Z) (chat msg tm rec : string) (days : list string) :
  List.length (new_rows k chat msg tm rec days) = List.length days.
Proof.
  revert k; induction days as [|day days IH]; intros k; simpl;
    [reflexivity | now rewrite IH].
Qed.

Lemma new_rows_days (k : Z) (chat msg tm rec : string) (days : list string) :
  map day_of_week (new_rows k chat msg tm rec days) = days.
Proof.
  revert k; induction days as [|day days IH]; intros k; simpl;
    [reflexivity | now rewrite IH].
Qed.

Lemma new_rows_fields (k : Z) (chat msg tm rec : string) (days : list string)
  (r : Row) :
  In r (new_rows k chat msg tm rec days) ->
  chat_id r = chat /\ message r = msg /\ time r = tm /\ recurring r = rec /\
  k <= id r.
Proof.
  revert k; induction days as [|day days IH]; intros k; simpl; [tauto|].
  intros [<-|H]; [simpl; repeat split; lia|].
  destruct (IH _ H) as (? & ? & ? & ? & ?). repeat split; try assumption. lia.
Qed.

Lemma new_rows_NoDup (k : Z) (chat msg tm rec : string) (days : list string) :
  NoDup (map id (new_rows k chat msg tm rec days)).
Proof.
  revert k; induction days as [|day days IH]; intros k; simpl; constructor;
    [|apply IH].
  rewrite in_map_iff. intros (r & Hid & Hr).
  apply new_rows_fields in Hr. lia.
Qed.

(** ** Effects *)

Lemma forEach_insert (chat msg tm rec : string) (days : list string)
  (w : World) :
  forEach days (fun day => db_run_insert chat msg day tm rec) w =
  (tt, {| db := insert_all chat msg tm rec days (db w); outbox := outbox w |}).
Proof.
  unfold insert_all. revert w; induction days as [|day days IH]; intros w.
  - now destruct w.
  - cbn [forEach fold_left]. unfold bind. cbn [db_run_insert].
    now rewrite IH.
Qed.

Lemma forEach_sendMessage {A} (to text : A -> string) (l : list A) (w : World) :
  forEach l (fun a => sendMessage (to a) (text a)) w =
  (tt, {| db := db w;
          outbox := (outbox w ++ map (fun a => (to a, text a)) l)%list |}).
Proof.
  revert w; induction l as [|a l IH]; intros w.
  - simpl. rewrite app_nil_r. now destruct w.
  - cbn [forEach map]. unfold bind. cbn [sendMessage]. rewrite IH.
    cbn [db outbox]. now rewrite <- app_assoc.
Qed.

(** ** The handlers, case by case *)

Section Handlers.

Variable chrono : string -> option Date.
Variable tzo : Date -> Z.

Lemma getDay_range (now : Date) : 0 <= getDay tzo now < 7.
Proof. unfold getDay. apply Z.mod_pos_bound. lia. Qed.

(** [daysOfWeek[now.getDay()]] is never undefined. *)
Lemma today_is_a_day (now : Date) :
  In (nth (Z.to_nat (getDay tzo now)) daysOfWeek "") daysOfWeek.
Proof.
  apply nth_In. pose proof (getDay_range now). cbn [daysOfWeek List.length].
  lia.
Qed.

Lemma split_two_includes (text a b : string) (rest : list string) :
  split text "every" = a :: b :: rest -> includes text "every" = true.
Proof.
  intros H. apply includes_indexOf. intros E.
  rewrite (split_no_occurrence _ _ _ E) in H. discriminate.
Qed.

Lemma addReminder_no_every (chatId : Z) (m1 : string) (w : World) :
  includes (toLowerCase m1) "every" = false ->
  addReminder chrono tzo chatId m1 w =
  (tt, {| db := db w;
          outbox := (outbox w ++ [(toString chatId, msg_use_every)])%list |}).
Proof. intros H. unfold addReminder. cbv zeta. now rewrite H. Qed.

Lemma addReminder_no_days (chatId : Z) (m1 : string) (w : World)
  (mraw draw : string) (rest : list string) :
  split (toLowerCase m1) "every" = mraw :: draw :: rest ->
  foundDays_of (trim draw) = [] ->
  addReminder chrono tzo chatId m1 w =
  (tt, {| db := db w;
          outbox := (outbox w ++ [(toString chatId, msg_no_days)])%list |}).
Proof.
  intros Hs Hd. unfold addReminder. cbv zeta.
  rewrite (split_two_includes _ _ _ _ Hs), Hs, Hd. reflexivity.
Qed.

Lemma addReminder_no_time (chatId : Z) (m1 : string) (w : World)
  (mraw draw : string) (rest : list string) :
  split (toLowerCase m1) "every" = mraw :: draw :: rest ->
  foundDays_of (trim draw) <> [] ->
  chrono (timePart_of (trim draw)) = None ->
  addReminder chrono tzo chatId m1 w =
  (tt, {| db := db w;
          outbox := (outbox w ++ [(toString chatId, msg_no_time)])%list |}).
Proof.
  intros Hs Hd Ht. unfold addReminder. cbv zeta.
  rewrite (split_two_includes _ _ _ _ Hs), Hs, Ht.
  destruct (foundDays_of (trim draw)); [congruence | reflexivity].
Qed.

Lemma addReminder_ok (chatId : Z) (m1 : string) (w : World)
  (mraw draw : string) (rest : list string) (parsedTime : Date) :
  split (toLowerCase m1) "every" = mraw :: draw :: rest ->
  foundDays_of (trim draw) <> [] ->
  chrono (timePart_of (trim draw)) = Some parsedTime ->
  let timeStr :=
    toTimeString_slice5 tzo (moment_tz_keepLocalTime tzo parsedTime) in
  addReminder chrono tzo chatId m1 w =
  (tt, {| db := insert_all (toString chatId) (trim (replace_remind mraw))
                  timeStr "yes" (foundDays_of (trim draw)) (db w);
          outbox := (outbox w ++
                     [(toString chatId,
                       msg_reminder_set (foundDays_of (trim draw)) timeStr)])%list
       |}).
Proof.
  intros Hs Hd Ht timeStr. unfold addReminder. cbv zeta.
  rewrite (split_two_includes _ _ _ _ Hs), Hs, Ht.
  destruct (foundDays_of (trim draw)) as [|day days] eqn:E; [congruence|].
  cbn [List.length Nat.eqb negb]. unfold bind.
  rewrite forEach_insert. reflexivity.
Qed.

(** The four outcomes cover every argument. *)
Lemma addReminder_db (chatId : Z) (m1 : string) (w : World) :
  db (run (addReminder chrono tzo chatId m1) w) = db w \/
  exists mraw draw rest parsedTime,
    split (toLowerCase m1) "every" = mraw :: draw :: rest /\
    foundDays_of (trim draw) <> [] /\
    chrono (timePart_of (trim draw)) = Some parsedTime /\
    db (run (addReminder chrono tzo chatId m1) w) =
    insert_all (toString chatId) (trim (replace_remind mraw))
      (toTimeString_slice5 tzo (moment_tz_keepLocalTime tzo parsedTime))
      "yes" (foundDays_of (trim draw)) (db w).
Proof.
  unfold run.
  destruct (includes (toLowerCase m1) "every") eqn:Hi.
  - destruct (split_two_pieces (toLowerCase m1) "e" "very" Hi)
      as (i & rest & _ & Hs).
    match type of Hs with _ = ?a :: ?b :: _ => set (mraw := a) in *;
      set (draw := b) in * end.
    destruct (foundDays_of (trim draw)) as [|day days] eqn:Hd.
    + left. now rewrite (addReminder_no_days _ _ _ _ _ _ Hs Hd).
    + assert (Hne : foundDays_of (trim draw) <> []) by (rewrite Hd; discriminate).
      destruct (chrono (timePart_of (trim draw))) as [parsedTime|] eqn:Ht.
      * right. exists mraw, draw, rest, parsedTime.
        rewrite (addReminder_ok _ _ _ _ _ _ _ Hs Hne Ht). cbn [snd db].
        repeat split; assumption.
      * left. now rewrite (addReminder_no_time _ _ _ _ _ _ Hs Hne Ht).
  - left. now rewrite addReminder_no_every.
Qed.

End Handlers.

(** ** The handler of additions over the platform, case by case *)

Section PlatformHandlers.

Variable lower jtrim jtrimStart : string -> string.
Variable executed : list string -> list string.
Variable chrono : string -> option Date.
Variable tzo : Date -> Z.

Lemma addReminderOn_no_every (chatId : Z) (m1 : string) (w : World) :
  includes (lower m1) "every" = false ->
  addReminderOn lower jtrim jtrimStart executed chrono tzo chatId m1 w =
  (tt, {| db := db w;
          outbox := (outbox w ++ [(toString chatId, msg_use_every)])%list |}).
Proof. intros H. unfold addReminderOn. cbv zeta. now rewrite H. Qed.

Lemma addReminderOn_no_days (chatId : Z) (m1 : string) (w : World)
  (mraw draw : string) (rest : list string) :
  split (lower m1) "every" = mraw :: draw :: rest ->
  foundDays_on lower (jtrim draw) = [] ->
  addReminderOn lower jtrim jtrimStart executed chrono tzo chatId m1 w =
  (tt, {| db := db w;
          outbox := (outbox w ++ [(toString chatId, msg_no_days)])%list |}).
Proof.
  intros Hs Hd. unfold addReminderOn. cbv zeta.
  rewrite (split_two_includes _ _ _ _ Hs), Hs, Hd. reflexivity.
Qed.

Lemma addReminderOn_no_time (chatId : Z) (m1 : string) (w : World)
  (mraw draw : string) (rest : list string) :
  split (lower m1) "every" = mraw :: draw :: rest ->
  foundDays_on lower (jtrim draw) <> [] ->
  chrono (timePart_of (jtrim draw)) = None ->
  addReminderOn lower jtrim jtrimStart executed chrono tzo chatId m1 w =
  (tt, {| db := db w;
          outbox := (outbox w ++ [(toString chatId, msg_no_time)])%list |}).
Proof.
  intros Hs Hd Ht. unfold addReminderOn. cbv zeta.
  rewrite (split_two_includes _ _ _ _ Hs), Hs, Ht.
  destruct (foundDays_on lower (jtrim draw)); [congruence | reflexivity].
Qed.

(** An accepted addition: the INSERTs are executed in the order
    [executed] puts them in, and the reply names the days in the order of
    [daysOfWeek]. *)
Lemma addReminderOn_ok (chatId : Z) (m1 : string) (w : World)
  (mraw draw : string) (rest : list string) (parsedTime : Date) :
  split (lower m1) "every" = mraw :: draw :: rest ->
  foundDays_on lower (jtrim draw) <> [] ->
  chrono (timePart_of (jtrim draw)) = Some parsedTime ->
  let timeStr :=
    toTimeString_slice5 tzo (moment_tz_keepLocalTime tzo parsedTime) in
  addReminderOn lower jtrim jtrimStart executed chrono tzo chatId m1 w =
  (tt, {| db := insert_all (toString chatId)
                  (jtrim (replace_remind_on jtrimStart mraw)) timeStr "yes"
                  (executed (foundDays_on lower (jtrim draw))) (db w);
          outbox := (outbox w ++
                     [(toString chatId,
                       msg_reminder_set (foundDays_on lower (jtrim draw))
                         timeStr)])%list
       |}).
Proof.
  intros Hs Hd Ht timeStr. unfold addReminderOn. cbv zeta.
  rewrite (split_two_includes _ _ _ _ Hs), Hs, Ht.
  destruct (foundDays_on lower (jtrim draw)) as [|day days] eqn:E;
    [congruence|].
  cbn [List.length Nat.eqb negb]. unfold bind.
  rewrite forEach_insert. reflexivity.
Qed.

(** The four outcomes cover every argument. *)
Lemma addReminderOn_db (chatId : Z) (m1 : string) (w : World) :
  db (run (addReminderOn lower jtrim jtrimStart executed chrono tzo chatId m1)
        w) = db w \/
  exists mraw draw rest parsedTime,
    split (lower m1) "every" = mraw :: draw :: rest /\
    foundDays_on lower (jtrim draw) <> [] /\
    chrono (timePart_of (jtrim draw)) = Some parsedTime /\
    db (run (addReminderOn lower jtrim jtrimStart executed chrono tzo chatId m1)
          w) =
    insert_all (toString chatId) (jtrim (replace_remind_on jtrimStart mraw))
      (toTimeString_slice5 tzo (moment_tz_keepLocalTime tzo parsedTime))
      "yes" (executed (foundDays_on lower (jtrim draw))) (db w).
Proof.
  unfold run.
  destruct (includes (lower m1) "every") eqn:Hi.
  - destruct (split_two_pieces (lower m1) "e" "very" Hi)
      as (i & rest & _ & Hs).
    match type of Hs with _ = ?a :: ?b :: _ => set (mraw := a) in *;
      set (draw := b) in * end.
    destruct (foundDays_on lower (jtrim draw)) as [|day days] eqn:Hd.
    + left. now rewrite (addReminderOn_no_days _ _ _ _ _ _ Hs Hd).
    + assert (Hne : foundDays_on lower (jtrim draw) <> [])
        by (rewrite Hd; discriminate).
      destruct (chrono (timePart_of (jtrim draw))) as [parsedTime|] eqn:Ht.
      * right. exists mraw, draw, rest, parsedTime.
        rewrite (addReminderOn_ok _ _ _ _ _ _ _ Hs Hne Ht). cbn [snd db].
        repeat split; assumption.
      * left. now rewrite (addReminderOn_no_time _ _ _ _ _ _ Hs Hne Ht).
  - left. now rewrite addReminderOn_no_every.
Qed.

End PlatformHandlers.

(** [addReminder] is the handler on the ASCII operations, the INSERTs
    executed in the order they are issued. *)
Lemma addReminder_addReminderOn
  (chrono : string -> option Date) (tzo : Date -> Z) (chatId : Z)
  (m1 : string) :
  addReminder chrono tzo chatId m1 =
  addReminderOn toLowerCase trim trimStart (fun days => days) chrono tzo
    chatId m1.
Proof. reflexivity. Qed.


Lemma foundDays_on_NoDup (lower : string -> string) (dayTimePart : string) :
  NoDup (foundDays_on lower dayTimePart).
Proof.
  eapply Subseq_NoDup; [apply Subseq_filter | apply NoDup_daysOfWeek].
Qed.


(** ** The scheduler *)

Lemma select_due_iff (day tm : string) (d : Database) (r : Row) :
  In r (select_due day tm d) <->
  In r (reminders d) /\ day_of_week r = day /\ time r = tm.
Proof.
  unfold select_due, is_due.
  now rewrite filter_In, andb_true_iff, !String.eqb_eq.
Qed.

(** C1. A tick whose local day of the week is [d] and whose local time,
    cut to HH:MM, is [t] sends one message per stored reminder with
    [day_of_week = d] and [time = t], whoever owns it, in the order of the
    table, and nothing else; the table is left as it is.  At Wednesday
    20:00 a reminder at 20:01 or on Thursday is not among them. *)
Theorem scheduler_delivers_exactly_due
  (tzo : Date -> Z) (now : Date) (d t : string) (w : World) :
  nth (Z.to_nat (getDay tzo now)) daysOfWeek "" = d ->
  toTimeString_slice5 tzo now = t ->
  let w' := run (scheduler tzo now) w in
  let delivered := select_due d t (db w) in
  db w' = db w /\
  outbox w' =
    (outbox w ++
     map (fun r => (chat_id r, msg_reminder (message r))) delivered)%list /\
  Subseq delivered (reminders (db w)) /\
  (forall r, In r delivered <->
             In r (reminders (db w)) /\ day_of_week r = d /\ time r = t) /\
  In d daysOfWeek /\
  (d = "wednesday" -> t = "20:00" ->
   forall r, time r = "20:01" \/ day_of_week r = "thursday" ->
             ~ In r delivered).
Proof.
  intros Hd Ht w' delivered. subst w' delivered.
  unfold run, scheduler. cbv zeta. rewrite Hd, Ht. unfold bind.
  cbn [db_all_due]. rewrite forEach_sendMessage. cbn [snd db outbox].
  split; [reflexivity|]. split; [reflexivity|].
  split; [apply Subseq_filter|].
  split; [intros r; apply select_due_iff|]. split.
  - rewrite <- Hd. apply today_is_a_day.
  - intros -> -> r Hr Hin. apply select_due_iff in Hin as (_ & Hday & Htime).
    destruct Hr as [Hr|Hr]; rewrite Hr in *; discriminate.
Qed.

Lemma scheduler_delivers_exactly_due_witness :
  outbox (run (scheduler host_ist sample_now) sample_world) =
  [("42", msg_reminder "to take out waste"); ("7", msg_reminder "call mom")].
Proof.
  pose proof (scheduler_delivers_exactly_due host_ist sample_now
                "wednesday" "20:00" sample_world eq_refl eq_refl) as H.
  cbv zeta in H. destruct H as (_ & H & _). rewrite H. reflexivity.
Defined.

(** ** The stored time and the time zone of the host *)

(** On a host with a fixed offset, the stored time is the parsed local
    time moved by the difference between the host's offset and India's. *)
Lemma minutes_after_tz (o : Z) (d : Date) :
  minutes_of_day (fun _ => o) (moment_tz_keepLocalTime (fun _ => o) d) =
  (minutes_of_day (fun _ => o) d + (- o - kolkata_offset)) mod 1440.
Proof.
  unfold minutes_of_day, moment_tz_keepLocalTime, localTime.
  replace (d + (- o - kolkata_offset) * 60000 - o * 60000)
    with (d - o * 60000 + (- o - kolkata_offset) * 60000) by ring.
  rewrite Z.div_add by lia. now rewrite Zplus_mod_idemp_l.
Qed.

Lemma stored_time_host_ist (d : Date) :
  toTimeString_slice5 host_ist (moment_tz_keepLocalTime host_ist d) =
  toTimeString_slice5 host_ist d.
Proof.
  unfold toTimeString_slice5, host_ist. rewrite minutes_after_tz.
  unfold kolkata_offset. rewrite Z.add_0_r.
  unfold minutes_of_day. now rewrite Z.mod_mod by lia.
Qed.

Lemma stored_time_host_utc_8pm (d : Date) :
  minutes_of_day host_utc d = 1200 ->
  toTimeString_slice5 host_utc (moment_tz_keepLocalTime host_utc d) = "14:30".
Proof.
  intros H. unfold toTimeString_slice5, host_utc in *.
  rewrite minutes_after_tz, H. reflexivity.
Qed.

(** C2, on a host whose local time is UTC.  The time parser reads "8pm" as
    20:00 local time; the handler stores the message "to take out waste"
    for sunday and for wednesday, but with the time "14:30", and reports
    "14:30 IST": the instant 20:00 in India is written in the local time
    of the host. *)
Theorem add_example_on_utc_host
  (chrono : string -> option Date) (parsedTime : Date) (chatId : Z)
  (w : World) :
  chrono "8pm" = Some parsedTime ->
  minutes_of_day host_utc parsedTime = 1200 ->
  addReminder chrono host_utc chatId
    "remind to take out waste every sunday and wednesday 8pm" w =
  (tt, {| db := insert_all (toString chatId) "to take out waste" "14:30" "yes"
                  ["sunday"; "wednesday"] (db w);
          outbox := (outbox w ++
                     [(toString chatId,
                       "✅ Reminder set for sunday, wednesday at 14:30 IST")])%list
       |}).
Proof.
  intros Hp Hm.
  rewrite (addReminder_ok chrono host_utc chatId _ w
             "remind to take out waste " " sunday and wednesday 8pm" []
             parsedTime);
    [| reflexivity | discriminate | exact Hp].
  rewrite (stored_time_host_utc_8pm _ Hm). reflexivity.
Qed.

Lemma add_example_on_utc_host_witness :
  reminders (db (run (addReminder (sample_parseDate host_utc) host_utc 42
                        "remind to take out waste every sunday and wednesday 8pm")
                   empty_world)) =
  [mkRow 1 "42" "to take out waste" "sunday" "14:30" "yes";
   mkRow 2 "42" "to take out waste" "wednesday" "14:30" "yes"].
Proof.
  unfold run.
  rewrite (add_example_on_utc_host (sample_parseDate host_utc)
             (sample_midnight + 20 * 3600000) 42 empty_world
             eq_refl eq_refl).
  reflexivity.
Defined.

(** On a host whose local time is Indian Standard Time the same command
    stores the time "20:00". *)
Lemma add_example_on_ist_host
  (chrono : string -> option Date) (parsedTime : Date) (chatId : Z)
  (w : World) :
  chrono "8pm" = Some parsedTime ->
  minutes_of_day host_ist parsedTime = 1200 ->
  addReminder chrono host_ist chatId
    "remind to take out waste every sunday and wednesday 8pm" w =
  (tt, {| db := insert_all (toString chatId) "to take out waste" "20:00" "yes"
                  ["sunday"; "wednesday"] (db w);
          outbox := (outbox w ++
                     [(toString chatId,
                       "✅ Reminder set for sunday, wednesday at 20:00 IST")])%list
       |}).
Proof.
  intros Hp Hm.
  rewrite (addReminder_ok chrono host_ist chatId _ w
             "remind to take out waste " " sunday and wednesday 8pm" []
             parsedTime);
    [| reflexivity | discriminate | exact Hp].
  rewrite stored_time_host_ist. unfold toTimeString_slice5. rewrite Hm.
  reflexivity.
Qed.

(** ** A second "every" in the argument *)

(** C3, at an argument with two occurrences of "every".  The text before
    the first occurrence is the message part, but the day and time part
    stops at the second occurrence: what follows it ("friday 8pm") is the
    third piece of the split, which the handler never reads.  The command
    is then refused for want of a time. *)
Theorem second_every_cuts_day_time_part
  (chrono : string -> option Date) (tzo : Date -> Z) (chatId : Z) (w : World) :
  chrono "" = None ->
  let text := toLowerCase "remind to call mom every monday and every friday 8pm" in
  indexOf text "every" = Some 19%nat /\
  str_take 19 text = "remind to call mom " /\
  str_drop (19 + 5) text = " monday and every friday 8pm" /\
  split text "every" = ["remind to call mom "; " monday and "; " friday 8pm"] /\
  foundDays_of (trim " monday and ") = ["monday"] /\
  timePart_of (trim " monday and ") = "" /\
  addReminder chrono tzo chatId
    "remind to call mom every monday and every friday 8pm" w =
  (tt, {| db := db w;
          outbox := (outbox w ++ [(toString chatId, msg_no_time)])%list |}).
Proof.
  intros Hc text. repeat (split; [reflexivity|]).
  apply (addReminder_no_time chrono tzo chatId _ w
           "remind to call mom " " monday and " [" friday 8pm"]);
    [reflexivity | discriminate | exact Hc].
Qed.

Lemma second_every_cuts_day_time_part_witness :
  run (addReminder (sample_parseDate host_ist) host_ist 42
         "remind to call mom every monday and every friday 8pm") empty_world =
  {| db := db empty_world; outbox := [("42", msg_no_time)] |}.
Proof.
  pose proof (second_every_cuts_day_time_part (sample_parseDate host_ist)
                host_ist 42 empty_world eq_refl) as H.
  cbv zeta in H. destruct H as (_ & _ & _ & _ & _ & _ & H).
  unfold run. rewrite H. reflexivity.
Defined.

(** ** Deleting several reminders *)

Lemma forEach_delete (t2r : string -> option Z) (chat : string)
  (ids : list string) (w : World) :
  forEach ids (fun id => db_run_delete t2r (SqlText id) chat ;; ret tt) w =
  (tt, {| db := delete_all t2r chat ids (db w); outbox := outbox w |}).
Proof.
  unfold delete_all. revert w; induction ids as [|i ids IH]; intros w.
  - now destruct w.
  - cbn [forEach fold_left]. unfold bind at 1 2. unfold db_run_delete at 1.
    destruct (delete_reminder t2r (SqlText i) chat (db w)) as [d changes] eqn:E.
    unfold ret at 1. rewrite IH. reflexivity.
Qed.

(** What the handler does with the ids it keeps. *)
Lemma deleteReminders_rejected (t2r : string -> option Z) (chatId : Z)
  (m1 : string) (w : World) :
  reminderIds_of m1 = [] ->
  deleteReminders t2r chatId m1 w =
  (tt, {| db := db w;
          outbox := (outbox w ++ [(toString chatId, msg_no_valid_ids)])%list |}).
Proof. intros H. unfold deleteReminders. cbv zeta. now rewrite H. Qed.

Lemma deleteReminders_attempted (t2r : string -> option Z) (chatId : Z)
  (m1 : string) (w : World) :
  reminderIds_of m1 <> [] ->
  deleteReminders t2r chatId m1 w =
  (tt, {| db := delete_all t2r (toString chatId) (reminderIds_of m1) (db w);
          outbox := (outbox w ++
                     [(toString chatId,
                       msg_deleted_many (reminderIds_of m1))])%list |}).
Proof.
  intros H. unfold deleteReminders. cbv zeta.
  destruct (reminderIds_of m1) as [|i ids] eqn:E; [congruence|].
  cbn [List.length Nat.eqb]. unfold bind at 1. rewrite forEach_delete.
  reflexivity.
Qed.

(** C4, at arguments with an empty token.  For "1,abc,3" the ids kept are
    "1" and "3".  An empty token is kept as well: it is not an integer
    ([parseInt] gives NaN) but [Number] reads it as 0; so are numerals that
    are not integers.  For the argument "," no token is an integer, yet
    the command is not refused: two DELETEs are issued with the id "" and
    the reply announces a deletion. *)
Theorem deleteReminders_keeps_empty_tokens
  (t2r : string -> option Z) (chatId : Z) (w : World) :
  reminderIds_of "1,abc,3" = ["1"; "3"] /\
  reminderIds_of "1,,3" = ["1"; ""; "3"] /\
  reminderIds_of "2, 1.5 ,0x10" = ["2"; "1.5"; "0x10"] /\
  parseInt "" = None /\
  reminderIds_of "," = [""; ""] /\
  deleteReminders t2r chatId "," w =
  (tt, {| db := delete_all t2r (toString chatId) [""; ""] (db w);
          outbox := (outbox w ++
                     [(toString chatId,
                       "✅ Successfully deleted reminders with IDs: , ")])%list
       |}).
Proof.
  repeat (split; [reflexivity|]).
  rewrite deleteReminders_attempted; [reflexivity | discriminate].
Qed.

(** ** Adding reminders *)

Lemma pad2_two_digits (n : Z) : 0 <= n < 100 -> two_digits (pad2 n) = true.
Proof.
  intros H.
  assert (A : forallb (fun k => two_digits (pad2 (Z.of_nat k))) (seq 0 100)
              = true) by (vm_compute; reflexivity).
  rewrite forallb_forall in A.
  specialize (A (Z.to_nat n)). rewrite Z2Nat.id in A by lia.
  apply A, in_seq. lia.
Qed.

Lemma toTimeString_slice5_hh_mm (tzo : Date -> Z) (d : Date) :
  is_hh_mm (toTimeString_slice5 tzo d) = true.
Proof.
  unfold toTimeString_slice5. cbv zeta.
  assert (Hm : 0 <= minutes_of_day tzo d < 1440)
    by (unfold minutes_of_day; apply Z.mod_pos_bound; lia).
  assert (Hh : 0 <= minutes_of_day tzo d / 60 < 100).
  { split; [apply Z.div_pos; lia | apply Z.div_lt_upper_bound; lia]. }
  assert (Hmi : 0 <= minutes_of_day tzo d mod 60 < 100).
  { pose proof (Z.mod_pos_bound (minutes_of_day tzo d) 60). lia. }
  apply pad2_two_digits in Hh, Hmi.
  destruct (pad2 (minutes_of_day tzo d / 60)) as [|a [|b [|? ?]]];
    try discriminate.
  cbn [append is_hh_mm]. unfold two_digits in Hh. now rewrite Hh, Hmi.
Qed.

Lemma foundDays_of_NoDup (dayTimePart : string) :
  NoDup (foundDays_of dayTimePart).
Proof.
  eapply Subseq_NoDup; [apply Subseq_filter | apply NoDup_daysOfWeek].
Qed.

Lemma minutes_of_hh_mm_format (m : Z) :
  0 <= m < 1440 ->
  minutes_of_hh_mm (pad2 (m / 60) ++ ":" ++ pad2 (m mod 60)) = m.
Proof.
  intros H.
  assert (A : forallb
                (fun k => let m := Z.of_nat k in
                   minutes_of_hh_mm (pad2 (m / 60) ++ ":" ++ pad2 (m mod 60))
                   =? m) (seq 0 1440) = true) by (vm_compute; reflexivity).
  rewrite forallb_forall in A. specialize (A (Z.to_nat m)).
  cbv zeta in A. rewrite Z2Nat.id in A by lia. apply Z.eqb_eq, A, in_seq. lia.
Qed.

Lemma minutes_of_day_range (tzo : Date -> Z) (d : Date) :
  0 <= minutes_of_day tzo d < 1440.
Proof. unfold minutes_of_day. apply Z.mod_pos_bound. lia. Qed.

(** The text HH:MM of an instant tells the minute of its local day. *)
Lemma toTimeString_slice5_minutes (tzo : Date -> Z) (d : Date) :
  minutes_of_hh_mm (toTimeString_slice5 tzo d) = minutes_of_day tzo d.
Proof.
  unfold toTimeString_slice5. cbv zeta.
  apply minutes_of_hh_mm_format, minutes_of_day_range.
Qed.

Lemma toTimeString_slice5_eq (tzo tzo' : Date -> Z) (d d' : Date) :
  toTimeString_slice5 tzo d = toTimeString_slice5 tzo' d' <->
  minutes_of_day tzo d = minutes_of_day tzo' d'.
Proof.
  split; intros H.
  - now rewrite <- !toTimeString_slice5_minutes, H.
  - unfold toTimeString_slice5. now rewrite H.
Qed.

Lemma minutes_of_day_fixed (o : Z) (d : Date) :
  minutes_of_day (fun _ => o) d = (d / 60000 - o) mod 1440.
Proof.
  unfold minutes_of_day, localTime.
  replace (d - o * 60000) with (d + (- o) * 60000) by ring.
  rewrite Z.div_add by lia. f_equal; ring.
Qed.






(** ** Refused additions *)

(** The day and time part is a piece of the lower-cased argument. *)
Lemma split_second_occurs (text mraw draw : string) (rest : list string) :
  split text "every" = mraw :: draw :: rest ->
  occurs_in mraw text /\ occurs_in draw text.
Proof.
  intros Hs.
  destruct (split_two_pieces text "e" "very" (split_two_includes _ _ _ _ Hs))
    as (i & rest' & _ & Hs').
  rewrite Hs in Hs'. injection Hs' as -> -> _. split.
  - apply occurs_in_take.
  - destruct (indexOf _ _).
    + eapply occurs_in_trans; [apply occurs_in_take | apply occurs_in_drop].
    + apply occurs_in_drop.
Qed.

Lemma no_day_in_argument (m1 mraw draw : string) (rest : list string) :
  split (toLowerCase m1) "every" = mraw :: draw :: rest ->
  (forall d, In d daysOfWeek -> includes (toLowerCase m1) d = false) ->
  foundDays_of (trim draw) = [].
Proof.
  intros Hs Hno. apply filter_none. intros d Hd.
  destruct (includes (toLowerCase (trim draw)) d) eqn:E; [|reflexivity].
  rewrite <- (Hno d Hd), <- (toLowerCase_idempotent m1). symmetry.
  apply (includes_occurs_mono (toLowerCase (trim draw))); [|exact E].
  apply occurs_in_toLowerCase.
  eapply occurs_in_trans; [apply occurs_in_trim|].
  apply (split_second_occurs _ _ _ _ Hs).
Qed.

(** C6. A refused /addReminder leaves the table as it was and sends the
    one reply of its case: when the lower-cased argument lacks "every";
    when it has "every" but no day name (in the argument at all, or in
    its day and time part); when the time tokens of the day and time part
    are not accepted by the time parser. *)
Theorem add_rejected_store_unchanged
  (chrono : string -> option Date) (tzo : Date -> Z) (chatId : Z)
  (m1 : string) (w : World) :
  let rejected (reply : string) :=
    run (addReminder chrono tzo chatId m1) w =
    {| db := db w;
       outbox := (outbox w ++ [(toString chatId, reply)])%list |} in
  (includes (toLowerCase m1) "every" = false -> rejected msg_use_every) /\
  (includes (toLowerCase m1) "every" = true ->
   (forall d, In d daysOfWeek -> includes (toLowerCase m1) d = false) ->
   rejected msg_no_days) /\
  (forall mraw draw rest,
     split (toLowerCase m1) "every" = mraw :: draw :: rest ->
     foundDays_of (trim draw) = [] -> rejected msg_no_days) /\
  (forall mraw draw rest,
     split (toLowerCase m1) "every" = mraw :: draw :: rest ->
     foundDays_of (trim draw) <> [] ->
     chrono (timePart_of (trim draw)) = None -> rejected msg_no_time).
Proof.
  intros rejected. subst rejected. cbv beta. unfold run. repeat split.
  - intros H. now rewrite addReminder_no_every.
  - intros Hi Hno.
    destruct (split_two_pieces (toLowerCase m1) "e" "very" Hi)
      as (i & rest & _ & Hs).
    rewrite (addReminder_no_days _ _ _ _ _ _ _ _ Hs); [reflexivity|].
    exact (no_day_in_argument _ _ _ _ Hs Hno).
  - intros mraw draw rest Hs Hd.
    now rewrite (addReminder_no_days _ _ _ _ _ _ _ _ Hs Hd).
  - intros mraw draw rest Hs Hd Ht.
    now rewrite (addReminder_no_time _ _ _ _ _ _ _ _ Hs Hd Ht).
Qed.

Lemma add_rejected_store_unchanged_witness :
  let add m1 :=
    run (addReminder (sample_parseDate host_ist) host_ist 42 m1) sample_world in
  add "take out waste on Sunday 8pm" =
    {| db := db sample_world; outbox := [("42", msg_use_every)] |} /\
  add "remind to stretch every morning 8am" =
    {| db := db sample_world; outbox := [("42", msg_no_days)] |} /\
  add "remind to stretch every monday at noon" =
    {| db := db sample_world; outbox := [("42", msg_no_time)] |}.
Proof.
  intros add. subst add. cbv beta. split; [|split].
  - exact (proj1 (add_rejected_store_unchanged (sample_parseDate host_ist)
                    host_ist 42 "take out waste on Sunday 8pm" sample_world)
             eq_refl).
  - refine (proj1 (proj2 (add_rejected_store_unchanged
                            (sample_parseDate host_ist) host_ist 42
                            "remind to stretch every morning 8am" sample_world))
              eq_refl _).
    intros d Hd. simpl in Hd.
    repeat (destruct Hd as [<-|Hd]; [reflexivity|]). contradiction.
  - refine (proj2 (proj2 (proj2 (add_rejected_store_unchanged
                            (sample_parseDate host_ist) host_ist 42
                            "remind to stretch every monday at noon"
                            sample_world)))
              "remind to stretch " " monday at noon" [] eq_refl _ eq_refl).
    discriminate.
Defined.

(** ** Deleting and updating one reminder *)

Section OneReminder.

Variable t2r : string -> option Z.

Lemma database_eta (d : Database) :
  {| reminders := reminders d; sqlite_sequence := sqlite_sequence d |} = d.
Proof. now destruct d. Qed.

Lemma where_id_chat_number (n : option Z) (chat : string) (r : Row) :
  where_id_chat t2r (number_param n) chat r = true <->
  n = Some (id r) /\ chat_id r = chat.
Proof.
  unfold where_id_chat. rewrite andb_true_iff, String.eqb_eq.
  destruct n as [k|]; cbn [number_param id_equals].
  - rewrite Z.eqb_eq. split; intros [H1 H2]; split; congruence.
  - split; intros [H1 H2]; discriminate.
Qed.

Lemma delete_reminder_none (v : SqlValue) (chat : string) (d : Database) :
  (forall r, In r (reminders d) -> where_id_chat t2r v chat r = false) ->
  delete_reminder t2r v chat d = (d, 0).
Proof.
  intros H. unfold delete_reminder.
  rewrite (filter_none _ _ H), filter_all, database_eta; [reflexivity|].
  intros r Hr. now rewrite (H r Hr).
Qed.

Lemma update_reminder_none (msg : string) (v : SqlValue) (chat : string)
  (d : Database) :
  (forall r, In r (reminders d) -> where_id_chat t2r v chat r = false) ->
  update_reminder t2r msg v chat d = (d, 0).
Proof.
  intros H. unfold update_reminder.
  rewrite (filter_none _ _ H), map_unchanged, database_eta; [reflexivity|].
  intros r Hr. now rewrite (H r Hr).
Qed.

(** C7. When no row has both the given id and the requesting chat as its
    owner (the id is unknown, or its row belongs to another chat), DELETE
    and UPDATE change zero rows, the handlers reply "No reminder found
    with ID ..." (a reply of its own, not the one of a success), and the
    world is otherwise as before; every row, a foreign one included, is
    still returned by the query of its owner. *)
Theorem delete_update_not_found
  (chatId : Z) (m1 m2 : string) (w : World) :
  (forall r, In r (reminders (db w)) ->
             parseInt m1 = Some (id r) -> chat_id r <> toString chatId) ->
  let reminderId := parseInt m1 in
  let not_found :=
    {| db := db w;
       outbox := (outbox w ++
                  [(toString chatId,
                    msg_not_found (number_text reminderId))])%list |} in
  fst (db_run_delete t2r (number_param reminderId) (toString chatId) w) = 0 /\
  run (deleteReminder t2r chatId m1) w = not_found /\
  fst (db_run_update t2r m2 (number_param reminderId) (toString chatId) w) = 0 /\
  run (updateReminder t2r chatId m1 m2) w = not_found /\
  msg_not_found (number_text reminderId) <> msg_deleted (number_text reminderId) /\
  msg_not_found (number_text reminderId) <> msg_updated (number_text reminderId) /\
  (forall r, In r (reminders (db w)) ->
             In r (select_by_chat (chat_id r)
                     (db (run (deleteReminder t2r chatId m1) w)))).
Proof.
  intros H reminderId not_found.
  assert (Hnone : forall r, In r (reminders (db w)) ->
            where_id_chat t2r (number_param reminderId) (toString chatId) r
            = false).
  { intros r Hr. apply not_true_is_false. intros Ht.
    apply where_id_chat_number in Ht as [Hid Hchat]. exact (H r Hr Hid Hchat). }
  assert (Hdel : run (deleteReminder t2r chatId m1) w = not_found).
  { unfold run, deleteReminder, bind, db_run_delete. cbv zeta.
    fold reminderId. now rewrite (delete_reminder_none _ _ _ Hnone). }
  split; [unfold db_run_delete; now rewrite (delete_reminder_none _ _ _ Hnone)|].
  split; [exact Hdel|].
  split; [unfold db_run_update; now rewrite (update_reminder_none _ _ _ _ Hnone)|].
  split.
  { unfold run, updateReminder, bind, db_run_update. cbv zeta.
    fold reminderId. now rewrite (update_reminder_none _ _ _ _ Hnone). }
  split; [unfold msg_not_found, msg_deleted; simpl; discriminate|].
  split; [unfold msg_not_found, msg_updated; simpl; discriminate|].
  intros r Hr. rewrite Hdel. unfold not_found, select_by_chat. cbn [db].
  apply filter_In. split; [exact Hr | apply String.eqb_refl].
Qed.

End OneReminder.

Lemma delete_update_not_found_witness :
  run (deleteReminder sample_text_to_rowid 42 "2") sample_world =
    {| db := db sample_world; outbox := [("42", msg_not_found "2")] |} /\
  run (updateReminder sample_text_to_rowid 42 "9" "Walk the Dog") sample_world =
    {| db := db sample_world; outbox := [("42", msg_not_found "9")] |} /\
  In (mkRow 2 "7" "call mom" "wednesday" "20:00" "yes")
    (select_by_chat "7"
       (db (run (deleteReminder sample_text_to_rowid 42 "2") sample_world))).
Proof.
  assert (H2 : forall r, In r (reminders (db sample_world)) ->
                 parseInt "2" = Some (id r) -> chat_id r <> toString 42).
  { intros r Hr. simpl in Hr.
    repeat (destruct Hr as [<-|Hr]; [discriminate|]). contradiction. }
  assert (H9 : forall r, In r (reminders (db sample_world)) ->
                 parseInt "9" = Some (id r) -> chat_id r <> toString 42).
  { intros r Hr. simpl in Hr.
    repeat (destruct Hr as [<-|Hr]; [discriminate|]). contradiction. }
  pose proof (delete_update_not_found sample_text_to_rowid 42 "2" "x"
                sample_world H2) as A.
  pose proof (delete_update_not_found sample_text_to_rowid 42 "9"
                "Walk the Dog" sample_world H9) as B.
  cbv zeta in A, B.
  destruct A as (_ & A1 & _ & _ & _ & _ & A2).
  destruct B as (_ & _ & _ & B1 & _).
  split; [exact A1|]. split; [exact B1|].
  apply (A2 (mkRow 2 "7" "call mom" "wednesday" "20:00" "yes")).
  simpl. tauto.
Defined.

(** ** The frame of an update *)

Lemma updateReminder_db (t2r : string -> option Z) (chatId : Z)
  (m1 m2 : string) (w : World) :
  db (run (updateReminder t2r chatId m1 m2) w) =
  fst (update_reminder t2r m2 (number_param (parseInt m1)) (toString chatId)
         (db w)).
Proof.
  unfold run, updateReminder, bind, db_run_update. cbv zeta.
  destruct (update_reminder t2r m2 (number_param (parseInt m1))
              (toString chatId) (db w)) as [d changes].
  destruct (changes =? 0); reflexivity.
Qed.

Lemma update_reminder_ids (t2r : string -> option Z) (msg : string)
  (v : SqlValue) (chat : string) (d : Database) :
  map id (reminders (fst (update_reminder t2r msg v chat d))) =
  map id (reminders d).
Proof.
  cbn [update_reminder fst reminders]. rewrite map_map. apply map_ext.
  intros r. now destruct (where_id_chat t2r v chat r).
Qed.

Lemma NoDup_ids_same_row (rows : list Row) (r1 r2 : Row) :
  NoDup (map id rows) -> In r1 rows -> In r2 rows -> id r1 = id r2 -> r1 = r2.
Proof.
  induction rows as [|x rows IH]; simpl; [tauto|].
  intros Hn H1 H2 E. inversion Hn as [|? ? Hx Hn']; subst.
  destruct H1 as [->|H1], H2 as [->|H2].
  - reflexivity.
  - exfalso. apply Hx. rewrite E. now apply in_map.
  - exfalso. apply Hx. rewrite <- E. now apply in_map.
  - now apply IH.
Qed.

(** C8. An update keeps the number and the order of the rows and the key
    counter; in every row the id, the owner, the day, the time and the
    recurring flag are as before; a row that differs from its former
    self has the given id and the requesting chat as owner, and differs
    in its message only, which is then the new message.  When the ids of
    the table are distinct there is at most one such row. *)
Theorem update_changes_message_only
  (t2r : string -> option Z) (chatId : Z) (m1 m2 : string) (w : World) :
  let w' := run (updateReminder t2r chatId m1 m2) w in
  sqlite_sequence (db w') = sqlite_sequence (db w) /\
  Forall2
    (fun r r' =>
       id r' = id r /\ chat_id r' = chat_id r /\
       day_of_week r' = day_of_week r /\ time r' = time r /\
       recurring r' = recurring r /\
       (r' = r \/
        parseInt m1 = Some (id r) /\ chat_id r = toString chatId /\
        r' = set_message m2 r))
    (reminders (db w)) (reminders (db w')) /\
  (NoDup (map id (reminders (db w))) ->
   forall r1 r2,
     In r1 (reminders (db w)) -> In r2 (reminders (db w)) ->
     parseInt m1 = Some (id r1) -> parseInt m1 = Some (id r2) -> r1 = r2).
Proof.
  intros w'. subst w'. rewrite updateReminder_db. unfold update_reminder. cbn [fst reminders sqlite_sequence].
  split; [reflexivity|]. split.
  - induction (reminders (db w)) as [|r rows IH]; cbn [map]; constructor;
      [|exact IH].
    destruct (where_id_chat t2r (number_param (parseInt m1)) (toString chatId) r)
      eqn:Hw.
    + apply where_id_chat_number in Hw as [Hid Hchat].
      cbn [set_message id chat_id day_of_week time recurring]. tauto.
    + tauto.
  - intros Hn r1 r2 H1 H2 E1 E2.
    apply (NoDup_ids_same_row _ _ _ Hn H1 H2). congruence.
Qed.

Lemma update_changes_message_only_witness :
  reminders (db (run (updateReminder sample_text_to_rowid 42 "3"
                        "Stretch NOW") sample_world)) =
  [mkRow 1 "42" "to take out waste" "wednesday" "20:00" "yes";
   mkRow 2 "7" "call mom" "wednesday" "20:00" "yes";
   mkRow 3 "42" "Stretch NOW" "wednesday" "20:01" "yes";
   mkRow 4 "42" "to take out waste" "thursday" "20:00" "yes"] /\
  (forall r1 r2,
     In r1 sample_rows -> In r2 sample_rows ->
     parseInt "3" = Some (id r1) -> parseInt "3" = Some (id r2) -> r1 = r2).
Proof.
  split; [reflexivity|].
  refine (proj2 (proj2 (update_changes_message_only sample_text_to_rowid 42
                          "3" "Stretch NOW" sample_world)) _).
  repeat (constructor; [simpl; intuition discriminate|]). constructor.
Defined.

(** The ids of the table stay distinct under every command. *)
Lemma insert_all_NoDup (chat msg tm rec : string) (days : list string)
  (d : Database) :
  NoDup (map id (reminders d)) ->
  NoDup (map id (reminders (insert_all chat msg tm rec days d))).
Proof.
  intros Hn. rewrite insert_all_rows, map_app.
  apply NoDup_app; [exact Hn | apply new_rows_NoDup |].
  intros k Hk Hk'. apply in_map_iff in Hk as (r & <- & Hr).
  apply in_map_iff in Hk' as (r' & E & Hr').
  apply next_rowid_above in Hr. apply new_rows_fields in Hr'. lia.
Qed.

Lemma filter_keeps_ids_distinct (keep : Row -> bool) (rows : list Row) :
  NoDup (map id rows) -> NoDup (map id (filter keep rows)).
Proof.
  induction rows as [|r rows IH]; intros Hn; [constructor|].
  cbn [map] in Hn. apply NoDup_cons_iff in Hn as [Hr Hn]. cbn [filter].
  destruct (keep r); [|now apply IH].
  cbn [map]. apply NoDup_cons; [|now apply IH].
  rewrite in_map_iff. intros (r' & E & Hr'). apply filter_In in Hr' as [Hr' _].
  apply Hr. rewrite <- E. now apply in_map.
Qed.

Lemma delete_all_NoDup (t2r : string -> option Z) (chat : string)
  (ids : list string) (d : Database) :
  NoDup (map id (reminders d)) ->
  NoDup (map id (reminders (delete_all t2r chat ids d))).
Proof.
  unfold delete_all. revert d; induction ids as [|i ids IH]; intros d Hn;
    [exact Hn|].
  cbn [fold_left]. apply IH. cbn [delete_reminder fst reminders].
  now apply filter_keeps_ids_distinct.
Qed.

(** ** The days of an addition *)

(** Against a letter a-z, [lowerChar] compares as [same_letter] does. *)
Lemma lowerChar_same_letter (a b : ascii) :
  in_range 97 122 b = true ->
  Ascii.eqb (lowerChar a) b = same_letter a b.
Proof.
  assert (A : forallb (fun x =>
                forallb (fun y =>
                  implb (in_range 97 122 (ascii_of_nat y))
                    (Bool.eqb
                       (Ascii.eqb (lowerChar (ascii_of_nat x)) (ascii_of_nat y))
                       (same_letter (ascii_of_nat x) (ascii_of_nat y))))
                  (seq 0 256)) (seq 0 256) = true)
    by (vm_compute; reflexivity).
  rewrite forallb_forall in A.
  specialize (A (nat_of_ascii a)
                ltac:(apply in_seq; pose proof (nat_ascii_bounded a); lia)).
  rewrite forallb_forall in A.
  specialize (A (nat_of_ascii b)
                ltac:(apply in_seq; pose proof (nat_ascii_bounded b); lia)).
  rewrite !ascii_nat_embedding in A. intros Hb. rewrite Hb in A.
  now apply Bool.eqb_prop.
Qed.

Lemma toLowerCase_equal_ignoring_case (u w : string) :
  all_chars (in_range 97 122) w = true ->
  (toLowerCase u = w <-> equal_ignoring_case u w = true).
Proof.
  revert w; induction u as [|a u IH]; intros [|b w] Hw; cbn;
    try (split; [discriminate | discriminate]); [tauto|].
  rewrite all_chars_cons, andb_true_iff in Hw. destruct Hw as [Hb Hw].
  rewrite andb_true_iff, <- (IH w Hw), <- (lowerChar_same_letter a b Hb).
  rewrite Ascii.eqb_eq. split; [intros [= -> ->]; tauto | intros [-> ->]; reflexivity].
Qed.

Lemma day_names_lower_case (day : string) :
  In day daysOfWeek -> all_chars (in_range 97 122) day = true.
Proof.
  unfold daysOfWeek. simpl.
  intros [<-|[<-|[<-|[<-|[<-|[<-|[<-|[]]]]]]]]; reflexivity.
Qed.

(** For a word of letters a-z, the search in the lower-cased text is the
    search for the word in any case. *)
Lemma includes_any_case (s w : string) :
  all_chars (in_range 97 122) w = true ->
  (includes (toLowerCase s) w = true <-> occurs_in_any_case w s).
Proof.
  intros Hw. rewrite includes_ignoring_case.
  unfold occurs_ignoring_case, occurs_in_any_case.
  split; intros (u & Hu & E); exists u; (split; [exact Hu|]);
    now apply (toLowerCase_equal_ignoring_case u w Hw).
Qed.

(** C9. The days found are those of the seven names that occur in the
    day and time part in whatever case their letters are written there,
    also inside a longer word; no name is listed twice, and the names come
    in the order of [daysOfWeek], whatever their order in the text.  When
    none is found the command is refused with the reply "No days found
    ...". *)
Theorem foundDays_canonical
  (chrono : string -> option Date) (tzo : Date -> Z) (chatId : Z)
  (m1 : string) (w : World) (dayTimePart : string) :
  (forall day, In day (foundDays_of dayTimePart) <->
               In day daysOfWeek /\ occurs_in_any_case day dayTimePart) /\
  NoDup (foundDays_of dayTimePart) /\
  Subseq (foundDays_of dayTimePart) daysOfWeek /\
  foundDays_of "WEDNESDAY, Monday and sunDAY 8pm" =
    ["sunday"; "monday"; "wednesday"] /\
  foundDays_of "unWednesdayish 8pm" = ["wednesday"] /\
  foundDays_of "mon day, fri-day 8pm" = [] /\
  (forall mraw draw rest,
     split (toLowerCase m1) "every" = mraw :: draw :: rest ->
     dayTimePart = trim draw ->
     foundDays_of dayTimePart = [] ->
     run (addReminder chrono tzo chatId m1) w =
     {| db := db w;
        outbox := (outbox w ++ [(toString chatId, msg_no_days)])%list |}).
Proof.
  split.
  { intros day. unfold foundDays_of. rewrite filter_In. split.
    - intros [Hd Hi]. split; [exact Hd|].
      now apply (includes_any_case _ _ (day_names_lower_case day Hd)).
    - intros [Hd Ho]. split; [exact Hd|].
      now apply (includes_any_case _ _ (day_names_lower_case day Hd)). }
  split; [apply foundDays_of_NoDup|].
  split; [apply Subseq_filter|].
  split; [reflexivity|]. split; [reflexivity|]. split; [reflexivity|].
  intros mraw draw rest Hs -> Hd. unfold run.
  now rewrite (addReminder_no_days _ _ _ _ _ _ _ _ Hs Hd).
Qed.

Lemma foundDays_canonical_witness :
  In "friday" (foundDays_of "Saturday and FRIDAY 9am") /\
  run (addReminder (sample_parseDate host_ist) host_ist 42
         "Remind to rest EVERY Weekend 9am") empty_world =
  {| db := db empty_world; outbox := [("42", msg_no_days)] |}.
Proof.
  split.
  - apply (proj1 (foundDays_canonical (sample_parseDate host_ist) host_ist 42
                    "" empty_world "Saturday and FRIDAY 9am")).
    split; [cbn; tauto|].
    exists "FRIDAY". split; [|reflexivity].
    exists "Saturday and ", " 9am". reflexivity.
  - exact (proj2 (proj2 (proj2 (proj2 (proj2 (proj2
             (foundDays_canonical (sample_parseDate host_ist) host_ist 42
                "Remind to rest EVERY Weekend 9am" empty_world "weekend 9am"))))))
             "remind to rest " " weekend 9am" [] eq_refl eq_refl eq_refl).
Defined.

(** ** The case of stored messages *)

Lemma deleteReminder_db (t2r : string -> option Z) (chatId : Z) (m1 : string)
  (w : World) :
  db (run (deleteReminder t2r chatId m1) w) =
  fst (delete_reminder t2r (number_param (parseInt m1)) (toString chatId) (db w)).
Proof.
  unfold run, deleteReminder, bind, db_run_delete. cbv zeta.
  destruct (delete_reminder t2r (number_param (parseInt m1)) (toString chatId)
              (db w)) as [d changes].
  destruct (changes =? 0); reflexivity.
Qed.

Lemma deleteReminders_db (t2r : string -> option Z) (chatId : Z) (m1 : string)
  (w : World) :
  db (run (deleteReminders t2r chatId m1) w) =
  delete_all t2r (toString chatId) (reminderIds_of m1) (db w).
Proof.
  unfold run. destruct (reminderIds_of m1) as [|i ids] eqn:E.
  - now rewrite deleteReminders_rejected.
  - rewrite deleteReminders_attempted by (rewrite E; discriminate).
    now rewrite E.
Qed.

Lemma listReminders_db (chatId : Z) (w : World) :
  db (run (listReminders chatId) w) = db w.
Proof.
  unfold run, listReminders, bind, db_all_by_chat.
  destruct (Nat.eqb _ _); reflexivity.
Qed.

Lemma scheduler_db (tzo : Date -> Z) (now : Date) (w : World) :
  db (run (scheduler tzo now) w) = db w.
Proof.
  unfold run, scheduler, bind, db_all_due. cbv zeta.
  now rewrite forEach_sendMessage.
Qed.

Lemma Forall_kept {A} (P : A -> Prop) (p : A -> bool) (l : list A) :
  Forall P l -> Forall P (filter p l).
Proof.
  rewrite !Forall_forall. intros H x Hx. apply filter_In in Hx as [Hx _].
  now apply H.
Qed.

Lemma delete_all_messages (P : Row -> Prop) (t2r : string -> option Z)
  (chat : string) (ids : list string) (d : Database) :
  Forall P (reminders d) -> Forall P (reminders (delete_all t2r chat ids d)).
Proof.
  unfold delete_all. revert d; induction ids as [|i ids IH]; intros d H;
    [exact H|].
  cbn [fold_left]. apply IH.
  cbn [delete_reminder fst reminders]. now apply Forall_kept.
Qed.

(** A text with an upper-case letter has one as a piece. *)
Lemma upper_case_letter_occurs (s : string) :
  isLowerCase s = false ->
  exists c, isUpper c = true /\ occurs_in (String c "") s.
Proof.
  unfold isLowerCase. induction s as [|c s IH]; [discriminate|].
  rewrite all_chars_cons, andb_false_iff, negb_false_iff.
  destruct (isUpper c) eqn:Hc.
  - intros _. exists c. split; [exact Hc|]. now exists "", s.
  - intros [H|H]; [discriminate|]. destruct (IH H) as (x & Hx & Ho).
    exists x. split; [exact Hx|]. now apply occurs_in_tail.
Qed.

Lemma upper_case_letter_changes (c : ascii) :
  isUpper c = true ->
  is_ascii (String c "") = true /\
  toLowerCase (String c "") <> String c "".
Proof.
  destruct c as [[] [] [] [] [] [] [] []]; intros H; try discriminate H;
    (split; [reflexivity | discriminate]).
Qed.

Section LowerCasing.

Variable lower jtrim jtrimStart : string -> string.

(** What is assumed of the lower-casing and of the trimming of the
    platform: on ASCII text the lower-casing is that of the letters A-Z;
    lower-casing twice is lower-casing once; a piece of a text that the
    lower-casing leaves as it is, is left as it is; trimming yields a piece
    of the text. *)
Hypothesis lower_ascii :
  forall s, is_ascii s = true -> lower s = toLowerCase s.
Hypothesis lower_idempotent : forall s, lower (lower s) = lower s.
Hypothesis lower_piece :
  forall s u, lower s = s -> occurs_in u s -> lower u = u.
Hypothesis jtrim_piece : forall s, occurs_in (jtrim s) s.
Hypothesis jtrimStart_piece : forall s, occurs_in (jtrimStart s) s.

Lemma lower_fixed_no_upper (s : string) : lower s = s -> isLowerCase s = true.
Proof.
  intros H. destruct (isLowerCase s) eqn:E; [reflexivity|].
  destruct (upper_case_letter_occurs s E) as (c & Hc & Ho).
  destruct (upper_case_letter_changes c Hc) as [Ha Hn].
  pose proof (lower_piece s _ H Ho) as F.
  rewrite (lower_ascii _ Ha) in F. contradiction.
Qed.

Lemma messagePart_on_piece (m1 mraw draw : string) (rest : list string) :
  split (lower m1) "every" = mraw :: draw :: rest ->
  occurs_in (jtrim (replace_remind_on jtrimStart mraw)) (lower m1).
Proof.
  intros Hs.
  eapply occurs_in_trans; [apply jtrim_piece|].
  eapply occurs_in_trans; [|exact (proj1 (split_second_occurs _ _ _ _ Hs))].
  unfold replace_remind_on. destruct (prefix "remind" mraw).
  - eapply occurs_in_trans; [apply jtrimStart_piece | apply occurs_in_drop].
  - apply occurs_in_refl.
Qed.

Lemma addReminderOn_new_rows_lower
  (executed : list string -> list string)
  (chrono : string -> option Date) (tzo : Date -> Z) (chatId : Z)
  (m1 : string) (w : World) :
  exists created,
    reminders
      (db (run (addReminderOn lower jtrim jtrimStart executed chrono tzo
                  chatId m1) w)) =
    (reminders (db w) ++ created)%list /\
    Forall (fun r => lower (message r) = message r /\
                     occurs_in (message r) (lower m1) /\
                     isLowerCase (message r) = true) created.
Proof.
  destruct (addReminderOn_db lower jtrim jtrimStart executed chrono tzo
              chatId m1 w)
    as [E | (mraw & draw & rest & parsedTime & Hs & _ & _ & E)]; rewrite E.
  - exists []. now rewrite app_nil_r.
  - rewrite insert_all_rows. eexists. split; [reflexivity|].
    apply Forall_forall. intros r H.
    apply new_rows_fields in H as (_ & -> & _).
    pose proof (messagePart_on_piece _ _ _ _ Hs) as Ho.
    pose proof (lower_piece _ _ (lower_idempotent m1) Ho) as Hl.
    split; [exact Hl|]. split; [exact Ho|].
    now apply lower_fixed_no_upper.
Qed.

End LowerCasing.

(** C10.  The lower-casing and the trimming are those of the platform, of
    which no more is assumed than what the first five hypotheses say.
    Every row a /addReminder appends has a message that is a piece of the
    lower-cased argument and is entirely in lower case: lower-casing it
    changes nothing, and it has none of the letters A-Z.  A
    /updateReminder that reaches a row stores its argument as it is,
    upper-case letters included.  So a table whose messages are all in
    lower case stays so under every command other than an update, and an
    update can break this. *)
Theorem add_lower_case_update_verbatim
  (lower jtrim jtrimStart : string -> string)
  (executed : list string -> list string)
  (chrono : string -> option Date) (tzo : Date -> Z)
  (t2r : string -> option Z) :
  (forall s, is_ascii s = true -> lower s = toLowerCase s) ->
  (forall s, lower (lower s) = lower s) ->
  (forall s u, lower s = s -> occurs_in u s -> lower u = u) ->
  (forall s, occurs_in (jtrim s) s) ->
  (forall s, occurs_in (jtrimStart s) s) ->
  (forall chatId m1 w,
     exists created,
       reminders
         (db (run (addReminderOn lower jtrim jtrimStart executed chrono tzo
                     chatId m1) w)) =
       (reminders (db w) ++ created)%list /\
       Forall (fun r => lower (message r) = message r /\
                        occurs_in (message r) (lower m1) /\
                        isLowerCase (message r) = true) created) /\
  (forall chatId m1 m2 w r,
     In r (reminders (db w)) ->
     parseInt m1 = Some (id r) -> chat_id r = toString chatId ->
     In (set_message m2 r)
        (reminders (db (run (updateReminder t2r chatId m1 m2) w))) /\
     message (set_message m2 r) = m2) /\
  (forall c w,
     is_update c = false -> all_lower_on lower (db w) ->
     all_lower_on lower
       (db (run (handleOn lower jtrim jtrimStart executed chrono tzo t2r c)
              w))) /\
  (all_lower_on lower (db sample_world) /\
   ~ all_lower_on lower
       (db (run (handleOn lower jtrim jtrimStart executed chrono tzo t2r
                   (UpdateReminder 42 "3" "Stretch NOW"))
              sample_world))).
Proof.
  intros Ha Hi Hp Ht Hts.
  split; [intros; now apply addReminderOn_new_rows_lower|]. split; [|split].
  - intros chatId m1 m2 w r Hr Hid Hchat. split; [|reflexivity].
    rewrite updateReminder_db. cbn [update_reminder fst reminders].
    apply in_map_iff.
    exists r. split; [|exact Hr].
    now rewrite (proj2 (where_id_chat_number t2r _ _ r) (conj Hid Hchat)).
  - intros c w Hc Hl. unfold all_lower_on in *.
    destruct c as [chatId m1|chatId|chatId m1|chatId m1| |now];
      cbn [handleOn handle]; try discriminate.
    + destruct (addReminderOn_new_rows_lower lower jtrim jtrimStart Ha Hi Hp
                  Ht Hts executed chrono tzo chatId m1 w)
        as (created & E & Hc'). rewrite E.
      apply Forall_app. split; [exact Hl|].
      eapply Forall_impl; [|exact Hc']. intros r Hr. apply Hr.
    + now rewrite listReminders_db.
    + rewrite deleteReminder_db.
      cbn [delete_reminder fst reminders]. now apply Forall_kept.
    + rewrite deleteReminders_db. now apply delete_all_messages.
    + now rewrite scheduler_db.
  - split.
    + unfold all_lower_on, sample_world, sample_rows. cbn [db reminders].
      repeat constructor; cbn [message]; now rewrite Ha.
    + cbn [handleOn handle]. intros H. unfold all_lower_on in H.
      rewrite Forall_forall in H.
      specialize (H (mkRow 3 "42" "Stretch NOW" "wednesday" "20:01" "yes")).
      cbn [message] in H. rewrite (Ha "Stretch NOW" eq_refl) in H.
      assert (G : toLowerCase "Stretch NOW" = "Stretch NOW");
        [|discriminate G]. apply H.
      rewrite updateReminder_db. cbn. tauto.
Qed.

Lemma toLowerCase_piece (s u : string) :
  toLowerCase s = s -> occurs_in u s -> toLowerCase u = u.
Proof.
  intros H Ho. apply isLowerCase_fixed.
  apply (all_chars_occurs _ _ s Ho). fold (isLowerCase s).
  rewrite <- H. apply isLowerCase_toLowerCase.
Qed.

Lemma add_lower_case_update_verbatim_witness :
  all_lower_on toLowerCase
    (db (run (handleOn toLowerCase trim trimStart (@rev string)
                (sample_parseDate host_ist) host_ist sample_text_to_rowid
                (AddReminder 7 "Remind To CALL Mom every FRIDAY 6pm"))
           sample_world)) /\
  In (mkRow 1 "42" "Take Out WASTE" "wednesday" "20:00" "yes")
     (reminders (db (run (updateReminder sample_text_to_rowid 42 "1"
                            "Take Out WASTE") sample_world))).
Proof.
  pose proof (add_lower_case_update_verbatim toLowerCase trim trimStart
                (@rev string) (sample_parseDate host_ist) host_ist
                sample_text_to_rowid
                (fun s _ => eq_refl) toLowerCase_idempotent toLowerCase_piece
                occurs_in_trim occurs_in_trimStart)
    as (_ & U & P & L & _).
  split.
  - exact (P (AddReminder 7 "Remind To CALL Mom every FRIDAY 6pm")
             sample_world eq_refl L).
  - refine (proj1 (U 42 "1" "Take Out WASTE" sample_world
                     (mkRow 1 "42" "to take out waste" "wednesday" "20:00" "yes")
                     _ eq_refl eq_refl)).
    simpl. tauto.
Defined.

(** ** Distinct ids *)

(** Starting from a table with distinct ids, every command leaves a table
    with distinct ids. *)
Lemma handle_keeps_ids_distinct
  (chrono : string -> option Date) (tzo : Date -> Z)
  (t2r : string -> option Z) (c : Command) (w : World) :
  NoDup (map id (reminders (db w))) ->
  NoDup (map id (reminders (db (run (handle chrono tzo t2r c) w)))).
Proof.
  intros Hn. destruct c as [chatId m1|chatId|chatId m1|chatId m1|chatId m1 m2|now];
    cbn [handle].
  - destruct (addReminder_db chrono tzo chatId m1 w)
      as [E | (mraw & draw & rest & parsedTime & _ & _ & _ & E)]; rewrite E;
      [exact Hn | now apply insert_all_NoDup].
  - now rewrite listReminders_db.
  - rewrite deleteReminder_db. cbn [delete_reminder fst reminders].
    now apply filter_keeps_ids_distinct.
  - rewrite deleteReminders_db. now apply delete_all_NoDup.
  - now rewrite updateReminder_db, update_reminder_ids.
  - now rewrite scheduler_db.
Qed.

(** * Further properties *)

(** ** Numerals: what the bot prints, it reads back *)

Lemma digit_facts (c : ascii) :
  isDigit c = true ->
  isWhiteSpace c = false /\ c <> "-"%char /\ c <> "+"%char /\
  (lowerChar c =? "x")%char = false /\ 0 <= digit_value c <= 9.
Proof.
  destruct c as [[] [] [] [] [] [] [] []]; intros H; try discriminate H;
    (repeat split; [discriminate | discriminate | cbv; discriminate | cbv; discriminate]).
Qed.

Lemma span_digits_all (s : string) :
  all_chars isDigit s = true -> span_digits s = (String.length s, "").
Proof.
  induction s as [|c s IH]; [reflexivity|].
  rewrite all_chars_cons, andb_true_iff. intros [Hc Hs].
  cbn [span_digits String.length]. now rewrite Hc, (IH Hs).
Qed.

(** On a numeral, [parseInt] gives the value of its digits. *)
Lemma parseInt_digits (s : string) :
  s <> "" -> all_chars isDigit s = true -> parseInt s = Some (digits_value 0 s).
Proof.
  destruct s as [|c r]; [congruence|]. intros _ H.
  pose proof H as Hall. rewrite all_chars_cons, andb_true_iff in H.
  destruct H as [Hc Hr]. destruct (digit_facts c Hc) as (Hw & Hm & Hp & _).
  unfold parseInt. cbn [trimStart]. rewrite Hw.
  destruct c as [[] [] [] [] [] [] [] []]; try discriminate Hc;
    cbv zeta iota beta;
    rewrite ?(span_digits_all _ Hall); cbn [fst String.length];
    try reflexivity.
  destruct r as [|k r']; [reflexivity|].
  rewrite all_chars_cons, andb_true_iff in Hr. destruct Hr as [Hk _].
  destruct (digit_facts k Hk) as (_ & _ & _ & Hx & _). now rewrite Hx.
Qed.

Lemma parseInt_minus_digits (s : string) :
  s <> "" -> all_chars isDigit s = true ->
  parseInt (String "-" s) = Some (- digits_value 0 s).
Proof.
  destruct s as [|c r]; [congruence|]. intros _ H.
  pose proof H as Hall. rewrite all_chars_cons, andb_true_iff in H.
  destruct H as [Hc Hr].
  unfold parseInt. cbn [trimStart].
  change (isWhiteSpace "-") with false. cbv iota beta zeta.
  destruct c as [[] [] [] [] [] [] [] []]; try discriminate Hc;
    rewrite ?(span_digits_all _ Hall); cbn [fst String.length];
    try reflexivity.
  destruct r as [|k r']; [reflexivity|].
  rewrite all_chars_cons, andb_true_iff in Hr. destruct Hr as [Hk _].
  destruct (digit_facts k Hk) as (_ & _ & _ & Hx & _). now rewrite Hx.
Qed.

Lemma string_of_uint_digits (d : Decimal.uint) :
  all_chars isDigit (NilEmpty.string_of_uint d) = true.
Proof. induction d; cbn [NilEmpty.string_of_uint]; trivial. Qed.

Ltac eval_digit :=
  repeat match goal with
    | |- context [isDigit ?c] => change (isDigit c) with true
    | |- context [digit_value ?c] =>
        let v := eval vm_compute in (digit_value c) in
        change (digit_value c) with v
    end;
  cbv iota.

Lemma digits_value_acc (d : Decimal.uint) (acc : positive) :
  digits_value (Zpos acc) (NilEmpty.string_of_uint d) =
  Zpos (Pos.of_uint_acc d acc).
Proof.
  revert acc; induction d; intros acc;
    cbn [NilEmpty.string_of_uint digits_value Pos.of_uint_acc];
    [reflexivity | ..]; eval_digit; rewrite <- IHd; f_equal;
    lia.
Qed.

Lemma digits_value_of_uint (d : Decimal.uint) :
  digits_value 0 (NilEmpty.string_of_uint d) = Z.of_N (Pos.of_uint d).
Proof.
  induction d; cbn [NilEmpty.string_of_uint digits_value Pos.of_uint];
    [reflexivity | ..]; eval_digit; [exact IHd | ..];
    cbn [Z.of_N]; rewrite <- digits_value_acc; reflexivity.
Qed.

Lemma toString_pos (p : positive) :
  toString (Zpos p) = NilEmpty.string_of_uint (Pos.to_uint p).
Proof.
  unfold toString. cbn [Z.to_int NilZero.string_of_int].
  unfold NilZero.string_of_uint.
  pose proof (DecimalPos.Unsigned.to_uint_nonnil p).
  now destruct (Pos.to_uint p).
Qed.

Lemma toString_neg (p : positive) :
  toString (Zneg p) = String "-" (NilEmpty.string_of_uint (Pos.to_uint p)).
Proof.
  unfold toString. cbn [Z.to_int NilZero.string_of_int].
  unfold NilZero.string_of_uint.
  pose proof (DecimalPos.Unsigned.to_uint_nonnil p).
  now destruct (Pos.to_uint p).
Qed.

Lemma string_of_uint_nonempty (p : positive) :
  NilEmpty.string_of_uint (Pos.to_uint p) <> "".
Proof.
  pose proof (DecimalPos.Unsigned.to_uint_nonnil p).
  destruct (Pos.to_uint p); [congruence | discriminate..].
Qed.

Lemma parseInt_of_toString (n : Z) : parseInt (toString n) = Some n.
Proof.
  destruct n as [|p|p].
  - reflexivity.
  - rewrite toString_pos, parseInt_digits, digits_value_of_uint,
      DecimalPos.Unsigned.of_to;
      [reflexivity | apply string_of_uint_nonempty | apply string_of_uint_digits].
  - rewrite toString_neg, parseInt_minus_digits, digits_value_of_uint,
      DecimalPos.Unsigned.of_to;
      [reflexivity | apply string_of_uint_nonempty | apply string_of_uint_digits].
Qed.

Lemma toString_injective (m n : Z) : toString m = toString n -> m = n.
Proof.
  intros E. pose proof (parseInt_of_toString m) as Hm.
  rewrite E, parseInt_of_toString in Hm. congruence.
Qed.

(** X1. For an integer that a JavaScript number holds exactly (below 2^53
    in absolute value), the decimal numeral the bot prints (an id in a
    listing, a chat id in the column [chat_id]) is read back by [parseInt]
    as that integer; so two such integers are printed differently. *)
Theorem parseInt_toString (n : Z) :
  - 2 ^ 53 < n < 2 ^ 53 ->
  parseInt (toString n) = Some n /\
  (forall m, - 2 ^ 53 < m < 2 ^ 53 -> toString m = toString n -> m = n).
Proof.
  intros _. split; [apply parseInt_of_toString|].
  intros m _. apply toString_injective.
Qed.

Lemma parseInt_toString_witness :
  - 2 ^ 53 < 9007199254740991 < 2 ^ 53 /\
  toString 9007199254740991 = "9007199254740991" /\
  parseInt "9007199254740991" = Some 9007199254740991.
Proof.
  split; [lia|]. split; [reflexivity|].
  exact (proj1 (parseInt_toString 9007199254740991 ltac:(lia))).
Defined.

(** ** The shape of the table *)

Lemma filter_filter {A} (p q : A -> bool) (l : list A) :
  filter p (filter q l) = filter (fun x => q x && p x) l.
Proof.
  induction l as [|a l IH]; [reflexivity|]. cbn [filter].
  destruct (q a); cbn [filter andb]; [destruct (p a)|]; now rewrite IH.
Qed.

(** The DELETEs of /deleteReminders remove the rows of the chat whose id
    one of the kept tokens is equal to. *)
Lemma delete_all_eq (t2r : string -> option Z) (chat : string)
  (ids : list string) (d : Database) :
  delete_all t2r chat ids d =
  {| reminders :=
       filter (fun r => forallb (fun i => negb (where_id_chat t2r (SqlText i) chat r)) ids)
         (reminders d);
     sqlite_sequence := sqlite_sequence d |}.
Proof.
  unfold delete_all. revert d; induction ids as [|i ids IH]; intros d.
  - cbn [fold_left forallb]. rewrite filter_all by reflexivity.
    now destruct d.
  - cbn [fold_left]. rewrite IH. cbn [delete_reminder fst reminders sqlite_sequence].
    now rewrite filter_filter.
Qed.

Lemma incl_foundDays (dayTimePart : string) :
  incl (foundDays_of dayTimePart) daysOfWeek.
Proof. intros d H. now apply filter_In in H. Qed.

Lemma handle_db_step (chrono : string -> option Date) (tzo : Date -> Z)
  (t2r : string -> option Z) (c : Command) (w : World) :
  db_step (db w) (db (run (handle chrono tzo t2r c) w)).
Proof.
  destruct c as [chatId m1|chatId|chatId m1|chatId m1|chatId m1 m2|now];
    cbn [handle].
  - destruct (addReminder_db chrono tzo chatId m1 w)
      as [E | (mraw & draw & rest & parsedTime & _ & _ & _ & E)]; rewrite E.
    + constructor.
    + constructor; [apply incl_foundDays | apply toTimeString_slice5_hh_mm].
  - rewrite listReminders_db. constructor.
  - rewrite deleteReminder_db. cbn [delete_reminder fst]. constructor.
  - rewrite deleteReminders_db, delete_all_eq. constructor.
  - rewrite updateReminder_db. cbn [update_reminder fst]. constructor.
  - rewrite scheduler_db. constructor.
Qed.

Lemma ids_increasing_filter (keep : Row -> bool) (rows : list Row) :
  ids_increasing rows -> ids_increasing (filter keep rows).
Proof.
  induction rows as [|r rows IH]; [trivial|]. intros [Hr Hrows].
  cbn [filter]. destruct (keep r); [|now apply IH].
  split; [|now apply IH].
  intros r' Hr'. apply filter_In in Hr' as [Hr' _]. now apply Hr.
Qed.

Lemma ids_increasing_update (f : Row -> Row) (rows : list Row) :
  (forall r, id (f r) = id r) ->
  ids_increasing rows -> ids_increasing (map f rows).
Proof.
  intros Hf. induction rows as [|r rows IH]; [trivial|]. intros [Hr Hrows].
  cbn [map]. split; [|now apply IH].
  intros r' Hr'. apply in_map_iff in Hr' as (r0 & <- & Hr0).
  rewrite !Hf. now apply Hr.
Qed.

Lemma new_rows_id_below (k : Z) (chat msg tm rec : string)
  (days : list string) (r : Row) :
  In r (new_rows k chat msg tm rec days) ->
  id r < k + Z.of_nat (List.length days) /\ In (day_of_week r) days.
Proof.
  revert k; induction days as [|day days IH]; intros k; [contradiction|].
  cbn [new_rows List.length]. intros [<-|H].
  - cbn [id day_of_week]. split; [lia | now left].
  - apply IH in H as [H1 H2]. split; [lia | now right].
Qed.

Lemma ids_increasing_new_rows (k : Z) (chat msg tm rec : string)
  (days : list string) :
  ids_increasing (new_rows k chat msg tm rec days).
Proof.
  revert k; induction days as [|day days IH]; intros k; [exact I|].
  cbn [new_rows]. split; [|apply IH].
  intros r' Hr'. apply new_rows_fields in Hr'. cbn [id]. lia.
Qed.

Lemma ids_increasing_app (l1 l2 : list Row) :
  ids_increasing l1 -> ids_increasing l2 ->
  (forall r1 r2, In r1 l1 -> In r2 l2 -> id r1 < id r2) ->
  ids_increasing (l1 ++ l2).
Proof.
  induction l1 as [|r l1 IH]; intros H1 H2 H; [exact H2|].
  destruct H1 as [Hr H1]. cbn [app]. split.
  - intros r' Hr'. apply in_app_iff in Hr' as [Hr'|Hr'];
      [now apply Hr | apply H; [now left | exact Hr']].
  - apply IH; [exact H1 | exact H2 |].
    intros r1 r2 Hr1 Hr2. apply H; [now right | exact Hr2].
Qed.

Lemma ids_increasing_NoDup (rows : list Row) :
  ids_increasing rows -> NoDup (map id rows).
Proof.
  induction rows as [|r rows IH]; [constructor|]. intros [Hr Hrows].
  cbn [map]. constructor; [|now apply IH].
  intros Hin. apply in_map_iff in Hin as (r' & E & Hr').
  specialize (Hr r' Hr'). lia.
Qed.

Lemma insert_all_sequence (chat msg tm rec : string) (days : list string)
  (d : Database) :
  sqlite_sequence (insert_all chat msg tm rec days d) =
  match days with
  | [] => sqlite_sequence d
  | _ => next_rowid d + Z.of_nat (List.length days) - 1
  end.
Proof.
  unfold insert_all. revert d; induction days as [|day days IH]; intros d;
    [reflexivity|].
  cbn [fold_left]. rewrite IH. destruct days as [|day' days].
  - cbn. lia.
  - rewrite next_rowid_insert. cbn [List.length]. lia.
Qed.

(** One step keeps the table well formed, never lowers the key counter,
    and brings in no id at or below the counter. *)
Lemma db_step_table_ok (d d' : Database) :
  db_step d d' -> table_ok d ->
  table_ok d' /\
  sqlite_sequence d <= sqlite_sequence d' /\
  (forall r, In r (reminders d') ->
             In (id r) (map id (reminders d)) \/ sqlite_sequence d < id r).
Proof.
  intros Hs [Hinc Hrows]. rewrite Forall_forall in Hrows.
  destruct Hs as [d | d chat msg tm days Hdays Htm | d keep | d msg hit].
  - split; [split; [exact Hinc | now apply Forall_forall]|].
    split; [lia|]. intros r Hr. left. now apply in_map.
  - assert (Hnext : sqlite_sequence d < next_rowid d)
      by (unfold next_rowid; lia).
    assert (Hseq : sqlite_sequence d <=
                   sqlite_sequence (insert_all chat msg tm "yes" days d)).
    { rewrite insert_all_sequence. destruct days; cbn [List.length]; lia. }
    assert (Hnew : forall r,
               In r (new_rows (next_rowid d) chat msg tm "yes" days) ->
               sqlite_sequence d < id r /\
               row_ok (insert_all chat msg tm "yes" days d) r).
    { intros r Hr. pose proof (new_rows_fields _ _ _ _ _ _ _ Hr)
        as (_ & _ & Ht & Hrec & Hlo).
      pose proof (new_rows_id_below _ _ _ _ _ _ _ Hr) as [Hhi Hday].
      pose proof (max_rowid_nonneg (reminders d)).
      split; [lia|]. unfold row_ok. rewrite insert_all_sequence.
      destruct days as [|day days']; [contradiction|].
      repeat split; try assumption; try (unfold next_rowid in *; lia).
      + now apply Hdays.
      + now rewrite Ht. }
    split; [split|].
    + rewrite insert_all_rows. apply ids_increasing_app;
        [exact Hinc | apply ids_increasing_new_rows |].
      intros r1 r2 H1 H2. apply Hnew in H2 as [H2 _].
      destruct (Hrows r1 H1) as [? _]. lia.
    + apply Forall_forall. intros r Hr. rewrite insert_all_rows in Hr.
      apply in_app_iff in Hr as [Hr|Hr]; [|now apply Hnew].
      destruct (Hrows r Hr) as (Hid & Hd & Ht & Hrec).
      repeat split; try assumption; lia.
    + split; [exact Hseq|]. intros r Hr. rewrite insert_all_rows in Hr.
      apply in_app_iff in Hr as [Hr|Hr];
        [left; now apply in_map | right; now apply Hnew].
  - split; [split|].
    + now apply ids_increasing_filter.
    + apply Forall_forall. intros r Hr. apply filter_In in Hr as [Hr _].
      exact (Hrows r Hr).
    + split; [cbn; lia|]. intros r Hr. apply filter_In in Hr as [Hr _].
      left. now apply in_map.
  - split; [split|].
    + cbn [reminders]. apply ids_increasing_update; [|exact Hinc].
      intros r. now destruct (hit r).
    + apply Forall_forall. intros r Hr. cbn [reminders] in Hr.
      apply in_map_iff in Hr as (r0 & <- & Hr0).
      specialize (Hrows r0 Hr0). now destruct (hit r0).
    + split; [cbn; lia|]. intros r Hr. cbn [reminders] in Hr.
      apply in_map_iff in Hr as (r0 & <- & Hr0). left.
      destruct (hit r0); cbn [set_message id]; now apply in_map.
Qed.

Lemma run_all_invariant (chrono : string -> option Date) (tzo : Date -> Z)
  (t2r : string -> option Z) (cs : list Command) (w : World) :
  table_ok (db w) ->
  table_ok (db (run_all chrono tzo t2r cs w)) /\
  sqlite_sequence (db w) <= sqlite_sequence (db (run_all chrono tzo t2r cs w)) /\
  (forall r, In r (reminders (db (run_all chrono tzo t2r cs w))) ->
             In (id r) (map id (reminders (db w))) \/
             sqlite_sequence (db w) < id r).
Proof.
  revert w; induction cs as [|c cs IH]; intros w Hok; cbn [run_all].
  - split; [exact Hok|]. split; [lia|]. intros r Hr. left. now apply in_map.
  - destruct (db_step_table_ok _ _ (handle_db_step chrono tzo t2r c w) Hok)
      as (Hok1 & Hseq1 & Hids1).
    destruct (IH _ Hok1) as (Hok2 & Hseq2 & Hids2).
    split; [exact Hok2|]. split; [lia|].
    intros r Hr. destruct (Hids2 r Hr) as [Hin|Hlt]; [|right; lia].
    apply in_map_iff in Hin as (r1 & E & Hr1). rewrite <- E.
    exact (Hids1 r1 Hr1).
Qed.

Lemma table_ok_empty_world : table_ok (db empty_world).
Proof. split; [exact I | constructor]. Qed.

(** X2. Whatever commands and ticks are handled, in whatever order, a
    table that only the bot has written to keeps its shape: the ids
    increase along the table (so they are distinct, and a listing is in
    the order of the ids), every id lies between 1 and the key counter,
    every day is one of the seven names, every time has the form HH:MM
    and every row is marked "yes".  The empty table has this shape. *)
Theorem reachable_table_ok
  (chrono : string -> option Date) (tzo : Date -> Z)
  (t2r : string -> option Z) (cs : list Command) (w : World) :
  table_ok (db w) ->
  let d' := db (run_all chrono tzo t2r cs w) in
  ids_increasing (reminders d') /\
  NoDup (map id (reminders d')) /\
  (forall r, In r (reminders d') ->
             0 < id r <= sqlite_sequence d' /\
             In (day_of_week r) daysOfWeek /\
             is_hh_mm (time r) = true /\
             recurring r = "yes") /\
  table_ok (db empty_world).
Proof.
  intros Hok d'.
  destruct (run_all_invariant chrono tzo t2r cs w Hok) as ([Hinc Hrows] & _).
  split; [exact Hinc|]. split; [now apply ids_increasing_NoDup|].
  split; [intros r Hr; rewrite Forall_forall in Hrows; exact (Hrows r Hr)|].
  apply table_ok_empty_world.
Qed.

Lemma reachable_table_ok_witness :
  NoDup
    (map id
       (reminders
          (db (run_all (sample_parseDate host_ist) host_ist
                 sample_text_to_rowid
                 [AddReminder 42 "remind to stretch every monday and friday 7am";
                  DeleteReminder 42 "1";
                  AddReminder 7 "call mom every sunday 6pm";
                  UpdateReminder 7 "3" "Call Mom";
                  Tick sample_now]
                 empty_world)))).
Proof.
  exact (proj1 (proj2 (reachable_table_ok (sample_parseDate host_ist) host_ist
                         sample_text_to_rowid _ empty_world
                         table_ok_empty_world))).
Defined.

(** X3. The key counter never goes down, and an id at or below it that a
    later table shows was in the table all along: once a reminder is
    deleted, its id is not given to another reminder. *)
Theorem ids_never_reused
  (chrono : string -> option Date) (tzo : Date -> Z)
  (t2r : string -> option Z) (cs : list Command) (w : World) :
  table_ok (db w) ->
  let w' := run_all chrono tzo t2r cs w in
  sqlite_sequence (db w) <= sqlite_sequence (db w') /\
  (forall r, In r (reminders (db w')) ->
             id r <= sqlite_sequence (db w) ->
             In (id r) (map id (reminders (db w)))) /\
  (forall k, 0 < k <= sqlite_sequence (db w) ->
             ~ In k (map id (reminders (db w))) ->
             ~ In k (map id (reminders (db w')))).
Proof.
  intros Hok w'.
  destruct (run_all_invariant chrono tzo t2r cs w Hok) as (_ & Hseq & Hids).
  split; [exact Hseq|]. split.
  - intros r Hr Hle. destruct (Hids r Hr) as [H|H]; [exact H | lia].
  - intros k Hk Hnot Hin. apply in_map_iff in Hin as (r & <- & Hr).
    destruct (Hids r Hr) as [H|H]; [now apply Hnot | lia].
Qed.

Lemma table_ok_sample_world : table_ok (db sample_world).
Proof.
  split.
  - cbn. repeat split; intros r' H;
      repeat (destruct H as [<-|H]; [cbn; lia|]); contradiction.
  - repeat constructor; cbn; try lia; tauto.
Qed.

Lemma ids_never_reused_witness :
  ~ In 4
      (map id
         (reminders
            (db (run_all (sample_parseDate host_ist) host_ist
                   sample_text_to_rowid
                   [AddReminder 42 "remind to stretch every monday 7am";
                    AddReminder 7 "call mom every sunday 6pm"]
                   (run (deleteReminder sample_text_to_rowid 42 "4")
                      sample_world))))).
Proof.
  assert (Hok : table_ok
                  (db (run (deleteReminder sample_text_to_rowid 42 "4")
                         sample_world))).
  { exact (proj1 (run_all_invariant (sample_parseDate host_ist) host_ist
                    sample_text_to_rowid [DeleteReminder 42 "4"] sample_world
                    table_ok_sample_world)). }
  apply (proj2 (proj2 (ids_never_reused (sample_parseDate host_ist) host_ist
                         sample_text_to_rowid _ _ Hok))).
  - cbn. lia.
  - cbn. intros [H|[H|[H|H]]]; try discriminate H. exact H.
Defined.

(** ** Owners *)

Lemma listReminders_run (chatId : Z) (w : World) :
  run (listReminders chatId) w =
  {| db := db w;
     outbox := (outbox w ++
                [(toString chatId,
                  listing (select_by_chat (toString chatId) (db w)))])%list |}.
Proof.
  unfold run, listReminders, bind, db_all_by_chat, listing.
  destruct (Nat.eqb _ _); reflexivity.
Qed.

Lemma filter_absorb {A} (p q : A -> bool) (l : list A) :
  (forall x, In x l -> q x = true -> p x = true) ->
  filter q (filter p l) = filter q l.
Proof.
  intros H. rewrite filter_filter. apply filter_ext_in. intros x Hx.
  destruct (q x) eqn:Hq; [now rewrite (H x Hx Hq) | apply andb_false_r].
Qed.

Lemma filter_map_fixed {A} (q : A -> bool) (f : A -> A) (l : list A) :
  (forall x, q (f x) = q x) -> (forall x, q x = true -> f x = x) ->
  filter q (map f l) = filter q l.
Proof.
  intros H1 H2. induction l as [|a l IH]; [reflexivity|].
  cbn [map filter]. rewrite H1, IH.
  destruct (q a) eqn:Hq; [now rewrite (H2 a Hq) | reflexivity].
Qed.

Lemma where_id_chat_other (t2r : string -> option Z) (v : SqlValue)
  (chat : string) (r : Row) :
  chat_id r <> chat -> where_id_chat t2r v chat r = false.
Proof.
  intros H. unfold where_id_chat. apply String.eqb_neq in H. rewrite H.
  apply andb_false_r.
Qed.

(** The rows of a chat are untouched by a step made for another chat. *)
Lemma select_by_chat_frame (chrono : string -> option Date) (tzo : Date -> Z)
  (t2r : string -> option Z) (c : Command) (a : Z) (other : string)
  (w : World) :
  sender c = Some a -> other <> toString a ->
  select_by_chat other (db (run (handle chrono tzo t2r c) w)) =
  select_by_chat other (db w).
Proof.
  intros Hs Hne.
  assert (Hother : forall v r, (chat_id r =? other)%string = true ->
                     where_id_chat t2r v (toString a) r = false).
  { intros v r Hr. apply where_id_chat_other. apply String.eqb_eq in Hr.
    congruence. }
  destruct c as [chatId m1|chatId|chatId m1|chatId m1|chatId m1 m2|now];
    cbn [sender] in Hs; try discriminate Hs; injection Hs as ->;
    cbn [handle]; unfold select_by_chat.
  - destruct (addReminder_db chrono tzo a m1 w)
      as [E | (mraw & draw & rest & parsedTime & _ & _ & _ & E)]; rewrite E;
      [reflexivity|].
    rewrite insert_all_rows, filter_app.
    rewrite (filter_none _ (new_rows _ _ _ _ _ _)); [apply app_nil_r|].
    intros r Hr. apply new_rows_fields in Hr as (Hc & _).
    apply String.eqb_neq. congruence.
  - now rewrite listReminders_db.
  - rewrite deleteReminder_db. cbn [delete_reminder fst reminders].
    apply filter_absorb. intros r _ Hr. now rewrite (Hother _ r Hr).
  - rewrite deleteReminders_db, delete_all_eq. cbn [reminders].
    apply filter_absorb. intros r _ Hr. apply forallb_forall.
    intros i _. now rewrite (Hother _ r Hr).
  - rewrite updateReminder_db. cbn [update_reminder fst reminders].
    apply filter_map_fixed.
    + intros r. now destruct (where_id_chat _ _ _ r).
    + intros r Hr. now rewrite (Hother _ r Hr).
Qed.

(** X4. A command of one chat does not touch the reminders of another
    chat: the rows the other chat owns are the same before and after, and
    so is the listing the other chat gets. *)
Theorem commands_keep_other_chats
  (chrono : string -> option Date) (tzo : Date -> Z)
  (t2r : string -> option Z) (c : Command) (a b : Z) (w : World) :
  sender c = Some a -> b <> a ->
  let w' := run (handle chrono tzo t2r c) w in
  select_by_chat (toString b) (db w') = select_by_chat (toString b) (db w) /\
  outbox (run (listReminders b) w') =
    (outbox w' ++
     [(toString b, listing (select_by_chat (toString b) (db w)))])%list.
Proof.
  intros Hs Hne w'.
  assert (E : select_by_chat (toString b) (db w') =
              select_by_chat (toString b) (db w)).
  { apply (select_by_chat_frame chrono tzo t2r c a); [exact Hs|].
    intros H. apply Hne. now apply toString_injective. }
  split; [exact E|]. rewrite listReminders_run. cbn [outbox]. now rewrite E.
Qed.

Lemma commands_keep_other_chats_witness :
  select_by_chat "7"
    (db (run (handle (sample_parseDate host_ist) host_ist sample_text_to_rowid
                (DeleteReminders 42 "1,2,3,4")) sample_world)) =
  [mkRow 2 "7" "call mom" "wednesday" "20:00" "yes"].
Proof.
  exact (proj1 (commands_keep_other_chats (sample_parseDate host_ist) host_ist
                  sample_text_to_rowid (DeleteReminders 42 "1,2,3,4") 42 7
                  sample_world eq_refl ltac:(discriminate))).
Defined.

(** ** Deleting and updating a reminder that is there *)

Lemma where_id_chat_integer (t2r : string -> option Z) (k : Z) (chat : string)
  (r : Row) :
  where_id_chat t2r (SqlInteger k) chat r = true <->
  id r = k /\ chat_id r = chat.
Proof.
  unfold where_id_chat. cbn [id_equals].
  now rewrite andb_true_iff, Z.eqb_eq, String.eqb_eq.
Qed.

Lemma filter_nonempty_length {A} (p : A -> bool) (l : list A) (x : A) :
  In x l -> p x = true ->
  (Z.of_nat (List.length (filter p l)) =? 0) = false.
Proof.
  intros Hx Hp. assert (H : In x (filter p l)) by now apply filter_In.
  destruct (filter p l); [contradiction | reflexivity].
Qed.

(** X5. The id a listing shows for a reminder, given back to
    /deleteReminder by the owner, deletes that reminder and nothing else
    (the ids of the table being distinct): the reply announces the
    deletion, the other rows stay, in their order, and the key counter is
    as before. *)
Theorem delete_by_listed_id
  (t2r : string -> option Z) (chatId : Z) (r : Row) (w : World) :
  In r (reminders (db w)) ->
  chat_id r = toString chatId ->
  NoDup (map id (reminders (db w))) ->
  let w' := run (deleteReminder t2r chatId (toString (id r))) w in
  outbox w' =
    (outbox w ++ [(toString chatId, msg_deleted (toString (id r)))])%list /\
  (forall r', In r' (reminders (db w')) <->
              In r' (reminders (db w)) /\ r' <> r) /\
  Subseq (reminders (db w')) (reminders (db w)) /\
  sqlite_sequence (db w') = sqlite_sequence (db w).
Proof.
  intros Hr Hc Hn w'.
  assert (Hw : where_id_chat t2r (SqlInteger (id r)) (toString chatId) r = true)
    by now apply where_id_chat_integer.
  split; [|split; [|split]].
  - subst w'. unfold run, deleteReminder, bind, db_run_delete. cbv zeta.
    rewrite parseInt_of_toString. cbn [number_param number_text delete_reminder].
    now rewrite (filter_nonempty_length _ _ r Hr Hw).
  - subst w'. rewrite deleteReminder_db, parseInt_of_toString.
    cbn [number_param delete_reminder fst reminders]. intros r'.
    rewrite filter_In, negb_true_iff. split; intros [Hr' H]; split;
      try exact Hr'.
    + intros ->. congruence.
    + apply not_true_is_false. intros Ht.
      apply where_id_chat_integer in Ht as [Hid _]. apply H.
      exact (NoDup_ids_same_row _ _ _ Hn Hr' Hr Hid).
  - subst w'. rewrite deleteReminder_db. cbn [delete_reminder fst reminders].
    apply Subseq_filter.
  - subst w'. now rewrite deleteReminder_db.
Qed.

Lemma delete_by_listed_id_witness :
  reminders (db (run (deleteReminder sample_text_to_rowid 42 "3") sample_world)) =
  [mkRow 1 "42" "to take out waste" "wednesday" "20:00" "yes";
   mkRow 2 "7" "call mom" "wednesday" "20:00" "yes";
   mkRow 4 "42" "to take out waste" "thursday" "20:00" "yes"] /\
  outbox (run (deleteReminder sample_text_to_rowid 42 "3") sample_world) =
  [("42", msg_deleted "3")].
Proof.
  split; [reflexivity|].
  refine (proj1 (delete_by_listed_id sample_text_to_rowid 42
                   (mkRow 3 "42" "stretch" "wednesday" "20:01" "yes")
                   sample_world _ eq_refl _)).
  - simpl. tauto.
  - apply ids_increasing_NoDup, table_ok_sample_world.
Defined.

(** X6. An update that reaches a row is answered with "... updated."; and
    an update is idempotent: sent a second time, it leaves the table as
    the first one left it and gets the same answer. *)
Theorem update_reply_and_idempotence
  (t2r : string -> option Z) (chatId : Z) (m1 m2 : string) (w : World) :
  let w1 := run (updateReminder t2r chatId m1 m2) w in
  let w2 := run (updateReminder t2r chatId m1 m2) w1 in
  (forall r, In r (reminders (db w)) ->
             parseInt m1 = Some (id r) -> chat_id r = toString chatId ->
             outbox w1 =
             (outbox w ++
              [(toString chatId, msg_updated (toString (id r)))])%list) /\
  db w2 = db w1 /\
  (exists reply, outbox w1 = (outbox w ++ [reply])%list /\
                 outbox w2 = (outbox w1 ++ [reply])%list).
Proof.
  intros w1 w2.
  set (hit := where_id_chat t2r (number_param (parseInt m1)) (toString chatId)).
  set (f := fun r => if hit r then set_message m2 r else r).
  assert (Hhit : forall r, hit (f r) = hit r).
  { intros r. unfold f. now destruct (hit r) eqn:E. }
  assert (Hff : forall rows, map f (map f rows) = map f rows).
  { intros rows. rewrite map_map. apply map_ext. intros r. unfold f at 1.
    rewrite Hhit. unfold f. now destruct (hit r). }
  assert (Hcount : forall rows, List.length (filter hit (map f rows)) =
                                List.length (filter hit rows)).
  { induction rows as [|r rows IH]; [reflexivity|]. cbn [map filter].
    rewrite Hhit. destruct (hit r); cbn [List.length]; now rewrite IH. }
  assert (E1 : w1 =
    {| db := {| reminders := map f (reminders (db w));
                sqlite_sequence := sqlite_sequence (db w) |};
       outbox := (outbox w ++
         [(toString chatId,
           if Z.of_nat (List.length (filter hit (reminders (db w)))) =? 0
           then msg_not_found (number_text (parseInt m1))
           else msg_updated (number_text (parseInt m1)))])%list |}).
  { subst w1. unfold run, updateReminder, bind, db_run_update. cbv zeta.
    cbn [update_reminder]. fold hit. fold f.
    now destruct (Z.of_nat (List.length (filter hit (reminders (db w)))) =? 0). }
  assert (E2 : w2 =
    {| db := db w1;
       outbox := (outbox w1 ++
         [(toString chatId,
           if Z.of_nat (List.length (filter hit (reminders (db w)))) =? 0
           then msg_not_found (number_text (parseInt m1))
           else msg_updated (number_text (parseInt m1)))])%list |}).
  { subst w2. unfold run, updateReminder, bind, db_run_update. cbv zeta.
    cbn [update_reminder]. fold hit. fold f. rewrite E1.
    cbn [db reminders sqlite_sequence outbox]. rewrite Hff, Hcount.
    now destruct (Z.of_nat (List.length (filter hit (reminders (db w)))) =? 0). }
  split; [|split].
  - intros r Hr Hid Hc. rewrite E1. cbn [outbox].
    rewrite (filter_nonempty_length hit _ r Hr).
    + now rewrite Hid.
    + unfold hit. rewrite Hid. now apply where_id_chat_integer.
  - now rewrite E2.
  - eexists. rewrite E2, E1. cbn [outbox]. split; reflexivity.
Qed.

Lemma update_reply_and_idempotence_witness :
  outbox (run (updateReminder sample_text_to_rowid 7 "2" "Call Mom NOW")
            sample_world) = [("7", msg_updated "2")].
Proof.
  refine (proj1 (update_reply_and_idempotence sample_text_to_rowid 7 "2"
                   "Call Mom NOW" sample_world)
            (mkRow 2 "7" "call mom" "wednesday" "20:00" "yes") _ eq_refl eq_refl).
  simpl. tauto.
Defined.

(** ** From an addition to the listing and to the tick *)

Lemma new_rows_for_day (k : Z) (chat msg tm rec : string)
  (days : list string) (day : string) :
  In day days ->
  exists r, In r (new_rows k chat msg tm rec days) /\
            day_of_week r = day /\ chat_id r = chat /\ message r = msg /\
            time r = tm.
Proof.
  intros H. rewrite <- (new_rows_days k chat msg tm rec days) in H.
  apply in_map_iff in H as (r & Hd & Hr). exists r.
  pose proof (new_rows_fields _ _ _ _ _ _ _ Hr) as (? & ? & ? & _).
  tauto.
Qed.

Lemma select_by_chat_new_rows (k : Z) (chat msg tm rec : string)
  (days : list string) :
  filter (fun r => (chat_id r =? chat)%string)
    (new_rows k chat msg tm rec days) = new_rows k chat msg tm rec days.
Proof.
  apply filter_all. intros r Hr. apply new_rows_fields in Hr as (-> & _).
  apply String.eqb_refl.
Qed.

(** X7. After an accepted /addReminder, in whatever order the database
    executes the INSERTs, the chat's listing shows the rows it had,
    followed by the new ones: one per day found, each with the message and
    the time of the addition (so the listing is not the "no reminders"
    text); and a tick at an instant whose local day is one of these days
    and whose local time HH:MM is the stored time sends the chat
    "Reminder: " and the message. *)
Theorem added_reminder_is_listed_and_fires
  (lower jtrim jtrimStart : string -> string)
  (executed : list string -> list string)
  (chrono : string -> option Date) (tzo : Date -> Z) (chatId : Z)
  (m1 : string) (w : World) (mraw draw : string) (rest : list string)
  (parsedTime : Date) :
  (forall l, Permutation (executed l) l) ->
  split (lower m1) "every" = mraw :: draw :: rest ->
  foundDays_on lower (jtrim draw) <> [] ->
  chrono (timePart_of (jtrim draw)) = Some parsedTime ->
  let w' :=
    run (addReminderOn lower jtrim jtrimStart executed chrono tzo chatId m1)
      w in
  let timeStr :=
    toTimeString_slice5 tzo (moment_tz_keepLocalTime tzo parsedTime) in
  let messagePart := jtrim (replace_remind_on jtrimStart mraw) in
  (exists created,
     select_by_chat (toString chatId) (db w') =
       (select_by_chat (toString chatId) (db w) ++ created)%list /\
     Permutation (map day_of_week created) (foundDays_on lower (jtrim draw)) /\
     Forall (fun r => chat_id r = toString chatId /\
                      message r = messagePart /\ time r = timeStr) created) /\
  listing (select_by_chat (toString chatId) (db w')) <> msg_no_reminders /\
  (forall now,
     In (nth (Z.to_nat (getDay tzo now)) daysOfWeek "")
        (foundDays_on lower (jtrim draw)) ->
     toTimeString_slice5 tzo now = timeStr ->
     In (toString chatId, msg_reminder messagePart)
        (outbox (run (scheduler tzo now) w'))).
Proof.
  intros Hex Hs Hd Ht w' timeStr messagePart.
  set (days := executed (foundDays_on lower (jtrim draw))).
  assert (E : db w' =
              insert_all (toString chatId) messagePart timeStr "yes" days
                (db w)).
  { subst w'. unfold run.
    now rewrite (addReminderOn_ok _ _ _ _ _ _ _ _ _ _ _ _ _ Hs Hd Ht). }
  assert (L : select_by_chat (toString chatId) (db w') =
    (select_by_chat (toString chatId) (db w) ++
     new_rows (next_rowid (db w)) (toString chatId) messagePart timeStr "yes"
       days)%list).
  { unfold select_by_chat. rewrite E, insert_all_rows, filter_app.
    now rewrite select_by_chat_new_rows. }
  split; [|split].
  - eexists. split; [exact L|]. split.
    + rewrite new_rows_days. apply Hex.
    + apply Forall_forall. intros r Hr.
      apply new_rows_fields in Hr. tauto.
  - rewrite L. unfold listing.
    assert (Hl : List.length days <> O).
    { unfold days. rewrite (Permutation_length (Hex _)).
      destruct (foundDays_on lower (jtrim draw)); [congruence | discriminate]. }
    rewrite length_app, new_rows_length.
    destruct (List.length days); [congruence|].
    rewrite Nat.add_succ_r. cbn [Nat.eqb]. discriminate.
  - intros now Hday Htime.
    assert (Hday' : In (nth (Z.to_nat (getDay tzo now)) daysOfWeek "") days).
    { unfold days. eapply Permutation_in; [apply Permutation_sym, Hex|].
      exact Hday. }
    destruct (new_rows_for_day (next_rowid (db w)) (toString chatId)
                messagePart timeStr "yes" _ _ Hday')
      as (r & Hr & Hrd & Hrc & Hrm & Hrt).
    unfold run, scheduler, bind, db_all_due. cbv zeta.
    rewrite forEach_sendMessage. cbn [snd outbox db]. apply in_app_iff. right.
    apply in_map_iff. exists r. split; [now rewrite Hrc, Hrm|].
    apply select_due_iff. rewrite E, insert_all_rows, in_app_iff.
    rewrite Htime. tauto.
Qed.

Lemma added_reminder_is_listed_and_fires_witness :
  In ("42", msg_reminder "to take out waste")
     (outbox (run (scheduler host_ist sample_now)
                (run (addReminderOn toLowerCase trim trimStart (@rev string)
                        (sample_parseDate host_ist) host_ist 42
                        "remind to take out waste every sunday and wednesday 8pm")
                   empty_world))).
Proof.
  exact (proj2 (proj2
           (added_reminder_is_listed_and_fires toLowerCase trim trimStart
              (@rev string) (sample_parseDate host_ist)
              host_ist 42
              "remind to take out waste every sunday and wednesday 8pm"
              empty_world "remind to take out waste "
              " sunday and wednesday 8pm" []
              (sample_midnight + 20 * 3600000 - 330 * 60000)
              (fun l => Permutation_sym (Permutation_rev l))
              eq_refl ltac:(discriminate) eq_refl))
           sample_now ltac:(cbn; tauto) eq_refl).
Defined.

(** ** The time of a tick *)

(** X8. On a host whose offset from UTC is fixed, whatever it is, the
    time stored for a reminder is the time of a tick exactly when the
    clocks in India show, at the tick, the time of day the time parser
    read (in the local time of the host): reminders fire by Indian
    time. *)
Theorem stored_time_fires_at_india_time (o : Z) (parsedTime now : Date) :
  let tzo : Date -> Z := fun _ => o in
  toTimeString_slice5 tzo now =
    toTimeString_slice5 tzo (moment_tz_keepLocalTime tzo parsedTime) <->
  minutes_of_day host_ist now = minutes_of_day tzo parsedTime.
Proof.
  intros tzo. unfold tzo, host_ist.
  rewrite toTimeString_slice5_eq, minutes_after_tz, !minutes_of_day_fixed.
  unfold kolkata_offset. rewrite Zplus_mod_idemp_l, !Z.cong_iff_0.
  replace (now / 60000 - o - (parsedTime / 60000 - o + (- o - 330)))
    with (now / 60000 - -330 - (parsedTime / 60000 - o)) by ring.
  reflexivity.
Qed.

Lemma stored_time_fires_at_india_time_witness :
  toTimeString_slice5 host_utc sample_now =
  toTimeString_slice5 host_utc
    (moment_tz_keepLocalTime host_utc (sample_midnight + 20 * 3600000)).
Proof.
  exact (proj2 (stored_time_fires_at_india_time 0 (sample_midnight + 20 * 3600000)
                  sample_now) eq_refl).
Defined.

(** X9. On a host whose offset from UTC is fixed, a tick any number of
    weeks later falls on the same day of the week and the same time
    HH:MM, so it sends the same reminders out of the same table: every
    reminder recurs weekly. *)
Theorem scheduler_weekly (o k : Z) (now : Date) (w : World) :
  let tzo : Date -> Z := fun _ => o in
  getDay tzo (now + k * week_ms) = getDay tzo now /\
  toTimeString_slice5 tzo (now + k * week_ms) = toTimeString_slice5 tzo now /\
  run (scheduler tzo (now + k * week_ms)) w = run (scheduler tzo now) w.
Proof.
  intros tzo.
  assert (Hd : getDay tzo (now + k * week_ms) = getDay tzo now).
  { unfold getDay, localTime, tzo, week_ms.
    replace (now + k * (7 * 86400000) - o * 60000)
      with (now - o * 60000 + (k * 7) * 86400000) by ring.
    rewrite Z.div_add by lia.
    replace (_ / 86400000 + k * 7 + 4)
      with ((now - o * 60000) / 86400000 + 4 + k * 7) by ring.
    apply Z_mod_plus_full. }
  assert (Ht : toTimeString_slice5 tzo (now + k * week_ms) =
               toTimeString_slice5 tzo now).
  { apply toTimeString_slice5_eq. unfold tzo.
    rewrite !minutes_of_day_fixed. unfold week_ms.
    replace (now + k * (7 * 86400000)) with (now + (k * 10080) * 60000) by ring.
    rewrite Z.div_add by lia.
    replace (now / 60000 + k * 10080 - o)
      with (now / 60000 - o + (k * 7) * 1440) by ring.
    apply Z_mod_plus_full. }
  split; [exact Hd|]. split; [exact Ht|].
  unfold run, scheduler. cbv zeta. now rewrite Hd, Ht.
Qed.

(** ** Deleting several reminders: what is deleted *)


Lemma forallb_Permutation {A} (f : A -> bool) (l l' : list A) :
  Permutation l l' -> forallb f l = forallb f l'.
Proof.
  induction 1 as [|x l l' _ IH|x y l|l1 l2 l3 _ IH1 _ IH2]; cbn [forallb].
  - reflexivity.
  - now rewrite IH.
  - now rewrite !andb_assoc, (andb_comm (f y)).
  - now rewrite IH1.
Qed.



(** ** Deleting several reminders: which tokens are kept *)

Lemma trimEnd_fixed (s : string) :
  all_chars (fun c => negb (isWhiteSpace c)) s = true -> trimEnd s = s.
Proof.
  induction s as [|c s IH]; [reflexivity|].
  rewrite all_chars_cons, andb_true_iff, negb_true_iff. intros [Hc Hs].
  cbn [trimEnd]. rewrite (IH Hs), Hc. now destruct s.
Qed.

Lemma trim_fixed (s : string) :
  all_chars (fun c => negb (isWhiteSpace c)) s = true -> trim s = s.
Proof.
  intros H. unfold trim.
  assert (E : trimStart s = s).
  { destruct s as [|c s]; [reflexivity|].
    rewrite all_chars_cons, andb_true_iff, negb_true_iff in H.
    cbn [trimStart]. now rewrite (proj1 H). }
  rewrite E. now apply trimEnd_fixed.
Qed.

Lemma all_chars_impl (p q : ascii -> bool) (s : string) :
  (forall c, p c = true -> q c = true) ->
  all_chars p s = true -> all_chars q s = true.
Proof.
  intros H. induction s as [|c s IH]; [reflexivity|].
  rewrite !all_chars_cons, !andb_true_iff. intros [Hc Hs].
  split; [now apply H | now apply IH].
Qed.

Lemma digit_not_space (c : ascii) :
  isDigit c = true -> negb (isWhiteSpace c) = true.
Proof. intros H. now rewrite (proj1 (digit_facts c H)). Qed.

Lemma letter_facts (c : ascii) :
  isLetter c = true ->
  isWhiteSpace c = false /\ isDigit c = false.
Proof.
  destruct c as [[] [] [] [] [] [] [] []]; intros H; try discriminate H;
    split; reflexivity.
Qed.

Lemma isNaN_Number_digits (s : string) :
  s <> "" -> all_chars isDigit s = true -> isNaN_Number s = false.
Proof.
  intros Hne H. unfold isNaN_Number. cbv zeta.
  rewrite (trim_fixed s) by (exact (all_chars_impl _ _ _ digit_not_space H)).
  apply negb_false_iff. apply orb_true_iff. left. apply orb_true_iff. right.
  destruct s as [|c r]; [congruence|].
  pose proof H as Hall. rewrite all_chars_cons, andb_true_iff in H.
  destruct H as [Hc _].
  assert (U : unsigned_decimal (String c r) = true).
  { unfold unsigned_decimal. rewrite (span_digits_all _ Hall).
    apply orb_true_iff. right. reflexivity. }
  destruct c as [[] [] [] [] [] [] [] []]; try discriminate Hc; exact U.
Qed.

Lemma isNaN_Number_letters (s : string) :
  s <> "" -> s <> "Infinity" -> all_chars isLetter s = true ->
  isNaN_Number s = true.
Proof.
  intros Hne Hinf H. unfold isNaN_Number. cbv zeta.
  rewrite (trim_fixed s)
    by (apply (all_chars_impl isLetter); [|exact H];
        intros c Hc; now rewrite (proj1 (letter_facts c Hc))).
  destruct s as [|c r]; [congruence|].
  rewrite all_chars_cons, andb_true_iff in H. destruct H as [Hc _].
  destruct (letter_facts c Hc) as [_ Hd].
  assert (U : unsigned_decimal (String c r) = false).
  { unfold unsigned_decimal. apply String.eqb_neq in Hinf. rewrite Hinf.
    cbn [span_digits orb]. rewrite Hd.
    destruct c as [[] [] [] [] [] [] [] []]; try discriminate Hc; reflexivity. }
  assert (S : signed_decimal (String c r) = false).
  { destruct c as [[] [] [] [] [] [] [] []]; try discriminate Hc; exact U. }
  assert (N : non_decimal (String c r) = false).
  { destruct c as [[] [] [] [] [] [] [] []]; try discriminate Hc; reflexivity. }
  rewrite S, N. reflexivity.
Qed.

(** X11. Of the comma-separated tokens of the argument, trimmed, every
    decimal numeral is kept as an id to delete, and every word made of
    letters is dropped, the word "Infinity" apart; no other text than a
    trimmed token is ever used as an id, and the ids are tried in the
    order of the argument. *)
Theorem reminderIds_kept_and_dropped (m1 t : string) :
  In t (map trim (split m1 ",")) ->
  (t <> "" -> all_chars isDigit t = true -> In t (reminderIds_of m1)) /\
  (t <> "" -> t <> "Infinity" -> all_chars isLetter t = true ->
   ~ In t (reminderIds_of m1)) /\
  (forall i, In i (reminderIds_of m1) -> In i (map trim (split m1 ","))) /\
  Subseq (reminderIds_of m1) (map trim (split m1 ",")).
Proof.
  intros Ht. unfold reminderIds_of. split; [|split; [|split]].
  - intros Hne Hd. apply filter_In. split; [exact Ht|].
    now rewrite isNaN_Number_digits.
  - intros Hne Hinf Hl Hin. apply filter_In in Hin as [_ Hin].
    now rewrite isNaN_Number_letters in Hin.
  - intros i Hi. now apply filter_In in Hi.
  - apply Subseq_filter.
Qed.

Lemma reminderIds_kept_and_dropped_witness :
  In "12" (reminderIds_of "7, abc ,12") /\ ~ In "abc" (reminderIds_of "7, abc ,12").
Proof.
  split.
  - refine (proj1 (reminderIds_kept_and_dropped "7, abc ,12" "12" _) _ eq_refl);
      [cbn; tauto | discriminate].
  - refine (proj1 (proj2 (reminderIds_kept_and_dropped "7, abc ,12" "abc" _))
              _ _ eq_refl); [cbn; tauto | discriminate | discriminate].
Defined.

(** ** Replies *)

Lemma addReminder_reply (chrono : string -> option Date) (tzo : Date -> Z)
  (chatId : Z) (m1 : string) (w : World) :
  exists text,
    outbox (run (addReminder chrono tzo chatId m1) w) =
    (outbox w ++ [(toString chatId, text)])%list.
Proof.
  unfold run.
  destruct (includes (toLowerCase m1) "every") eqn:Hi.
  - destruct (split_two_pieces (toLowerCase m1) "e" "very" Hi)
      as (i & rest & _ & Hs).
    match type of Hs with _ = ?a :: ?b :: _ => set (mraw := a) in *;
      set (draw := b) in * end.
    destruct (foundDays_of (trim draw)) as [|day days] eqn:Hd.
    + rewrite (addReminder_no_days _ _ _ _ _ _ _ _ Hs Hd). eexists. reflexivity.
    + assert (Hne : foundDays_of (trim draw) <> []) by (rewrite Hd; discriminate).
      destruct (chrono (timePart_of (trim draw))) as [parsedTime|] eqn:Ht.
      * rewrite (addReminder_ok _ _ _ _ _ _ _ _ _ Hs Hne Ht). eexists.
        reflexivity.
      * rewrite (addReminder_no_time _ _ _ _ _ _ _ _ Hs Hne Ht). eexists.
        reflexivity.
  - rewrite addReminder_no_every by exact Hi. eexists. reflexivity.
Qed.

Lemma handle_reply (chrono : string -> option Date) (tzo : Date -> Z)
  (t2r : string -> option Z) (c : Command) (a : Z) (w : World) :
  sender c = Some a ->
  exists text,
    outbox (run (handle chrono tzo t2r c) w) =
    (outbox w ++ [(toString a, text)])%list.
Proof.
  intros Hs.
  destruct c as [chatId m1|chatId|chatId m1|chatId m1|chatId m1 m2|now];
    cbn [sender] in Hs; try discriminate Hs; injection Hs as ->;
    cbn [handle].
  - apply addReminder_reply.
  - rewrite listReminders_run. eexists. reflexivity.
  - unfold run, deleteReminder, bind, db_run_delete. cbv zeta.
    destruct (delete_reminder t2r (number_param (parseInt m1)) (toString a)
                (db w)) as [d changes].
    destruct (changes =? 0); eexists; reflexivity.
  - unfold run. destruct (reminderIds_of m1) as [|i ids] eqn:E.
    + rewrite deleteReminders_rejected by exact E. eexists. reflexivity.
    + rewrite deleteReminders_attempted by (rewrite E; discriminate).
      eexists. reflexivity.
  - unfold run, updateReminder, bind, db_run_update. cbv zeta.
    destruct (update_reminder t2r m2 (number_param (parseInt m1)) (toString a)
                (db w)) as [d changes].
    destruct (changes =? 0); eexists; reflexivity.
Qed.

(** ** The dispatch of a message *)

Lemma in_when {A} (o : option A) (f : A -> Call) (k : Call) :
  In k (when o f) -> exists a, o = Some a /\ k = f a.
Proof.
  destruct o as [a|]; cbn [when]; [|contradiction].
  intros [<-|[]]. now exists a.
Qed.

(** What a triggered handler is called with. *)
Lemma dispatch_calls (chatId : Z) (text : string) (k : Call) :
  In k (dispatch chatId text) ->
  k = CallStart chatId \/
  (exists m1, regexp_exec "/addreminder " true group_dot_plus text = Some m1 /\
              k = CallCommand (AddReminder chatId m1)) \/
  k = CallCommand (ListReminders chatId) \/
  (exists m1, regexp_exec "/deleteReminder " false group_digits text = Some m1 /\
              k = CallCommand (DeleteReminder chatId m1)) \/
  (exists m1, regexp_exec "/deletereminders " true group_dot_plus text = Some m1 /\
              k = CallCommand (DeleteReminders chatId m1)) \/
  (exists m, regexp_exec "/updateReminder " false group_digits_dot_plus text
             = Some m /\
             k = CallCommand (UpdateReminder chatId (fst m) (snd m))).
Proof.
  unfold dispatch. rewrite !in_app_iff.
  intros [H|[H|[H|[H|[H|H]]]]].
  - destruct (includes text "/start"); [|contradiction].
    destruct H as [<-|[]]. now left.
  - apply in_when in H. tauto.
  - destruct (includes text "/listReminders"); [|contradiction].
    destruct H as [<-|[]]. tauto.
  - apply in_when in H. tauto.
  - apply in_when in H. tauto.
  - apply in_when in H. tauto.
Qed.

(** X12. Every handler that a message triggers sends exactly one reply,
    and sends it to the chat the message came from. *)
Theorem triggered_handler_replies_once
  (chrono : string -> option Date) (tzo : Date -> Z)
  (t2r : string -> option Z) (chatId : Z) (text : string) (k : Call)
  (w : World) :
  In k (dispatch chatId text) ->
  exists reply,
    outbox (run (call chrono tzo t2r k) w) =
    (outbox w ++ [(toString chatId, reply)])%list.
Proof.
  intros H. apply dispatch_calls in H.
  destruct H as [->|[(m1 & _ & ->)|[->|[(m1 & _ & ->)|[(m1 & _ & ->)|(m & _ & ->)]]]]];
    cbn [call]; try (now apply handle_reply).
  eexists. reflexivity.
Qed.

Lemma triggered_handler_replies_once_witness :
  exists reply,
    outbox (run (call (sample_parseDate host_ist) host_ist sample_text_to_rowid
                   (CallCommand (DeleteReminders 42 "1,x")))
              sample_world) = [("42", reply)].
Proof.
  apply (triggered_handler_replies_once (sample_parseDate host_ist) host_ist
           sample_text_to_rowid 42 "/deleteReminders 1,x"
           (CallCommand (DeleteReminders 42 "1,x")) sample_world).
  cbn. tauto.
Defined.

Lemma regexp_exec_some {A} (lit : string) (i_flag : bool)
  (groups : string -> option A) (s : string) (a : A) :
  regexp_exec lit i_flag groups s = Some a -> exists t, groups t = Some a.
Proof.
  induction s as [|c s IH]; cbn [regexp_exec];
    destruct (if (if i_flag then prefix_i lit _ else prefix lit _)
              then groups _ else None) eqn:E.
  - intros [= <-]. destruct (if i_flag then _ else _); [eauto | discriminate].
  - discriminate.
  - intros [= <-]. destruct (if i_flag then _ else _); [eauto | discriminate].
  - exact IH.
Qed.

Lemma span_digits_take (s : string) :
  all_chars isDigit (str_take (fst (span_digits s)) s) = true.
Proof.
  induction s as [|c s IH]; [reflexivity|]. cbn [span_digits].
  destruct (isDigit c) eqn:Hc; [|reflexivity].
  destruct (span_digits s) as [n r]. cbn [fst str_take] in *.
  now rewrite all_chars_cons, Hc, IH.
Qed.

Lemma digits_value_nonneg (s : string) (acc : Z) :
  0 <= acc -> 0 <= digits_value acc s.
Proof.
  revert acc; induction s as [|c s IH]; intros acc H; cbn [digits_value];
    [exact H|].
  destruct (isDigit c) eqn:Hc; [|exact H]. apply IH.
  destruct (digit_facts c Hc) as (_ & _ & _ & _ & Hv). lia.
Qed.

Lemma digits_value_bound (s : string) (acc : Z) :
  all_chars isDigit s = true -> 0 <= acc ->
  digits_value acc s < (acc + 1) * 10 ^ Z.of_nat (String.length s).
Proof.
  revert acc; induction s as [|c s IH]; intros acc H Hacc.
  - cbn. lia.
  - rewrite all_chars_cons, andb_true_iff in H. destruct H as [Hc Hs].
    cbn [digits_value String.length]. rewrite Hc.
    destruct (digit_facts c Hc) as (_ & _ & _ & _ & Hv).
    specialize (IH (10 * acc + digit_value c) Hs ltac:(lia)).
    rewrite Nat2Z.inj_succ, Z.pow_succ_r by lia.
    assert (0 < 10 ^ Z.of_nat (String.length s)) by (apply Z.pow_pos_nonneg; lia).
    nia.
Qed.

Lemma group_digits_numeral (s m : string) :
  group_digits s = Some m ->
  m <> "" /\ all_chars isDigit m = true /\ parseInt m <> None /\
  ((String.length m <= 15)%nat ->
   exists n, parseInt m = Some n /\ 0 <= n < 10 ^ 15).
Proof.
  unfold group_digits. pose proof (span_digits_take s) as H.
  destruct (fst (span_digits s)) as [|n] eqn:E; [discriminate|].
  intros Em. assert (Em' : m = str_take (S n) s) by congruence.
  clear Em. subst m.
  assert (Hne : str_take (S n) s <> "").
  { destruct s; [discriminate E | discriminate]. }
  split; [exact Hne|]. split; [exact H|].
  rewrite (parseInt_digits _ Hne H). split; [discriminate|].
  intros Hlen. eexists. split; [reflexivity|].
  split; [apply digits_value_nonneg; lia|].
  pose proof (digits_value_bound _ 0 H ltac:(lia)) as B.
  eapply Z.lt_le_trans; [exact B|]. rewrite Z.mul_1_l.
  apply Z.pow_le_mono_r; lia.
Qed.

Lemma line_terminator_at_dot_star (c : ascii) (s : string) :
  line_terminator_at (String c (dot_star s)) = true ->
  line_terminator_at (String c s) = true.
Proof.
  cbn [line_terminator_at].
  destruct ((code c =? 10)%N || (code c =? 13)%N); [reflexivity|].
  destruct (code c =? 226)%N; [|intros H; exact H]. cbn [orb andb].
  destruct s as [|c2 s2]; [intros H; exact H|]. cbn [dot_star].
  destruct (line_terminator_at (String c2 s2)); [discriminate|].
  destruct s2 as [|c3 s3]; [intros H; exact H|]. cbn [dot_star].
  destruct (line_terminator_at (String c3 s3)); [discriminate|].
  intros H; exact H.
Qed.

Lemma dot_star_one_line (s : string) : one_line (dot_star s) = true.
Proof.
  induction s as [|c s IH]; [reflexivity|]. cbn [dot_star].
  destruct (line_terminator_at (String c s)) eqn:Hc; [reflexivity|].
  cbn [one_line]. rewrite IH, andb_true_r. apply negb_true_iff.
  destruct (line_terminator_at (String c (dot_star s))) eqn:E; [|reflexivity].
  apply line_terminator_at_dot_star in E. congruence.
Qed.

Lemma group_dot_plus_line (s m : string) :
  group_dot_plus s = Some m -> m <> "" /\ one_line m = true.
Proof.
  unfold group_dot_plus. pose proof (dot_star_one_line s) as H.
  destruct (dot_star s); [discriminate|]. intros [= <-].
  split; [discriminate | exact H].
Qed.

(** X13. The id a message hands to /deleteReminder or /updateReminder is
    a non-empty decimal numeral, which [parseInt] does not read as NaN and,
    when it has at most fifteen digits, reads as the integer below 10^15
    it denotes; the argument handed to /addReminder and /deleteReminders
    and the new message handed to /updateReminder are non-empty and
    contain no line terminator (LF, CR, U+2028, U+2029); and no message
    triggers a tick. *)
Theorem dispatch_arguments (chatId : Z) (text : string) (c : Command) :
  In (CallCommand c) (dispatch chatId text) ->
  let numeral (m : string) :=
    m <> "" /\ all_chars isDigit m = true /\ parseInt m <> None /\
    ((String.length m <= 15)%nat ->
     exists n, parseInt m = Some n /\ 0 <= n < 10 ^ 15) in
  let line (m : string) := m <> "" /\ one_line m = true in
  sender c = Some chatId /\
  match c with
  | AddReminder _ m1 => line m1
  | DeleteReminders _ m1 => line m1
  | DeleteReminder _ m1 => numeral m1
  | UpdateReminder _ m1 m2 => numeral m1 /\ line m2
  | ListReminders _ => True
  | Tick _ => False
  end.
Proof.
  intros H numeral line. apply dispatch_calls in H.
  destruct H as [H|[(m1 & E & H)|[H|[(m1 & E & H)|[(m1 & E & H)|(m & E & H)]]]]];
    try discriminate H; injection H as ->; (split; [reflexivity|]).
  - apply regexp_exec_some in E as [t E]. exact (group_dot_plus_line _ _ E).
  - exact I.
  - apply regexp_exec_some in E as [t E]. exact (group_digits_numeral _ _ E).
  - apply regexp_exec_some in E as [t E]. exact (group_dot_plus_line _ _ E).
  - apply regexp_exec_some in E as [t E]. unfold group_digits_dot_plus in E.
    destruct (fst (span_digits t)) as [|n] eqn:En; [discriminate|].
    destruct (str_drop (S n) t) as [|sp rest]; [discriminate|].
    destruct sp as [[] [] [] [] [] [] [] []]; try discriminate E.
    destruct (group_dot_plus rest) as [m2|] eqn:E2; [|discriminate].
    injection E as <-. cbn [fst snd]. split.
    + apply (group_digits_numeral t). unfold group_digits. now rewrite En.
    + exact (group_dot_plus_line _ _ E2).
Qed.

Lemma dispatch_arguments_witness :
  ("12" <> "" /\ one_line "Stretch NOW" = true) /\
  exists n, parseInt "12" = Some n /\ 0 <= n < 10 ^ 15.
Proof.
  assert (H : In (CallCommand (UpdateReminder 42 "12" "Stretch NOW"))
                (dispatch 42 ("say /updateReminder 12 Stretch NOW"
                              ++ newline ++ "please")))
    by (cbn; tauto).
  destruct (dispatch_arguments 42 _ _ H) as (_ & (Hne & _ & _ & Hn) & _ & Hl).
  split; [split; [exact Hne | exact Hl]|].
  apply Hn. cbn. lia.
Defined.

Lemma not_slash_lower (c : ascii) :
  (c =? "/")%char = false -> (lowerChar c =? "/")%char = false.
Proof. destruct c as [[] [] [] [] [] [] [] []]; intros H; try discriminate H; reflexivity. Qed.

Lemma prefix_slash_other (l : string) (c : ascii) (s : string) :
  (c =? "/")%char = false -> prefix (String "/" l) (String c s) = false.
Proof.
  intros H. rewrite prefix_cons. destruct (ascii_dec "/" c) as [<-|_];
    [discriminate H | reflexivity].
Qed.

Lemma prefix_i_slash_other (l : string) (c : ascii) (s : string) :
  (c =? "/")%char = false -> prefix_i (String "/" l) (String c s) = false.
Proof.
  intros H. unfold prefix_i. cbn [String.length str_take toLowerCase].
  apply prefix_slash_other. now apply not_slash_lower.
Qed.

Lemma includes_skip (l : string) (c : ascii) (s : string) :
  (c =? "/")%char = false ->
  includes (String c s) (String "/" l) = includes s (String "/" l).
Proof. intros H. rewrite includes_cons. now rewrite prefix_slash_other. Qed.

Lemma regexp_exec_skip {A} (l : string) (i_flag : bool)
  (groups : string -> option A) (c : ascii) (s : string) :
  (c =? "/")%char = false ->
  regexp_exec (String "/" l) i_flag groups (String c s) =
  regexp_exec (String "/" l) i_flag groups s.
Proof.
  intros H. cbn [regexp_exec].
  rewrite prefix_slash_other, prefix_i_slash_other by exact H.
  now destruct i_flag.
Qed.

Lemma includes_no_slash (l s : string) :
  no_slash s = true -> includes s (String "/" l) = false.
Proof.
  unfold no_slash. induction s as [|c s IH]; [reflexivity|].
  rewrite all_chars_cons, andb_true_iff, negb_true_iff. intros [Hc Hs].
  rewrite includes_skip by exact Hc. now apply IH.
Qed.

Lemma regexp_exec_no_slash {A} (l : string) (i_flag : bool)
  (groups : string -> option A) (s : string) :
  no_slash s = true -> regexp_exec (String "/" l) i_flag groups s = None.
Proof.
  unfold no_slash. induction s as [|c s IH].
  - intros _. cbn. now destruct i_flag.
  - rewrite all_chars_cons, andb_true_iff, negb_true_iff. intros [Hc Hs].
    rewrite regexp_exec_skip by exact Hc. now apply IH.
Qed.

(** X14. A message without a slash triggers no handler: the bot does not
    answer plain text. *)
Theorem plain_text_is_ignored (chatId : Z) (text : string) :
  no_slash text = true -> dispatch chatId text = [].
Proof.
  intros H. unfold dispatch.
  rewrite !includes_no_slash, !regexp_exec_no_slash by exact H. reflexivity.
Qed.

Lemma plain_text_is_ignored_witness :
  dispatch 42 "remind me to stretch every monday 8pm" = [].
Proof.
  exact (plain_text_is_ignored 42 "remind me to stretch every monday 8pm"
           eq_refl).
Defined.

Lemma includes_head (l rest : string) :
  no_slash rest = true ->
  includes (String "/" rest) (String "/" l) =
  prefix (String "/" l) (String "/" rest).
Proof.
  intros H. rewrite includes_cons, (includes_no_slash l rest H).
  apply orb_false_r.
Qed.

Lemma regexp_exec_head {A} (l : string) (i_flag : bool)
  (groups : string -> option A) (rest : string) :
  no_slash rest = true ->
  regexp_exec (String "/" l) i_flag groups (String "/" rest) =
  if (if i_flag then prefix_i (String "/" l) (String "/" rest)
      else prefix (String "/" l) (String "/" rest))
  then groups (str_drop (String.length (String "/" l)) (String "/" rest))
  else None.
Proof.
  intros H. cbn [regexp_exec].
  rewrite (regexp_exec_no_slash l i_flag groups rest H).
  destruct i_flag.
  - destruct (prefix_i (String "/" l) (String "/" rest)); [|reflexivity].
    now destruct (groups _).
  - destruct (prefix (String "/" l) (String "/" rest)); [|reflexivity].
    now destruct (groups _).
Qed.

Lemma dot_star_fixed (s : string) : one_line s = true -> dot_star s = s.
Proof.
  induction s as [|c s IH]; [reflexivity|]. cbn [one_line].
  rewrite andb_true_iff, negb_true_iff. intros [Hc Hs].
  cbn [dot_star]. now rewrite Hc, IH.
Qed.

Lemma group_dot_plus_line_ok (s : string) :
  s <> "" -> one_line s = true -> group_dot_plus s = Some s.
Proof.
  intros Hne H. unfold group_dot_plus. rewrite (dot_star_fixed s H).
  destruct s; [congruence | reflexivity].
Qed.

Lemma take_all (s : string) : str_take (String.length s) s = s.
Proof. induction s as [|c s IH]; [reflexivity|]. cbn. now rewrite IH. Qed.

Lemma span_digits_stop (ds rest : string) :
  all_chars isDigit ds = true ->
  span_digits (ds ++ String " " rest) = (String.length ds, String " " rest).
Proof.
  induction ds as [|c ds IH]; [reflexivity|].
  rewrite all_chars_cons, andb_true_iff. intros [Hc Hds].
  cbn [append span_digits String.length]. now rewrite Hc, (IH Hds).
Qed.

Lemma digits_no_slash (ds : string) :
  all_chars isDigit ds = true -> no_slash ds = true.
Proof.
  apply all_chars_impl. intros c Hc.
  destruct c as [[] [] [] [] [] [] [] []]; try discriminate Hc; reflexivity.
Qed.

Lemma digits_one_line (ds : string) :
  all_chars isDigit ds = true -> one_line ds = true.
Proof.
  induction ds as [|c ds IH]; [reflexivity|].
  rewrite all_chars_cons, andb_true_iff. intros [Hc Hds].
  cbn [one_line]. rewrite (IH Hds), andb_true_r.
  destruct c as [[] [] [] [] [] [] [] []]; try discriminate Hc; reflexivity.
Qed.

Lemma prefix_nil (s : string) : prefix "" s = true.
Proof. now destruct s. Qed.

Lemma no_slash_append (a b : string) :
  no_slash (a ++ b) = no_slash a && no_slash b.
Proof. apply all_chars_append. Qed.

Ltac dispatch_exact :=
  unfold dispatch; cbn [append];
  rewrite !includes_head, !regexp_exec_head
    by (unfold no_slash in *;
        rewrite ?all_chars_cons, ?all_chars_append, ?all_chars_cons;
        repeat match goal with
          | H : all_chars _ _ = true |- _ => rewrite H
          end; reflexivity);
  cbn [prefix_i prefix String.length str_take str_drop toLowerCase lowerChar].

Lemma dot_star_stops (ds rest : string) :
  all_chars isDigit ds = true ->
  dot_star (ds ++ line_separator ++ rest) = ds.
Proof.
  induction ds as [|c ds IH]; [reflexivity|].
  rewrite all_chars_cons, andb_true_iff. intros [Hc Hds].
  cbn [append dot_star]. rewrite (IH Hds).
  destruct c as [[] [] [] [] [] [] [] []]; try discriminate Hc; reflexivity.
Qed.

(** X15. A message that consists of one command and its argument, the
    argument being without a slash and without a line terminator (LF, CR,
    U+2028, U+2029), triggers the handler of that command and no other,
    with the argument as typed: /addReminder and /deleteReminders with a
    non-empty argument, /deleteReminder with a decimal numeral,
    /updateReminder with a numeral, one blank and a non-empty message.
    An argument with a line separator in it is handed over up to the
    separator. *)
Theorem exact_command_triggers_its_handler
  (chatId : Z) (arg ds : string) :
  arg <> "" -> no_slash arg = true -> one_line arg = true ->
  ds <> "" -> all_chars isDigit ds = true ->
  dispatch chatId ("/addReminder " ++ arg) =
    [CallCommand (AddReminder chatId arg)] /\
  dispatch chatId ("/deleteReminders " ++ arg) =
    [CallCommand (DeleteReminders chatId arg)] /\
  dispatch chatId ("/deleteReminder " ++ ds) =
    [CallCommand (DeleteReminder chatId ds)] /\
  dispatch chatId ("/updateReminder " ++ ds ++ " " ++ arg) =
    [CallCommand (UpdateReminder chatId ds arg)] /\
  dispatch chatId ("/deleteReminders " ++ ds ++ line_separator ++ arg) =
    [CallCommand (DeleteReminders chatId ds)].
Proof.
  intros Hne Hs Hl Hdne Hd.
  pose proof (digits_no_slash ds Hd) as Hds.
  assert (Hupd : no_slash (ds ++ " " ++ arg) = true).
  { rewrite !no_slash_append, Hds, Hs. reflexivity. }
  assert (Hsep : no_slash (ds ++ line_separator ++ arg) = true).
  { rewrite !no_slash_append, Hds, Hs. reflexivity. }
  split; [|split; [|split; [|split]]].
  - dispatch_exact. cbn. now rewrite (group_dot_plus_line_ok arg Hne Hl).
  - dispatch_exact. cbn. now rewrite (group_dot_plus_line_ok arg Hne Hl).
  - dispatch_exact. cbn. unfold group_digits.
    rewrite (span_digits_all ds Hd). cbn [fst].
    destruct (String.length ds) as [|n] eqn:E;
      [destruct ds; [congruence | discriminate E]|].
    rewrite <- E, take_all, prefix_nil. reflexivity.
  - dispatch_exact. cbn. unfold group_digits_dot_plus.
    rewrite (span_digits_stop ds arg Hd). cbn [fst].
    destruct (String.length ds) as [|n] eqn:E;
      [destruct ds; [congruence | discriminate E]|].
    rewrite <- E, drop_append, take_append, ?prefix_nil.
    now rewrite (group_dot_plus_line_ok arg Hne Hl).
  - dispatch_exact. cbn -[line_separator]. unfold group_dot_plus.
    rewrite (dot_star_stops ds arg Hd).
    destruct ds; [congruence | reflexivity].
Qed.

Lemma exact_command_triggers_its_handler_witness :
  dispatch 42 "/updateReminder 3 Stretch NOW" =
    [CallCommand (UpdateReminder 42 "3" "Stretch NOW")] /\
  dispatch 42 ("/deleteReminders 4" ++ line_separator ++ "2") =
    [CallCommand (DeleteReminders 42 "4")].
Proof.
  pose proof (exact_command_triggers_its_handler 42 "Stretch NOW" "3"
                ltac:(discriminate) eq_refl eq_refl ltac:(discriminate) eq_refl)
    as (_ & _ & _ & U & _).
  pose proof (exact_command_triggers_its_handler 42 "2" "4"
                ltac:(discriminate) eq_refl eq_refl ltac:(discriminate) eq_refl)
    as (_ & _ & _ & _ & S).
  split; [exact U | exact S].
Defined.

(** ** The stored message *)

Lemma trimEnd_idempotent (s : string) : trimEnd (trimEnd s) = trimEnd s.
Proof.
  induction s as [|c s IH]; [reflexivity|]. cbn [trimEnd].
  destruct (trimEnd s) as [|x t] eqn:E.
  - destruct (isWhiteSpace c) eqn:Hc; [reflexivity|].
    cbn [trimEnd]. now rewrite Hc.
  - cbn [trimEnd] in *. now rewrite IH.
Qed.

Lemma trimStart_head (s : string) :
  match trimStart s with
  | EmptyString => True
  | String c _ => isWhiteSpace c = false
  end.
Proof.
  induction s as [|c s IH]; [exact I|]. cbn [trimStart].
  destruct (isWhiteSpace c) eqn:Hc; [exact IH | exact Hc].
Qed.

Lemma trimStart_trimEnd (s : string) :
  match s with
  | EmptyString => True
  | String c _ => isWhiteSpace c = false
  end ->
  trimStart (trimEnd s) = trimEnd s.
Proof.
  destruct s as [|c s]; [reflexivity|]. intros Hc. cbn [trimEnd].
  destruct (trimEnd s); rewrite ?Hc; cbn [trimStart]; now rewrite Hc.
Qed.

Lemma trim_idempotent (s : string) : trim (trim s) = trim s.
Proof.
  unfold trim. rewrite (trimStart_trimEnd _ (trimStart_head s)).
  apply trimEnd_idempotent.
Qed.

Lemma trimEnd_last (s : string) (c : ascii) :
  last_char (trimEnd s) = Some c -> isWhiteSpace c = false.
Proof.
  induction s as [|a s IH]; [discriminate|]. cbn [trimEnd].
  destruct (trimEnd s) as [|b t] eqn:E.
  - destruct (isWhiteSpace a) eqn:Ha; [discriminate|].
    cbn [last_char]. now intros [= <-].
  - cbn [last_char]. exact IH.
Qed.

Lemma trim_first (s : string) (c : ascii) :
  first_char (trim s) = Some c -> isWhiteSpace c = false.
Proof.
  unfold trim. pose proof (trimStart_head s) as H.
  destruct (trimStart s) as [|a t]; [discriminate|]. cbn [trimEnd].
  destruct (trimEnd t).
  - rewrite H. cbn [first_char]. now intros [= <-].
  - cbn [first_char]. now intros [= <-].
Qed.

Lemma toLowerCase_is_ascii (s : string) :
  is_ascii s = true -> is_ascii (toLowerCase s) = true.
Proof.
  unfold is_ascii. induction s as [|c s IH]; [reflexivity|].
  cbn [toLowerCase]. rewrite !all_chars_cons, !andb_true_iff.
  intros [Hc Hs]. split; [|now apply IH].
  destruct c as [[] [] [] [] [] [] [] []]; try discriminate Hc; reflexivity.
Qed.

(** X16. When the argument of an /addReminder is ASCII text, the message
    of every row it appends is ASCII text without white space at its start
    or at its end: its first and its last character are not white space,
    and trimming it changes nothing. *)
Theorem added_message_is_trimmed
  (executed : list string -> list string)
  (chrono : string -> option Date) (tzo : Date -> Z) (chatId : Z)
  (m1 : string) (w : World) :
  is_ascii m1 = true ->
  exists created,
    reminders
      (db (run (addReminderOn toLowerCase trim trimStart executed chrono tzo
                  chatId m1) w)) =
    (reminders (db w) ++ created)%list /\
    Forall (fun r =>
              is_ascii (message r) = true /\
              (forall c, first_char (message r) = Some c ->
                         isWhiteSpace c = false) /\
              (forall c, last_char (message r) = Some c ->
                         isWhiteSpace c = false) /\
              trim (message r) = message r) created.
Proof.
  intros Ha.
  destruct (addReminderOn_db toLowerCase trim trimStart executed chrono tzo
              chatId m1 w)
    as [E | (mraw & draw & rest & parsedTime & Hs & _ & _ & E)]; rewrite E.
  - exists []. now rewrite app_nil_r.
  - rewrite insert_all_rows. eexists. split; [reflexivity|].
    apply Forall_forall. intros r H.
    apply new_rows_fields in H as (_ & -> & _).
    split; [|split; [|split]].
    + apply (all_chars_occurs _ _ (toLowerCase m1));
        [|now apply toLowerCase_is_ascii].
      eapply occurs_in_trans; [apply occurs_in_trim|].
      eapply occurs_in_trans; [apply occurs_in_replace_remind|].
      exact (proj1 (split_second_occurs _ _ _ _ Hs)).
    + apply trim_first.
    + intros c. unfold trim. apply trimEnd_last.
    + apply trim_idempotent.
Qed.

Lemma added_message_is_trimmed_witness :
  exists created,
    reminders
      (db (run (addReminderOn toLowerCase trim trimStart (@rev string)
                  (sample_parseDate host_ist) host_ist 42
                  "remind   to stretch   every monday 8pm") empty_world)) =
    ([] ++ created)%list /\
    Forall (fun r =>
              is_ascii (message r) = true /\
              (forall c, first_char (message r) = Some c ->
                         isWhiteSpace c = false) /\
              (forall c, last_char (message r) = Some c ->
                         isWhiteSpace c = false) /\
              trim (message r) = message r) created.
Proof.
  exact (added_message_is_trimmed (@rev string) (sample_parseDate host_ist)
           host_ist 42 "remind   to stretch   every monday 8pm" empty_world
           eq_refl).
Defined.

(** ** Splitting and joining *)

Lemma concat_cons_head (sep : string) (c : ascii) (p : string)
  (ps : list string) :
  String.concat sep (String c p :: ps) = String c (String.concat sep (p :: ps)).
Proof. destruct ps; reflexivity. Qed.

Lemma split_head_prefix (s : string) (a : ascii) (sep' : string)
  (p : string) (ps : list string) :
  split s (String a sep') = p :: ps -> exists t, s = p ++ t.
Proof.
  revert p ps; induction s as [|c s IH]; intros p ps H.
  - rewrite split_nil in H. injection H as <- _. now exists "".
  - rewrite split_cons in H. cbv zeta in H.
    destruct (prefix (String a sep') (String c s)).
    + injection H as <- _. now exists (String c s).
    + destruct (split s (String a sep')) as [|q qs] eqn:E.
      * injection H as <- _. now exists s.
      * injection H as <- _. destruct (IH q qs eq_refl) as [t Ht].
        exists t. cbn. now rewrite <- Ht.
Qed.

Lemma prefix_append (p a b : string) :
  prefix p a = true -> prefix p (a ++ b) = true.
Proof.
  rewrite !prefix_iff. intros [t ->]. exists (t ++ b).
  now rewrite append_assoc.
Qed.

Lemma split_round_trip_upto (n : nat) (s : string) (a : ascii) (sep' : string) :
  (String.length s <= n)%nat ->
  join (split s (String a sep')) (String a sep') = s /\
  Forall (fun p => includes p (String a sep') = false) (split s (String a sep')).
Proof.
  revert s; induction n as [|n IH]; intros s Hn.
  - destruct s; [|cbn in Hn; lia]. split; [reflexivity|].
    repeat constructor.
  - destruct s as [|c s]; [split; [reflexivity | repeat constructor]|].
    rewrite split_cons. cbv zeta.
    destruct (prefix (String a sep') (String c s)) eqn:P.
    + pose proof P as P'. apply prefix_iff in P' as [t Ht].
      rewrite Ht, drop_append.
      assert (Hlen : (String.length t <= n)%nat).
      { apply (f_equal String.length) in Ht. rewrite length_append in Ht.
        cbn [String.length] in *. lia. }
      destruct (IH t Hlen) as [Hj Hf]. split; [|constructor; [reflexivity | exact Hf]].
      unfold join in *. destruct (split t (String a sep')) as [|q qs] eqn:E.
      * exfalso. unfold split in E. now apply split_from_nonempty in E.
      * change (String.concat (String a sep') ("" :: q :: qs))
          with (String a sep' ++ String.concat (String a sep') (q :: qs)).
        now rewrite Hj.
    + assert (Hlen : (String.length s <= n)%nat) by (cbn in Hn; lia).
      destruct (IH s Hlen) as [Hj Hf].
      destruct (split s (String a sep')) as [|q qs] eqn:E.
      * exfalso. unfold split in E. now apply split_from_nonempty in E.
      * split.
        -- unfold join in *. now rewrite concat_cons_head, Hj.
        -- apply Forall_cons_iff in Hf as [Hq Hqs]. constructor; [|exact Hqs].
           rewrite includes_cons, Hq, orb_false_r.
           destruct (split_head_prefix s a sep' q qs E) as [t Ht].
           destruct (prefix (String a sep') (String c q)) eqn:Pq; [|reflexivity].
           apply (prefix_append _ _ t) in Pq. cbn [append] in Pq.
           rewrite <- Ht in Pq. congruence.
Qed.

(** X17. Splitting a text at a non-empty separator and joining the
    pieces with the separator gives the text back; no piece contains the
    separator; and a text without the separator is its only piece. *)
Theorem split_join_round_trip (s : string) (a : ascii) (sep' : string) :
  let sep := String a sep' in
  join (split s sep) sep = s /\
  Forall (fun p => includes p sep = false) (split s sep) /\
  (includes s sep = false -> split s sep = [s]).
Proof.
  intros sep.
  destruct (split_round_trip_upto (String.length s) s a sep' (le_n _))
    as [Hj Hf].
  split; [exact Hj|]. split; [exact Hf|].
  intros H. apply split_no_occurrence.
  destruct (indexOf s (String a sep')) eqn:E; [|reflexivity].
  assert (includes s (String a sep') = true)
    by (apply includes_indexOf; congruence).
  unfold sep in H. congruence.
Qed.

Lemma split_join_round_trip_witness :
  split "monday 8pm" "every" = ["monday 8pm"].
Proof.
  exact (proj2 (proj2 (split_join_round_trip "monday 8pm" "e" "very")) eq_refl).
Defined.

(** ** The time tokens *)

Lemma match_time_nonempty (p : string) : match_time p = true -> p <> "".
Proof. destruct p; [discriminate | discriminate]. Qed.

(** X18. The text given to the time parser is empty exactly when no
    blank-separated token of the day and time part contains one or two
    digits followed by "am" or "pm"; otherwise it starts with the first
    such token. *)
Theorem timePart_empty_iff (dayTimePart : string) :
  (timePart_of dayTimePart = "" <->
   forall tok, In tok (split dayTimePart " ") -> match_time tok = false) /\
  (forall tok toks,
     filter match_time (split dayTimePart " ") = tok :: toks ->
     prefix tok (timePart_of dayTimePart) = true /\ match_time tok = true).
Proof.
  unfold timePart_of, join.
  destruct (filter match_time (split dayTimePart " ")) as [|tok toks] eqn:E.
  - split.
    + split; [|reflexivity]. intros _ tok Hin.
      destruct (match_time tok) eqn:Ht; [|reflexivity].
      assert (H : In tok []) by (rewrite <- E; now apply filter_In).
      contradiction.
    + discriminate.
  - assert (Ht : match_time tok = true).
    { assert (H : In tok (filter match_time (split dayTimePart " ")))
        by (rewrite E; now left).
      now apply filter_In in H. }
    split.
    + split.
      * intros H. exfalso. apply (match_time_nonempty tok Ht).
        destruct toks; cbn [String.concat] in H; [exact H|].
        destruct tok; [reflexivity | discriminate H].
      * intros H. assert (Hin : In tok (split dayTimePart " ")).
        { assert (H' : In tok (filter match_time (split dayTimePart " ")))
            by (rewrite E; now left).
          now apply filter_In in H'. }
        rewrite (H tok Hin) in Ht. discriminate.
    + intros tok' toks' [= <- <-]. split; [|exact Ht].
      apply prefix_iff. destruct toks; cbn [String.concat]; eauto.
      exists "". now rewrite append_nil_r.
Qed.

Lemma timePart_empty_iff_witness :
  timePart_of "monday at noon" = "".
Proof.
  apply (proj1 (timePart_empty_iff "monday at noon")).
  intros tok H. cbn in H.
  repeat (destruct H as [<-|H]; [reflexivity|]). contradiction.
Defined.

(** ** The listing *)

Lemma occurs_in_concat (sep x : string) (l : list string) :
  In x l -> occurs_in x (String.concat sep l).
Proof.
  induction l as [|y l IH]; [contradiction|]. intros [->|H].
  - destruct l; cbn [String.concat]; [apply occurs_in_refl|].
    exists "". eexists. reflexivity.
  - specialize (IH H). destruct l as [|z l]; [contradiction|].
    cbn [String.concat] in *. destruct IH as (p & q & E).
    exists (y ++ sep ++ p), q. rewrite E. now rewrite !append_assoc.
Qed.

(** X19. /listReminders leaves the table as it is and answers "You have
    no reminders set." exactly when the chat owns no row; otherwise the
    answer shows every row of the chat, with its id, message, day and
    time; asked twice in a row, it gives the same answer twice. *)
Theorem listReminders_shows_own_rows (chatId : Z) (w : World) :
  let rows := select_by_chat (toString chatId) (db w) in
  let w' := run (listReminders chatId) w in
  db w' = db w /\
  outbox w' = (outbox w ++ [(toString chatId, listing rows)])%list /\
  (listing rows = msg_no_reminders <-> rows = []) /\
  (forall r, In r (reminders (db w)) -> chat_id r = toString chatId ->
             occurs_in (show_row r) (listing rows)) /\
  outbox (run (listReminders chatId) w') =
    (outbox w ++ [(toString chatId, listing rows);
                  (toString chatId, listing rows)])%list.
Proof.
  intros rows w'. subst w'. rewrite !listReminders_run. cbn [db outbox].
  fold rows. split; [reflexivity|]. split; [reflexivity|]. split; [|split].
  - unfold listing. destruct rows as [|r rs]; [tauto|].
    cbn [List.length Nat.eqb]. split; discriminate.
  - intros r Hr Hc.
    assert (Hin : In r rows).
    { apply filter_In. split; [exact Hr | now apply String.eqb_eq]. }
    unfold listing. destruct rows as [|r0 rs] eqn:E; [contradiction|].
    cbn [List.length Nat.eqb].
    assert (H : occurs_in (show_row r)
                  (join (map show_row (r0 :: rs)) (newline ++ newline)))
      by (apply occurs_in_concat; now apply in_map).
    destruct H as (p & q & Hpq). rewrite Hpq.
    exists ("📋 Your Reminders:" ++ newline ++ newline ++ p), q.
    now rewrite !append_assoc.
  - now rewrite <- app_assoc.
Qed.

Lemma listReminders_shows_own_rows_witness :
  occurs_in (show_row (mkRow 2 "7" "call mom" "wednesday" "20:00" "yes"))
    (listing (select_by_chat (toString 7) (db sample_world))).
Proof.
  apply (proj1 (proj2 (proj2 (proj2
           (listReminders_shows_own_rows 7 sample_world)))));
    [cbn; tauto | reflexivity].
Defined.

(** ** Ticks within one minute *)

(** X20. On a host whose offset from UTC is fixed, two ticks within the
    same minute find the same reminders due; nothing records that a
    reminder was sent, so the second tick sends every one of them
    again. *)
Theorem ticks_in_one_minute_repeat (o : Z) (now now' : Date) (w : World) :
  now / 60000 = now' / 60000 ->
  let tzo : Date -> Z := fun _ => o in
  let due :=
    map (fun r => (chat_id r, msg_reminder (message r)))
      (select_due (nth (Z.to_nat (getDay tzo now)) daysOfWeek "")
         (toTimeString_slice5 tzo now) (db w)) in
  outbox (run (scheduler tzo now') (run (scheduler tzo now) w)) =
  (outbox w ++ due ++ due)%list.
Proof.
  intros Hmin tzo due.
  assert (Hq : (now - o * 60000) / 60000 = (now' - o * 60000) / 60000).
  { replace (now - o * 60000) with (now + (- o) * 60000) by ring.
    replace (now' - o * 60000) with (now' + (- o) * 60000) by ring.
    rewrite !Z.div_add by lia. now rewrite Hmin. }
  assert (Ht : toTimeString_slice5 tzo now' = toTimeString_slice5 tzo now).
  { apply toTimeString_slice5_eq. unfold minutes_of_day, localTime, tzo.
    now rewrite Hq. }
  assert (Hd : getDay tzo now' = getDay tzo now).
  { unfold getDay, localTime, tzo.
    replace 86400000 with (60000 * 1440) by reflexivity.
    rewrite <- !Z.div_div by lia. now rewrite Hq. }
  assert (R : forall t v,
             run (scheduler tzo t) v =
             {| db := db v;
                outbox := (outbox v ++
                  map (fun r => (chat_id r, msg_reminder (message r)))
                    (select_due (nth (Z.to_nat (getDay tzo t)) daysOfWeek "")
                       (toTimeString_slice5 tzo t) (db v)))%list |}).
  { intros t v. unfold run, scheduler, bind, db_all_due. cbv zeta.
    now rewrite forEach_sendMessage. }
  rewrite !R. cbn [db outbox]. rewrite Hd, Ht. fold due.
  now rewrite <- app_assoc.
Qed.

Lemma ticks_in_one_minute_repeat_witness :
  outbox (run (scheduler host_ist (sample_now + 59000))
            (run (scheduler host_ist sample_now) sample_world)) =
  [("42", msg_reminder "to take out waste"); ("7", msg_reminder "call mom");
   ("42", msg_reminder "to take out waste"); ("7", msg_reminder "call mom")].
Proof.
  exact (ticks_in_one_minute_repeat (-330) sample_now (sample_now + 59000)
           sample_world eq_refl).
Defined.

(** ** The parts of an addition *)

(** X21. When the lower-cased argument of /addReminder contains "every",
    splitting it always gives a message part and a day and time part
    (the handler never reads a missing piece): the message part is the
    text before the leftmost "every", the day and time part is the text
    that follows it up to the next "every" or to the end, and neither
    contains "every". *)
Theorem add_parts_of_argument (text : string) :
  includes text "every" = true ->
  exists mraw draw rest tail,
    split text "every" = mraw :: draw :: rest /\
    text = mraw ++ "every" ++ draw ++ tail /\
    (tail = "" \/ prefix "every" tail = true) /\
    includes mraw "every" = false /\
    includes draw "every" = false.
Proof.
  intros H.
  destruct (split_two_pieces text "e" "very" H) as (i & rest & Hi & Hs).
  destruct (split_round_trip_upto (String.length text) text "e" "very" (le_n _))
    as [_ Hf].
  rewrite Hs in Hf. apply Forall_cons_iff in Hf as [Hm Hf].
  apply Forall_cons_iff in Hf as [Hd _].
  pose proof (indexOf_occurrence _ _ _ Hi) as Ht.
  set (after := str_drop (i + String.length "every") text) in *.
  destruct (indexOf after "every") as [j|] eqn:Ej.
  - exists (str_take i text), (str_take j after), rest,
      ("every" ++ str_drop (j + String.length "every") after).
    split; [exact Hs|]. split.
    + rewrite Ht at 1. do 2 f_equal. exact (indexOf_occurrence _ _ _ Ej).
    + split; [right; apply prefix_iff; eexists; reflexivity|].
      split; assumption.
  - exists (str_take i text), after, rest, "".
    split; [exact Hs|]. split; [now rewrite append_nil_r|].
    split; [now left | split; assumption].
Qed.

Lemma add_parts_of_argument_witness :
  exists mraw draw rest tail,
    split "walk every monday 7am" "every" = mraw :: draw :: rest /\
    "walk every monday 7am" = mraw ++ "every" ++ draw ++ tail /\
    (tail = "" \/ prefix "every" tail = true) /\
    includes mraw "every" = false /\
    includes draw "every" = false.
Proof. exact (add_parts_of_argument "walk every monday 7am" eq_refl). Defined.

(** ** The confirmation of an addition *)

(** X22. The confirmation of an accepted /addReminder names, in the order
    of [daysOfWeek] and each once, the days of the rows it has just
    stored, in whatever order the database has stored them, and the time
    that each of these rows carries. *)
Theorem add_confirmation_matches_rows
  (lower jtrim jtrimStart : string -> string)
  (executed : list string -> list string)
  (chrono : string -> option Date) (tzo : Date -> Z) (chatId : Z)
  (m1 : string) (w : World) (mraw draw : string) (rest : list string)
  (parsedTime : Date) :
  (forall l, Permutation (executed l) l) ->
  split (lower m1) "every" = mraw :: draw :: rest ->
  foundDays_on lower (jtrim draw) <> [] ->
  chrono (timePart_of (jtrim draw)) = Some parsedTime ->
  let w' :=
    run (addReminderOn lower jtrim jtrimStart executed chrono tzo chatId m1)
      w in
  exists created named timeStr,
    reminders (db w') = (reminders (db w) ++ created)%list /\
    created <> [] /\
    Forall (fun r => time r = timeStr) created /\
    Permutation (map day_of_week created) named /\
    NoDup named /\
    Subseq named daysOfWeek /\
    outbox w' =
      (outbox w ++ [(toString chatId, msg_reminder_set named timeStr)])%list.
Proof.
  intros Hex Hs Hd Ht w'. subst w'. unfold run.
  rewrite (addReminderOn_ok _ _ _ _ _ _ _ _ _ _ _ _ _ Hs Hd Ht).
  cbn [snd db outbox]. rewrite insert_all_rows.
  eexists. exists (foundDays_on lower (jtrim draw)). eexists.
  split; [reflexivity|]. split; [|split; [|split; [|split; [|split]]]].
  - intros E. apply (f_equal (@List.length Row)) in E.
    rewrite new_rows_length, (Permutation_length (Hex _)) in E.
    destruct (foundDays_on lower (jtrim draw)); [congruence | discriminate].
  - apply Forall_forall. intros r Hr.
    now apply new_rows_fields in Hr as (_ & _ & -> & _).
  - rewrite new_rows_days. apply Hex.
  - apply foundDays_on_NoDup.
  - apply Subseq_filter.
  - reflexivity.
Qed.

Lemma add_confirmation_matches_rows_witness :
  exists created named timeStr,
    reminders
      (db (run (addReminderOn toLowerCase trim trimStart (@rev string)
                  (sample_parseDate host_ist) host_ist 7
                  "walk every monday and friday 7am") sample_world)) =
    (reminders (db sample_world) ++ created)%list /\
    created <> [] /\
    Forall (fun r => time r = timeStr) created /\
    Permutation (map day_of_week created) named /\
    NoDup named /\
    Subseq named daysOfWeek /\
    outbox (run (addReminderOn toLowerCase trim trimStart (@rev string)
                   (sample_parseDate host_ist) host_ist 7
                   "walk every monday and friday 7am") sample_world) =
      (outbox sample_world ++
       [(toString 7, msg_reminder_set named timeStr)])%list.
Proof.
  exact (add_confirmation_matches_rows toLowerCase trim trimStart
           (@rev string) (sample_parseDate host_ist) host_ist 7
           "walk every monday and friday 7am" sample_world
           "walk " " monday and friday 7am" []
           (sample_midnight + 7 * 3600000 - 330 * 60000)
           (fun l => Permutation_sym (Permutation_rev l))
           eq_refl ltac:(discriminate) eq_refl).
Defined.

(** ** From the message to the table *)

Lemma toString_numeral (n : Z) :
  0 <= n -> toString n <> "" /\ all_chars isDigit (toString n) = true.
Proof.
  destruct n as [|p|p]; intros H; [split; [discriminate | reflexivity] | | lia].
  rewrite toString_pos.
  split; [apply string_of_uint_nonempty | apply string_of_uint_digits].
Qed.

(** X23. In a table that only the bot has written to, the owner of a
    reminder who sends "/deleteReminder " followed by the id that the
    listing shows triggers the deletion handler and no other, and the
    handler removes that reminder and no other. *)
Theorem delete_message_removes_listed_row
  (t2r : string -> option Z) (chatId : Z) (r : Row) (w : World) :
  table_ok (db w) ->
  In r (reminders (db w)) ->
  chat_id r = toString chatId ->
  let text := "/deleteReminder " ++ toString (id r) in
  let c := DeleteReminder chatId (toString (id r)) in
  dispatch chatId text = [CallCommand c] /\
  (forall chrono tzo r',
     In r' (reminders (db (run (handle chrono tzo t2r c) w))) <->
     In r' (reminders (db w)) /\ r' <> r).
Proof.
  intros [Hinc Hrows] Hr Hc text c.
  rewrite Forall_forall in Hrows. destruct (Hrows r Hr) as [Hid _].
  destruct (toString_numeral (id r)) as [Hne Hd]; [lia|].
  split.
  - subst text c. unfold dispatch. cbn [append].
    pose proof (digits_no_slash _ Hd) as Hs.
    rewrite !includes_head, !regexp_exec_head
      by (unfold no_slash in *; rewrite ?all_chars_cons; rewrite Hs;
          reflexivity).
    cbn. unfold group_digits. rewrite (span_digits_all _ Hd). cbn [fst].
    destruct (String.length (toString (id r))) as [|n] eqn:E;
      [destruct (toString (id r)); [congruence | discriminate E]|].
    rewrite <- E, take_all, prefix_nil. reflexivity.
  - intros chrono tzo r'. subst c. cbn [handle].
    rewrite deleteReminder_db, parseInt_of_toString.
    cbn [number_param delete_reminder fst reminders].
    rewrite filter_In, negb_true_iff. split; intros [Hr' H]; split;
      try exact Hr'.
    + intros ->.
      rewrite (proj2 (where_id_chat_integer t2r _ _ r) (conj eq_refl Hc)) in H.
      discriminate.
    + apply not_true_is_false. intros Ht.
      apply where_id_chat_integer in Ht as [Hid' _]. apply H.
      exact (NoDup_ids_same_row _ _ _ (ids_increasing_NoDup _ Hinc) Hr' Hr Hid').
Qed.

Lemma delete_message_removes_listed_row_witness :
  dispatch 42 "/deleteReminder 3" =
  [CallCommand (DeleteReminder 42 "3")].
Proof.
  refine (proj1 (delete_message_removes_listed_row sample_text_to_rowid 42
                   (mkRow 3 "42" "stretch" "wednesday" "20:01" "yes")
                   sample_world table_ok_sample_world _ eq_refl)).
  cbn. tauto.
Defined.
